(** * gogogo-server: the session relay

    A shallow embedding of the relay core of gogogo-server:
    - [pty.ts]        the pseudo-terminal controller,
    - [web-server.ts] the client registry, the size reconciler, the output
                      broadcaster with its history buffer, the per-connection
                      message router and the ASR gateway bridge,
    - [session.ts]    the start-up wiring of the callbacks and the PIN,
    - [web-server.ts] the PIN login and the authentication middleware,
    - [relay.ts]      the HTTP relay.

    Module-level [let] variables of the TypeScript sources become fields of
    one explicit state record; every callback of the event loop becomes a
    function on that state, in a small state-and-exception monad.  Calls
    that leave the process (writes to a socket, to the PTY, to the console)
    are recorded, in order, in a trace of effects. *)

From stdpp Require Import gmap strings list functions.
From Stdlib Require Import ZArith.

Local Open Scope Z_scope.

(** ** Identities and wire messages *)

(** A browser connection accepted by the [WebSocketServer] (the key of the
    [connectedClients] map) and an outbound connection to the ASR gateway
    ([new WebSocketClient(gatewayUrl)]) are objects; they are identified
    here by the order of their creation. *)
Definition sock := nat.
Definition handle := nat.

(** [WebSocket.readyState] of the [ws] library. *)
Inductive ReadyState := CONNECTING | OPEN | CLOSING | CLOSED.

Global Instance ReadyState_eq_dec : EqDecision ReadyState.
Proof. solve_decision. Defined.

(** What the message handler reads from a parsed client message.  A field
    that is absent reads as [undefined], here [None]. *)
Record Msg := {
  msg_type : option string;
  msg_data : option string;
  msg_cols : option Z;
  msg_rows : option Z;
  msg_language : option string;
  msg_model : option string;
  msg_context : option string;
  msg_audio : option string;
  msg_transcript : option string
}.

(** The result of [JSON.parse(data.toString())] on a client frame. *)
Inductive RawMsg :=
  | NotJSON                 (* JSON.parse throws a SyntaxError *)
  | JSONNull                (* parses to null: reading [msg.type] throws *)
  | Parsed (msg : Msg).

(** What the gateway handler reads from a parsed gateway message. *)
Record GatewayResponse := {
  resp_type : option string;
  resp_text : option string;
  resp_original : option string;
  resp_corrected : option string;
  resp_message : option string
}.

Inductive RawGatewayMsg :=
  | GwNotJSON
  | GwJSONNull
  | GwParsed (response : GatewayResponse).

(** The [data] payload of an [asr_response] sent to a client. *)
Inductive AsrData :=
  | asr_ready
  | asr_partial (text : option string)
  | asr_completed (text : option string)
  | asr_correction_result (original corrected : option string)
  | asr_error (error : option string)
  | asr_forwarded (response : GatewayResponse).

(** Relay to client ([ws.send(JSON.stringify(...))]). *)
Inductive ServerMsg :=
  | history (data : list string)
  | output (data : string)
  | exit (code : Z)
  | asr_response (data : AsrData)
  | claude_response (text : option string) (done : option bool)
                    (error fallback : option string).

(** Relay to gateway. *)
Inductive GatewayMsg :=
  | start_asr (language model : string)
  | context_update (context : string)
  | audio_data (audio : option string)
  | stop_asr
  | correct_text (text context : option string).

(** JavaScript truthiness of the values the handlers test. *)
Definition truthy_str (s : option string) : bool :=
  match s with
  | Some s => negb (String.eqb s "")
  | None => false
  end.

Definition truthy_num (n : option Z) : bool :=
  match n with
  | Some n => negb (n =? 0)
  | None => false
  end.

(** [a || b] on strings. *)
Definition or_str (a : option string) (b : string) : string :=
  match a with
  | Some s => if String.eqb s "" then b else s
  | None => b
  end.

(** [a || b] where [b] may itself be undefined. *)
Definition or_opt_str (a b : option string) : option string :=
  if truthy_str a then a else b.

(** [msg.type === t] *)
Definition type_is (t : option string) (s : string) : bool :=
  match t with
  | Some t => String.eqb t s
  | None => false
  end.

(** ** Closures

    The callbacks registered on timers and on gateway sockets close over
    the client socket [ws], its [clientInfo] object and the message that
    created them.  They are kept as data. *)

(** [setTimeout(() => {...}, 1000)] of the [asr_stop] handler. *)
Inductive Timer :=
  | closeAsrAfterStop (ws : sock).

(** The two places that create a gateway socket. *)
Inductive GatewayKind :=
  | asrGateway (ws : sock) (language model : option string)
  | correctionGateway (ws : sock) (transcript context : option string).

Record Gateway := {
  gw_kind : GatewayKind;
  gw_readyState : ReadyState
}.

(** The callbacks that are handed to [onPTYData] and [onPTYExit]. *)
Inductive DataCallback :=
  | broadcastOutput.          (* web-server.ts, startWebServer *)

Inductive ExitCallback :=
  | broadcastExit             (* web-server.ts, startWebServer *)
  | sessionEnded.             (* session.ts, startSession *)

(** ** Effects, in the order the process performs them *)

Inductive Effect :=
  | StdoutWrite (data : string)                 (* process.stdout.write *)
  | PtyWrite (data : string)                    (* ptyProcess.write *)
  | PtyResize (cols rows : Z)                   (* ptyProcess.resize *)
  | PtyKill                                     (* ptyProcess.kill *)
  | WsSend (ws : sock) (m : ServerMsg)          (* ws.send *)
  | WsClose (ws : sock)                         (* client.close() *)
  | GwNew (h : handle)                          (* new WebSocketClient *)
  | GwSend (h : handle) (m : GatewayMsg)        (* asrWs.send *)
  | GwClose (h : handle) (code : option Z) (reason : option string)
  | SetTimeout (delay : Z) (t : Timer)
  | ConsoleError (label : string)
  | ConsoleLog (label : string)
  | StopTunnel
  | ProcessExit (code : Z).

(** ** State *)

(** The [IPty] object: all the relay observes of it is its window size. *)
Record IPty := { pty_cols : Z; pty_rows : Z }.

(** Module variables of pty.ts. *)
Record PtyModule := {
  ptyProcess : option IPty;
  dataCallback : option DataCallback;
  exitCallback : option ExitCallback;
  localCols : Z;
  localRows : Z
}.

(** The [clientInfo] object of a connection.  [sessionReady],
    [audioChunkCount] and [terminalContext] are absent until [asr_start]
    sets them; absent reads as falsy, which is how every test in the source
    reads them. *)
Record ClientInfo := {
  cols : Z;
  rows : Z;
  id : Z * nat;                       (* `client-${Date.now()}-${counter}` *)
  asrWs : option handle;
  sessionReady : bool;
  audioChunkCount : nat;
  terminalContext : string
}.

(** Module variables of web-server.ts.  [connectedClients] is a JavaScript
    [Map] keyed by socket: its keys in insertion order, and the object
    each socket's connection created.  An object outlives its entry,
    because the closures of its connection keep it. *)
Record WebServer := {
  connectedClients : list sock;
  clientInfos : sock → ClientInfo;
  outputBuffer : list string;
  clientIdCounter : nat
}.

(** The sockets and timers the process holds. *)
Record Env := {
  clientSockets : gmap sock ReadyState;
  gateways : gmap handle Gateway;
  nextGateway : handle;
  timers : list Timer
}.

Record Relay := {
  pty : PtyModule;
  web : WebServer;
  env : Env;
  trace : list Effect
}.

(** Field updates. *)
Definition set_pty (f : PtyModule → PtyModule) (st : Relay) : Relay :=
  {| pty := f (pty st); web := web st; env := env st; trace := trace st |}.
Definition set_web (f : WebServer → WebServer) (st : Relay) : Relay :=
  {| pty := pty st; web := f (web st); env := env st; trace := trace st |}.
Definition set_env (f : Env → Env) (st : Relay) : Relay :=
  {| pty := pty st; web := web st; env := f (env st); trace := trace st |}.
Definition emit (e : Effect) (st : Relay) : Relay :=
  {| pty := pty st; web := web st; env := env st; trace := trace st ++ [e] |}.

Definition with_ptyProcess (p : option IPty) (m : PtyModule) : PtyModule :=
  {| ptyProcess := p; dataCallback := dataCallback m;
     exitCallback := exitCallback m;
     localCols := localCols m; localRows := localRows m |}.
Definition with_dataCallback (c : option DataCallback) (m : PtyModule) : PtyModule :=
  {| ptyProcess := ptyProcess m; dataCallback := c;
     exitCallback := exitCallback m;
     localCols := localCols m; localRows := localRows m |}.
Definition with_exitCallback (c : option ExitCallback) (m : PtyModule) : PtyModule :=
  {| ptyProcess := ptyProcess m; dataCallback := dataCallback m;
     exitCallback := c;
     localCols := localCols m; localRows := localRows m |}.
Definition with_local (c r : Z) (m : PtyModule) : PtyModule :=
  {| ptyProcess := ptyProcess m; dataCallback := dataCallback m;
     exitCallback := exitCallback m;
     localCols := c; localRows := r |}.

Definition with_connectedClients (l : list sock) (w : WebServer) : WebServer :=
  {| connectedClients := l; clientInfos := clientInfos w;
     outputBuffer := outputBuffer w; clientIdCounter := clientIdCounter w |}.
Definition with_clientInfos (h : sock → ClientInfo) (w : WebServer) : WebServer :=
  {| connectedClients := connectedClients w; clientInfos := h;
     outputBuffer := outputBuffer w; clientIdCounter := clientIdCounter w |}.
Definition with_outputBuffer (b : list string) (w : WebServer) : WebServer :=
  {| connectedClients := connectedClients w; clientInfos := clientInfos w;
     outputBuffer := b; clientIdCounter := clientIdCounter w |}.
Definition with_clientIdCounter (n : nat) (w : WebServer) : WebServer :=
  {| connectedClients := connectedClients w; clientInfos := clientInfos w;
     outputBuffer := outputBuffer w; clientIdCounter := n |}.

Definition with_clientSockets (s : gmap sock ReadyState) (e : Env) : Env :=
  {| clientSockets := s; gateways := gateways e;
     nextGateway := nextGateway e; timers := timers e |}.
Definition with_gateways (g : gmap handle Gateway) (e : Env) : Env :=
  {| clientSockets := clientSockets e; gateways := g;
     nextGateway := nextGateway e; timers := timers e |}.
Definition with_nextGateway (n : handle) (e : Env) : Env :=
  {| clientSockets := clientSockets e; gateways := gateways e;
     nextGateway := n; timers := timers e |}.
Definition with_timers (t : list Timer) (e : Env) : Env :=
  {| clientSockets := clientSockets e; gateways := gateways e;
     nextGateway := nextGateway e; timers := t |}.

Definition with_size (c r : Z) (ci : ClientInfo) : ClientInfo :=
  {| cols := c; rows := r; id := id ci; asrWs := asrWs ci;
     sessionReady := sessionReady ci; audioChunkCount := audioChunkCount ci;
     terminalContext := terminalContext ci |}.
Definition with_asrWs (h : option handle) (ci : ClientInfo) : ClientInfo :=
  {| cols := cols ci; rows := rows ci; id := id ci; asrWs := h;
     sessionReady := sessionReady ci; audioChunkCount := audioChunkCount ci;
     terminalContext := terminalContext ci |}.
Definition with_sessionReady (b : bool) (ci : ClientInfo) : ClientInfo :=
  {| cols := cols ci; rows := rows ci; id := id ci; asrWs := asrWs ci;
     sessionReady := b; audioChunkCount := audioChunkCount ci;
     terminalContext := terminalContext ci |}.
Definition with_audioChunkCount (n : nat) (ci : ClientInfo) : ClientInfo :=
  {| cols := cols ci; rows := rows ci; id := id ci; asrWs := asrWs ci;
     sessionReady := sessionReady ci; audioChunkCount := n;
     terminalContext := terminalContext ci |}.
Definition with_terminalContext (s : string) (ci : ClientInfo) : ClientInfo :=
  {| cols := cols ci; rows := rows ci; id := id ci; asrWs := asrWs ci;
     sessionReady := sessionReady ci; audioChunkCount := audioChunkCount ci;
     terminalContext := s |}.

(** ** The monad of event handlers

    A handler runs to completion, throws, or ends the process
    ([process.exit]).  The state reached so far is kept in all three
    cases: JavaScript does not roll mutations back. *)

Inductive Exn :=
  | SyntaxError               (* JSON.parse *)
  | TypeError                 (* property read or call on null *)
  | NotOpenError.             (* ws: send() while CONNECTING *)

Inductive Outcome (A : Type) :=
  | Normal (a : A) (st : Relay)
  | Thrown (e : Exn) (st : Relay)
  | Exited (code : Z) (st : Relay).
Arguments Normal {A} a st.
Arguments Thrown {A} e st.
Arguments Exited {A} code st.

Definition M (A : Type) : Type := Relay → Outcome A.

Global Instance M_ret : MRet M := λ A a st, Normal a st.
Global Instance M_bind : MBind M := λ A B f m st,
  match m st with
  | Normal a st' => f a st'
  | Thrown e st' => Thrown e st'
  | Exited c st' => Exited c st'
  end.

Definition throw {A} (e : Exn) : M A := λ st, Thrown e st.
Definition process_exit {A} (code : Z) : M A :=
  λ st, Exited code (emit (ProcessExit code) st).
Definition get : M Relay := λ st, Normal st st.
Definition modify (f : Relay → Relay) : M unit := λ st, Normal () (f st).
Definition when (b : bool) (m : M unit) : M unit := if b then m else mret ().
Definition try_catch (body : M unit) (handler : Exn → M unit) : M unit :=
  λ st,
    match body st with
    | Thrown e st' => handler e st'
    | r => r
    end.

(** The state an outcome ends in. *)
Definition final {A} (o : Outcome A) : Relay :=
  match o with
  | Normal _ st | Thrown _ st | Exited _ st => st
  end.

Definition returns {A} (o : Outcome A) : bool :=
  match o with
  | Normal _ _ => true
  | _ => false
  end.

(** ** The [ws] library, as far as the relay depends on it

    A socket the server accepted is never CONNECTING, and [send] on a
    socket that is closing or closed is dropped without throwing; [send]
    on an outbound socket that is still CONNECTING throws; [close] moves a
    socket that is not yet closed to CLOSING.  The trace records the
    calls. *)

Definition readyState (ws : sock) (st : Relay) : ReadyState :=
  default CLOSED (clientSockets (env st) !! ws).

Definition is_open (rs : ReadyState) : bool := bool_decide (rs = OPEN).

Definition ws_send (ws : sock) (m : ServerMsg) (st : Relay) : Relay :=
  emit (WsSend ws m) st.

Definition gw_readyState_of (h : handle) (st : Relay) : ReadyState :=
  match gateways (env st) !! h with
  | Some g => gw_readyState g
  | None => CLOSED
  end.

Definition set_gw_readyState (h : handle) (rs : ReadyState) (st : Relay) : Relay :=
  set_env (λ e, with_gateways
    (alter (λ g, {| gw_kind := gw_kind g; gw_readyState := rs |}) h (gateways e)) e) st.

Definition gw_new (k : GatewayKind) : M handle := λ st,
  let h := nextGateway (env st) in
  Normal h
    (emit (GwNew h)
      (set_env (λ e, with_nextGateway (S h)
        (with_gateways (<[h := {| gw_kind := k; gw_readyState := CONNECTING |}]> (gateways e)) e))
        st)).

Definition gw_send (h : handle) (m : GatewayMsg) : M unit := λ st,
  match gw_readyState_of h st with
  | CONNECTING => Thrown NotOpenError st
  | _ => Normal () (emit (GwSend h m) st)
  end.

Definition gw_close (h : handle) (code : option Z) (reason : option string)
    (st : Relay) : Relay :=
  let st := emit (GwClose h code reason) st in
  match gw_readyState_of h st with
  | CLOSED => st
  | _ => set_gw_readyState h CLOSING st
  end.

(** ** pty.ts *)

Definition getLocalSize (st : Relay) : Z * Z :=
  (localCols (pty st), localRows (pty st)).

Definition writeToPTY (data : string) (st : Relay) : Relay :=
  match ptyProcess (pty st) with
  | Some _ => emit (PtyWrite data) st
  | None => st
  end.

Definition resizePTY (c r : Z) (st : Relay) : Relay :=
  match ptyProcess (pty st) with
  | Some _ =>
      emit (PtyResize c r)
        (set_pty (with_ptyProcess (Some {| pty_cols := c; pty_rows := r |})) st)
  | None => st
  end.

(** The raw-mode switch of the local console is not part of the state. *)
Definition killPTY (st : Relay) : Relay :=
  match ptyProcess (pty st) with
  | Some _ => set_pty (with_ptyProcess None) (emit PtyKill st)
  | None => st
  end.

Definition onPTYData (callback : DataCallback) (st : Relay) : Relay :=
  set_pty (with_dataCallback (Some callback)) st.

Definition onPTYExit (callback : ExitCallback) (st : Relay) : Relay :=
  set_pty (with_exitCallback (Some callback)) st.

Definition isPTYRunning (st : Relay) : bool :=
  match ptyProcess (pty st) with Some _ => true | None => false end.

(** [a || b || 80] on numbers. *)
Definition or_num (a : option Z) (b : Z) : Z :=
  match a with
  | Some n => if n =? 0 then b else n
  | None => b
  end.

(** [spawnPTY(options)], given [process.stdout.columns] and [.rows]. *)
Definition spawnPTY (options_cols options_rows stdout_columns stdout_rows : option Z)
    (st : Relay) : Relay :=
  let c := or_num options_cols (or_num stdout_columns 80) in
  let r := or_num options_rows (or_num stdout_rows 24) in
  set_pty (λ m, with_ptyProcess (Some {| pty_cols := c; pty_rows := r |})
                  (with_local c r m)) st.

(** The ['data'] listener on [process.stdin]. *)
Definition stdin_onData (data : string) (st : Relay) : Relay :=
  match ptyProcess (pty st) with
  | Some _ => emit (PtyWrite data) st
  | None => st
  end.

(** ** relay.ts: the size policy of the HTTP relay

    [webCols] and [webRows] are assigned only by the polling loop of
    [startRelay], which nothing starts; they keep their initial value. *)
Definition webCols : Z := 0.
Definition webRows : Z := 0.

Definition relay_applyMinSize (st : Relay) : Relay :=
  let '(lc, lr) := getLocalSize st in
  if (webCols =? 0) || (webRows =? 0) then st
  else
    let minCols := Z.min lc webCols in
    let minRows := Z.min lr webRows in
    if (0 <? minCols) && (0 <? minRows) then resizePTY minCols minRows st
    else st.

Definition onLocalResize (st : Relay) : Relay := relay_applyMinSize st.

(** The ['resize'] listener on [process.stdout]. *)
Definition stdout_onResize (columns rows_ : option Z) (st : Relay) : Relay :=
  if truthy_num columns && truthy_num rows_ then
    onLocalResize (set_pty (with_local (default 0 columns) (default 0 rows_)) st)
  else st.

(** ** web-server.ts: registry and size reconciler *)

Definition MAX_BUFFER_SIZE : Z := 5000.

(** [connectedClients.set(ws, info)]: a new key goes last, an old key
    keeps its place. *)
Definition Map_set (ws : sock) (info : ClientInfo) (w : WebServer) : WebServer :=
  with_clientInfos (<[ws := info]> (clientInfos w))
    (with_connectedClients
       (if bool_decide (ws ∈ connectedClients w) then connectedClients w
        else connectedClients w ++ [ws]) w).

(** [connectedClients.get(ws)] *)
Definition Map_get (ws : sock) (w : WebServer) : option ClientInfo :=
  if bool_decide (ws ∈ connectedClients w) then Some (clientInfos w ws) else None.

(** [connectedClients.delete(ws)]: the entry goes, the object stays. *)
Definition Map_delete (ws : sock) (w : WebServer) : WebServer :=
  with_connectedClients (filter (λ k, k ≠ ws) (connectedClients w)) w.

(** The values of the map, in iteration order. *)
Definition Map_values (w : WebServer) : list ClientInfo :=
  map (clientInfos w) (connectedClients w).

Definition Map_size (w : WebServer) : nat := length (connectedClients w).

Definition generateClientId (now : Z) : M (Z * nat) := λ st,
  let n := S (clientIdCounter (web st)) in
  Normal (now, n) (set_web (with_clientIdCounter n) st).

Definition calculateMinSize (st : Relay) : Z * Z :=
  foldl (λ '(minCols, minRows) clientInfo,
           if (0 <? cols clientInfo) && (0 <? rows clientInfo)
           then (Z.min minCols (cols clientInfo), Z.min minRows (rows clientInfo))
           else (minCols, minRows))
        (getLocalSize st) (Map_values (web st)).

Definition applyMinSize (st : Relay) : Relay :=
  if bool_decide (Map_size (web st) = 0%nat) then
    let '(lc, lr) := getLocalSize st in
    resizePTY lc lr st
  else
    let '(c, r) := calculateMinSize st in
    if (0 <? c) && (0 <? r) then resizePTY c r st else st.

(** ** web-server.ts: broadcaster and history buffer *)

(** [buf.slice(-k)] *)
Definition slice_last (k : Z) (buf : list string) : list string :=
  drop (Z.to_nat (Z.of_nat (length buf) - k)) buf.

(** The buffer update at the head of the data callback. *)
Definition push_output (data : string) (buf : list string) : list string :=
  let buf := buf ++ [data] in
  if MAX_BUFFER_SIZE <? Z.of_nat (length buf) then slice_last 3000 buf else buf.

(** [connectedClients.forEach((info, client) => { if open, send })] *)
Definition broadcast (m : ServerMsg) (st : Relay) : Relay :=
  foldl (λ st client,
           if is_open (readyState client st) then ws_send client m st else st)
        st (connectedClients (web st)).

(** The callback given to [onPTYData]. *)
Definition on_data_broadcast (data : string) (st : Relay) : Relay :=
  broadcast (output data)
    (set_web (λ w, with_outputBuffer (push_output data (outputBuffer w)) w) st).

(** The callback given to [onPTYExit]. *)
Definition on_exit_broadcast (code : Z) (st : Relay) : Relay :=
  broadcast (exit code) st.

(** [stopWebServer]: [wss.clients] holds the sockets the server has not
    seen closed. *)
Definition stopWebServer (st : Relay) : Relay :=
  let live := filter (λ kv, kv.2 ≠ CLOSED) (map_to_list (clientSockets (env st))) in
  let st := foldl (λ st kv,
                     set_env (λ e, with_clientSockets
                                     (<[kv.1 := CLOSING]> (clientSockets e)) e)
                             (emit (WsClose kv.1) st))
                  st live in
  set_web (λ w, with_clientIdCounter 0
                  (with_outputBuffer [] (with_connectedClients [] w))) st.

(** ** web-server.ts: the connection handler *)

(** The [clientInfo] variable the closures of connection [ws] share. *)
Definition clientInfo_of (ws : sock) (st : Relay) : ClientInfo :=
  clientInfos (web st) ws.

Definition update_clientInfo (ws : sock) (f : ClientInfo → ClientInfo)
    (st : Relay) : Relay :=
  set_web (λ w, with_clientInfos (<[ws := f (clientInfos w ws)]> (clientInfos w)) w) st.

Definition setTimeout (t : Timer) (delay : Z) (st : Relay) : Relay :=
  emit (SetTimeout delay t) (set_env (λ e, with_timers (timers e ++ [t]) e) st).

(** [wss.on('connection', (ws) => ...)] up to the registration of the
    socket's listeners. *)
Definition on_connection (ws : sock) (now : Z) : M unit :=
  clientId ← generateClientId now;
  let clientInfo :=
    {| cols := 80; rows := 24; id := clientId; asrWs := None;
       sessionReady := false; audioChunkCount := 0%nat; terminalContext := "" |} in
  modify (set_web (Map_set ws clientInfo));;
  st ← get;
  when (bool_decide (0 < length (outputBuffer (web st)))%nat)
       (modify (ws_send ws (history (outputBuffer (web st))))).

(** ** web-server.ts: the ASR gateway bridge *)

(** Listeners of the socket made by [asr_start]. *)
Definition asr_on_open (ws : sock) (language model : option string) : M unit :=
  st ← get;
  match asrWs (clientInfo_of ws st) with
  | None => throw TypeError
  | Some h =>
      gw_send h (start_asr (or_str language "zh")
                           (or_str model "qwen3-asr-flash-realtime"));;
      st ← get;
      let ctx := terminalContext (clientInfo_of ws st) in
      when (negb (String.eqb ctx ""))
        (match asrWs (clientInfo_of ws st) with
         | None => throw TypeError
         | Some h => gw_send h (context_update ctx)
         end)
  end.

Definition gateway_parse (raw : RawGatewayMsg) : M GatewayResponse :=
  match raw with
  | GwNotJSON => throw SyntaxError
  | GwJSONNull => throw TypeError
  | GwParsed response => mret response
  end.

Definition asr_on_message (ws : sock) (raw : RawGatewayMsg) : M unit :=
  response ← gateway_parse raw;
  let t := resp_type response in
  if type_is t "connected" then mret ()
  else if type_is t "asr_connected" then
    modify (update_clientInfo ws (with_sessionReady true));;
    modify (ws_send ws (asr_response asr_ready))
  else if type_is t "asr_disconnected" then
    modify (update_clientInfo ws (with_sessionReady false))
  else if type_is t "partial_result" then
    modify (ws_send ws (asr_response (asr_partial (resp_text response))))
  else if type_is t "final_result" then
    modify (ws_send ws (asr_response (asr_completed (resp_text response))))
  else if type_is t "correction_result" then
    modify (ws_send ws (asr_response
              (asr_correction_result (resp_original response) (resp_corrected response))))
  else if type_is t "error" then
    modify (ws_send ws (asr_response (asr_error (resp_message response))))
  else if type_is t "pong" then mret ()
  else modify (ws_send ws (asr_response (asr_forwarded response))).

Definition asr_on_error (ws : sock) (message : option string) : M unit :=
  modify (ws_send ws (asr_response
            (asr_error (Some (or_str message "Gateway connection error"))))).

Definition asr_on_close (ws : sock) : M unit :=
  modify (update_clientInfo ws (λ ci, with_sessionReady false (with_asrWs None ci))).

(** Listeners of the short-lived socket made by [claude_process]. *)
Definition correction_on_open (h : handle) (transcript context : option string) : M unit :=
  gw_send h (correct_text transcript context).

Definition correction_on_message (h : handle) (ws : sock) (raw : RawGatewayMsg) : M unit :=
  response ← gateway_parse raw;
  when (type_is (resp_type response) "correction_result")
    (modify (ws_send ws (claude_response (resp_corrected response) (Some true) None None));;
     modify (gw_close h None None)).

Definition correction_on_error (ws : sock) (transcript message : option string) : M unit :=
  modify (ws_send ws (claude_response None None message transcript)).

(** ** web-server.ts: the message router *)

Definition JSON_parse (raw : RawMsg) : M (option Msg) :=
  match raw with
  | NotJSON => throw SyntaxError
  | JSONNull => mret None
  | Parsed msg => mret (Some msg)
  end.

(** The first read of a property of [msg]. *)
Definition deref (msg : option Msg) : M Msg :=
  match msg with
  | None => throw TypeError
  | Some msg => mret msg
  end.

Definition handle_asr_start (ws : sock) (msg : Msg) : M unit :=
  h ← gw_new (asrGateway ws (msg_language msg) (msg_model msg));
  modify (update_clientInfo ws (λ ci,
    with_terminalContext (or_str (msg_context msg) "")
      (with_audioChunkCount 0 (with_sessionReady false (with_asrWs (Some h) ci))))).

Definition handle_asr_audio (ws : sock) (msg : Msg) : M unit :=
  st ← get;
  match asrWs (clientInfo_of ws st) with
  | None => mret ()
  | Some h =>
      if is_open (gw_readyState_of h st) && sessionReady (clientInfo_of ws st) then
        when (bool_decide (audioChunkCount (clientInfo_of ws st) = 0%nat))
             (modify (update_clientInfo ws (with_audioChunkCount 0)));;
        gw_send h (audio_data (msg_audio msg));;
        modify (update_clientInfo ws (λ ci, with_audioChunkCount (S (audioChunkCount ci)) ci))
      else mret ()
  end.

Definition handle_asr_stop (ws : sock) : M unit :=
  st ← get;
  match asrWs (clientInfo_of ws st) with
  | None => mret ()
  | Some h =>
      if is_open (gw_readyState_of h st) then
        gw_send h stop_asr;;
        modify (setTimeout (closeAsrAfterStop ws) 1000)
      else
        modify (update_clientInfo ws (λ ci, with_audioChunkCount 0 (with_asrWs None ci)))
  end.

(** The timer callback of [asr_stop]. *)
Definition close_asr_after_stop (ws : sock) : M unit :=
  st ← get;
  match asrWs (clientInfo_of ws st) with
  | None => mret ()
  | Some h =>
      modify (gw_close h (Some 1000) (Some "Recording stopped normally"));;
      modify (update_clientInfo ws (λ ci, with_audioChunkCount 0 (with_asrWs None ci)))
  end.

Definition handle_claude_process (ws : sock) (msg : Msg) : M unit :=
  st ← get;
  let ci := clientInfo_of ws st in
  match asrWs ci with
  | Some h =>
      if is_open (gw_readyState_of h st) then
        gw_send h (correct_text (msg_transcript msg)
                     (or_opt_str (msg_context msg) (Some (terminalContext ci))))
      else
        _ ← gw_new (correctionGateway ws (msg_transcript msg) (msg_context msg));
        mret ()
  | None =>
      _ ← gw_new (correctionGateway ws (msg_transcript msg) (msg_context msg));
      mret ()
  end.

Definition handle_resize (ws : sock) (msg : Msg) : M unit :=
  st ← get;
  match Map_get ws (web st) with
  | Some _ =>
      modify (update_clientInfo ws
                (with_size (default 0 (msg_cols msg)) (default 0 (msg_rows msg))))
  | None => mret ()
  end;;
  modify applyMinSize.

(** The body of the [try] block. *)
Definition on_message_body (ws : sock) (raw : RawMsg) : M unit :=
  parsed ← JSON_parse raw;
  msg ← deref parsed;
  let t := msg_type msg in
  when (type_is t "input" && truthy_str (msg_data msg))
       (modify (writeToPTY (default "" (msg_data msg))));;
  when (type_is t "asr_start") (handle_asr_start ws msg);;
  when (type_is t "asr_audio") (handle_asr_audio ws msg);;
  when (type_is t "asr_commit") (mret ());;
  when (type_is t "asr_stop") (handle_asr_stop ws);;
  when (type_is t "claude_process") (handle_claude_process ws msg);;
  when (type_is t "resize" && truthy_num (msg_cols msg) && truthy_num (msg_rows msg))
       (handle_resize ws msg).

(** [ws.on('message', async (data) => { try {...} catch (e) {...} })] *)
Definition on_message (ws : sock) (raw : RawMsg) : M unit :=
  try_catch (on_message_body ws raw)
            (λ _, modify (emit (ConsoleError "  [WebServer] Invalid message:"))).

(** [ws.on('close', ...)] *)
Definition on_close (ws : sock) : M unit :=
  st ← get;
  match Map_get ws (web st) with
  | None => mret ()
  | Some clientInfo =>
      match asrWs clientInfo with
      | Some h =>
          modify (gw_close h (Some 1001) (Some "Client disconnected"));;
          modify (update_clientInfo ws (with_asrWs None))
      | None => mret ()
      end;;
      modify (set_web (Map_delete ws));;
      modify applyMinSize
  end.

(** ** pty.ts: the listeners of the child process *)

Definition run_dataCallback (cb : DataCallback) (data : string) : M unit :=
  match cb with
  | broadcastOutput => modify (on_data_broadcast data)
  end.

(** session.ts: [cleanup], which the exit callback of [startSession] calls. *)
Definition cleanup : M unit :=
  modify killPTY;;
  modify stopWebServer;;
  modify (emit StopTunnel);;
  process_exit 0.

(** The two exit callbacks; the session's prints that the session ended
    and cleans up. *)
Definition run_exitCallback (cb : ExitCallback) (code : Z) : M unit :=
  match cb with
  | broadcastExit => modify (on_exit_broadcast code)
  | sessionEnded =>
      modify (emit (ConsoleLog "Session ended."));;
      cleanup
  end.

(** [ptyProcess.onData((data) => ...)] *)
Definition pty_onData (data : string) : M unit :=
  modify (emit (StdoutWrite data));;
  st ← get;
  match dataCallback (pty st) with
  | Some cb => run_dataCallback cb data
  | None => mret ()
  end.

(** [ptyProcess.onExit(({ exitCode }) => ...)] *)
Definition pty_onExit (exitCode : Z) : M unit :=
  st ← get;
  match exitCallback (pty st) with
  | Some cb => run_exitCallback cb exitCode
  | None => mret ()
  end;;
  modify (set_pty (with_ptyProcess None)).

(** ** Start-up *)

Definition init : Relay :=
  {| pty := {| ptyProcess := None; dataCallback := None; exitCallback := None;
               localCols := 80; localRows := 24 |};
     web := {| connectedClients := [];
               clientInfos := λ _, {| cols := 80; rows := 24; id := (0, 0%nat);
                                      asrWs := None; sessionReady := false;
                                      audioChunkCount := 0%nat;
                                      terminalContext := "" |};
               outputBuffer := []; clientIdCounter := 0%nat |};
     env := {| clientSockets := ∅; gateways := ∅; nextGateway := 0%nat; timers := [] |};
     trace := [] |}.

(** web-server.ts: what [startWebServer] registers with pty.ts. *)
Definition startWebServer (st : Relay) : Relay :=
  onPTYExit broadcastExit (onPTYData broadcastOutput st).

(** session.ts: [startSession], after the tunnel is up. *)
Definition startSession (stdout_columns stdout_rows : option Z) (st : Relay) : Relay :=
  onPTYExit sessionEnded
    (spawnPTY None None stdout_columns stdout_rows (startWebServer st)).

(** ** The event loop *)

Inductive Event :=
  | Connection (ws : sock) (now : Z)
  | Message (ws : sock) (raw : RawMsg)
  | Close (ws : sock)
  | SocketState (ws : sock) (rs : ReadyState)   (* the peer or the network moves a socket *)
  | GatewayOpen (h : handle)
  | GatewayMessage (h : handle) (raw : RawGatewayMsg)
  | GatewayError (h : handle) (message : option string)
  | GatewayClose (h : handle)
  | TimerFires (i : nat)
  | PtyData (data : string)
  | PtyExit (exitCode : Z)
  | StdoutResize (columns rows_ : option Z)
  | StdinData (data : string).

Definition set_readyState (ws : sock) (rs : ReadyState) (st : Relay) : Relay :=
  set_env (λ e, with_clientSockets (<[ws := rs]> (clientSockets e)) e) st.

Definition run_timer (t : Timer) : M unit :=
  match t with
  | closeAsrAfterStop ws => close_asr_after_stop ws
  end.

Definition step (ev : Event) : M unit :=
  match ev with
  | Connection ws now => modify (set_readyState ws OPEN);; on_connection ws now
  | Message ws raw => on_message ws raw
  | Close ws => modify (set_readyState ws CLOSED);; on_close ws
  | SocketState ws rs => modify (set_readyState ws rs)
  | GatewayOpen h =>
      st ← get;
      match gateways (env st) !! h with
      | None => mret ()
      | Some g =>
          modify (set_gw_readyState h OPEN);;
          match gw_kind g with
          | asrGateway ws language model => asr_on_open ws language model
          | correctionGateway ws transcript context =>
              correction_on_open h transcript context
          end
      end
  | GatewayMessage h raw =>
      st ← get;
      match gateways (env st) !! h with
      | None => mret ()
      | Some g =>
          match gw_kind g with
          | asrGateway ws _ _ => asr_on_message ws raw
          | correctionGateway ws _ _ => correction_on_message h ws raw
          end
      end
  | GatewayError h message =>
      st ← get;
      match gateways (env st) !! h with
      | None => mret ()
      | Some g =>
          match gw_kind g with
          | asrGateway ws _ _ => asr_on_error ws message
          | correctionGateway ws transcript _ => correction_on_error ws transcript message
          end
      end
  | GatewayClose h =>
      st ← get;
      match gateways (env st) !! h with
      | None => mret ()
      | Some g =>
          modify (set_gw_readyState h CLOSED);;
          match gw_kind g with
          | asrGateway ws _ _ => asr_on_close ws
          | correctionGateway _ _ _ => mret ()
          end
      end
  | TimerFires i =>
      st ← get;
      match timers (env st) !! i with
      | None => mret ()
      | Some t =>
          modify (set_env (λ e, with_timers (delete i (timers e)) e));;
          run_timer t
      end
  | PtyData data => pty_onData data
  | PtyExit exitCode => pty_onExit exitCode
  | StdoutResize columns rows_ => modify (stdout_onResize columns rows_)
  | StdinData data => modify (stdin_onData data)
  end.

(** Events are handled one after the other; an exception no handler
    catches, or [process.exit], ends the process. *)
Fixpoint run (evs : list Event) : M unit :=
  match evs with
  | [] => mret ()
  | ev :: evs => step ev;; run evs
  end.

(** ** Observations on a trace *)

(** The messages handed to [ws.send] of one client, in order. *)
Definition sent_to (ws : sock) (tr : list Effect) : list ServerMsg :=
  omap (λ e, match e with
             | WsSend ws' m => if bool_decide (ws' = ws) then Some m else None
             | _ => None
             end) tr.

(** What was written to the local terminal, in order. *)
Definition stdout_of (tr : list Effect) : list string :=
  omap (λ e, match e with StdoutWrite d => Some d | _ => None end) tr.

Definition is_history (m : ServerMsg) : bool :=
  match m with history _ => true | _ => false end.

(** Messages of the envelope, for the examples. *)
Definition typed_msg (t : string) : Msg :=
  {| msg_type := Some t; msg_data := None; msg_cols := None; msg_rows := None;
     msg_language := None; msg_model := None; msg_context := None;
     msg_audio := None; msg_transcript := None |}.

Definition resize_msg (c r : Z) : Msg :=
  {| msg_type := Some "resize"; msg_data := None;
     msg_cols := Some c; msg_rows := Some r;
     msg_language := None; msg_model := None; msg_context := None;
     msg_audio := None; msg_transcript := None |}.

Definition audio_msg (a : string) : Msg :=
  {| msg_type := Some "asr_audio"; msg_data := None; msg_cols := None; msg_rows := None;
     msg_language := None; msg_model := None; msg_context := None;
     msg_audio := Some a; msg_transcript := None |}.

Definition claude_msg (transcript : string) : Msg :=
  {| msg_type := Some "claude_process"; msg_data := None; msg_cols := None;
     msg_rows := None; msg_language := None; msg_model := None; msg_context := None;
     msg_audio := None; msg_transcript := Some transcript |}.

Definition gw_typed (t : string) : GatewayResponse :=
  {| resp_type := Some t; resp_text := None; resp_original := None;
     resp_corrected := None; resp_message := None |}.

(** ** web-server.ts: PIN authentication

    The login route and the middleware keep module variables of their
    own: the PIN, the failed attempts per address and the blocked
    addresses.  The callbacks of the pending unblock timers are kept as
    the addresses they close over. *)

Definition MAX_FAILED_ATTEMPTS : Z := 10.
Definition BLOCK_DURATION : Z := 60000.

(** The [pin] property of a request body. *)
Inductive JsValue :=
  | JsUndefined
  | JsString (s : string)
  | JsOther.                  (* null, a number, a boolean, an object *)

(** What the handlers read of an [express.Request]. *)
Record Request := {
  req_ip : option string;                      (* req.ip *)
  req_remoteAddress : option string;           (* req.connection.remoteAddress *)
  req_cookies : option (gmap string string);   (* req.cookies *)
  req_path : string;                           (* req.path *)
  req_body : option JsValue                    (* req.body, and its [pin] *)
}.

Inductive ResponseBody :=
  | success
  | error_blocked             (* 'IP blocked due to too many failed attempts' *)
  | error_format              (* 'PIN must be exactly 6 digits' *)
  | error_invalid (remaining : Z)
  | error_too_many (minutes : Z).

(** What a handler does with the response. *)
Inductive Response :=
  | Json (status : Z) (body : ResponseBody) (auth_cookie : option string)
  | RedirectTo (location : string)
  | LoginPage
  | Next                      (* next() *)
  | Throws (e : Exn).

Record Auth := {
  serverPIN : string;
  failedAttempts : gmap string Z;
  blockedIPs : gset string;
  unblockTimers : list string
}.

Definition with_failedAttempts (f : gmap string Z) (s : Auth) : Auth :=
  {| serverPIN := serverPIN s; failedAttempts := f;
     blockedIPs := blockedIPs s; unblockTimers := unblockTimers s |}.
Definition with_blockedIPs (b : gset string) (s : Auth) : Auth :=
  {| serverPIN := serverPIN s; failedAttempts := failedAttempts s;
     blockedIPs := b; unblockTimers := unblockTimers s |}.
Definition with_unblockTimers (t : list string) (s : Auth) : Auth :=
  {| serverPIN := serverPIN s; failedAttempts := failedAttempts s;
     blockedIPs := blockedIPs s; unblockTimers := t |}.

Definition getClientIP (req : Request) : string :=
  or_str (req_ip req) (or_str (req_remoteAddress req) "127.0.0.1").

Definition isIPBlocked (ip : string) (s : Auth) : bool :=
  bool_decide (ip ∈ blockedIPs s).

Definition isAuthenticated (req : Request) (s : Auth) : bool :=
  match req_cookies req with
  | Some cookies => bool_decide (cookies !! "auth" = Some (serverPIN s))
  | None => false
  end.

Definition requireAuth (req : Request) (s : Auth) : Response :=
  let clientIP := getClientIP req in
  if isIPBlocked clientIP s then Json 429 error_blocked None
  else if isAuthenticated req s then Next
  else if String.eqb (req_path req) "/login" || String.eqb (req_path req) "/api/login"
  then Next
  else RedirectTo "/login".

(** The callback of the unblock timer. *)
Definition unblock (clientIP : string) (s : Auth) : Auth :=
  with_failedAttempts (delete clientIP (failedAttempts s))
    (with_blockedIPs (blockedIPs s ∖ {[clientIP]}) s).

(** [app.post('/api/login', ...)] *)
Definition post_login (req : Request) (s : Auth) : Response * Auth :=
  match req_body req with
  | None => (Throws TypeError, s)
  | Some pin =>
      let clientIP := getClientIP req in
      if isIPBlocked clientIP s then (Json 429 error_blocked None, s)
      else
        match pin with
        | JsString pin =>
            if String.eqb pin "" || negb (Nat.eqb (String.length pin) 6)
            then (Json 400 error_format None, s)
            else if String.eqb pin (serverPIN s) then
              (Json 200 success (Some pin),
               with_failedAttempts (delete clientIP (failedAttempts s)) s)
            else
              let attempts := default 0 (failedAttempts s !! clientIP) + 1 in
              let s := with_failedAttempts (<[clientIP := attempts]> (failedAttempts s)) s in
              if MAX_FAILED_ATTEMPTS <=? attempts then
                (Json 429 (error_too_many (BLOCK_DURATION / 60000)) None,
                 with_unblockTimers (unblockTimers s ++ [clientIP])
                   (with_blockedIPs ({[clientIP]} ∪ blockedIPs s) s))
              else
                (Json 401 (error_invalid (MAX_FAILED_ATTEMPTS - attempts)) None, s)
        | _ => (Json 400 error_format None, s)
        end
  end.

(** What [startWebServer] does to the authentication state. *)
Definition startWebServer_auth (pin : option string) (s : Auth) : Auth :=
  {| serverPIN := or_str pin ""; failedAttempts := ∅; blockedIPs := ∅;
     unblockTimers := unblockTimers s |}.

Definition auth_init : Auth :=
  {| serverPIN := ""; failedAttempts := ∅; blockedIPs := ∅; unblockTimers := [] |}.

(** [if (serverPIN) app.use(requireAuth)]: what stands between a request
    and the routes that are registered after the login routes. *)
Definition guard (req : Request) (s : Auth) : Response :=
  if String.eqb (serverPIN s) "" then Next else requireAuth req s.

(** What changes the authentication state once the server runs: a login
    request, and the firing of a pending unblock timer. *)
Inductive AuthEvent :=
  | Login (req : Request)
  | UnblockFires (i : nat).

Definition auth_step (s : Auth) (ev : AuthEvent) : Auth :=
  match ev with
  | Login req => (post_login req s).2
  | UnblockFires i =>
      match unblockTimers s !! i with
      | Some clientIP => unblock clientIP (with_unblockTimers (delete i (unblockTimers s)) s)
      | None => s
      end
  end.

Definition auth_run (evs : list AuthEvent) (s : Auth) : Auth := foldl auth_step s evs.

(** ** session.ts: the PIN of the session *)

Definition is_digit (c : Ascii.ascii) : bool :=
  (48 <=? Ascii.nat_of_ascii c)%nat && (Ascii.nat_of_ascii c <=? 57)%nat.

(** [/^\d{6}$/.test(pin)] *)
Definition validatePIN (pin : string) : bool :=
  Nat.eqb (String.length pin) 6 && forallb is_digit (String.list_ascii_of_string pin).

(** The PIN [startSession] hands to [startWebServer]; [None] when it throws
    ['PIN must be exactly 6 digits']. *)
Definition session_pin (userPin : option string) : option string :=
  if truthy_str userPin then
    if validatePIN (default "" userPin) then userPin else None
  else Some "".

(** ** relay.ts: the HTTP relay

    [startRelay] batches the output of the PTY and posts it, and polls for
    input and for the size of the web client.  Its module variables are
    kept beside the state of pty.ts, on which its handlers act.  An
    [async] callback runs up to its first [await] when its timer fires;
    the rest of the polling callback runs when the response arrives.
    [process.env.DEBUG] is taken to be unset. *)
Module HttpRelay.

Record Vars := {
  isRunning : bool;
  pollInterval : bool;                 (* the interval is set *)
  flushTimer : bool;                   (* the interval is set *)
  outputBuffer : list string;
  webCols : Z;
  webRows : Z
}.

(** The bodies handed to [axios.post], in the order of the calls. *)
Inductive Post :=
  | post_output (data : string)
  | post_exit (code : Z).

Record State := {
  vars : Vars;
  posts : list Post;
  polls : nat;                         (* requests of the polling loop in flight *)
  process : Relay                      (* pty.ts and what is done to the PTY *)
}.

Definition set_vars (f : Vars → Vars) (s : State) : State :=
  {| vars := f (vars s); posts := posts s; polls := polls s; process := process s |}.
Definition set_process (f : Relay → Relay) (s : State) : State :=
  {| vars := vars s; posts := posts s; polls := polls s; process := f (process s) |}.
Definition set_polls (n : nat) (s : State) : State :=
  {| vars := vars s; posts := posts s; polls := n; process := process s |}.
Definition post (p : Post) (s : State) : State :=
  {| vars := vars s; posts := posts s ++ [p]; polls := polls s; process := process s |}.

Definition with_outputBuffer (b : list string) (v : Vars) : Vars :=
  {| isRunning := isRunning v; pollInterval := pollInterval v;
     flushTimer := flushTimer v; outputBuffer := b;
     webCols := webCols v; webRows := webRows v |}.
Definition with_webSize (c r : Z) (v : Vars) : Vars :=
  {| isRunning := isRunning v; pollInterval := pollInterval v;
     flushTimer := flushTimer v; outputBuffer := outputBuffer v;
     webCols := c; webRows := r |}.

Definition init (p : Relay) : State :=
  {| vars := {| isRunning := false; pollInterval := false; flushTimer := false;
                outputBuffer := []; webCols := 0; webRows := 0 |};
     posts := []; polls := 0; process := p |}.

Definition applyMinSize (s : State) : State :=
  let '(lc, lr) := getLocalSize (process s) in
  if (webCols (vars s) =? 0) || (webRows (vars s) =? 0) then s
  else
    let minCols := Z.min lc (webCols (vars s)) in
    let minRows := Z.min lr (webRows (vars s)) in
    if (0 <? minCols) && (0 <? minRows)
    then set_process (resizePTY minCols minRows) s
    else s.

Definition startRelay (s : State) : State :=
  set_vars (λ v, {| isRunning := true; pollInterval := true; flushTimer := true;
                    outputBuffer := outputBuffer v;
                    webCols := webCols v; webRows := webRows v |}) s.

Definition stopRelay (s : State) : State :=
  set_vars (λ _, {| isRunning := false; pollInterval := false; flushTimer := false;
                    outputBuffer := []; webCols := 0; webRows := 0 |}) s.

(** The callback given to [onPTYData]. *)
Definition on_data (data : string) (s : State) : State :=
  set_vars (λ v, with_outputBuffer (outputBuffer v ++ [data]) v) s.

(** The callback given to [onPTYExit]. *)
Definition on_exit (code : Z) (s : State) : State := post (post_exit code) s.

(** The callback of the flush interval. *)
Definition flush (s : State) : State :=
  if bool_decide (length (outputBuffer (vars s)) = 0%nat) then s
  else post (post_output (String.concat "" (outputBuffer (vars s))))
            (set_vars (with_outputBuffer []) s).

(** The callback of the poll interval, up to the request. *)
Definition poll (s : State) : State :=
  if isRunning (vars s) then set_polls (S (polls s)) s else s.

(** The rest of it, on the response [{ inputs, resize }]; [inputs] is
    [None] unless it is an array. *)
Definition poll_response (resize : option (option Z * option Z))
    (inputs : option (list string)) (s : State) : State :=
  let s :=
    match resize with
    | Some (c, r) =>
        if truthy_num c && truthy_num r
        then applyMinSize (set_vars (with_webSize (default 0 c) (default 0 r)) s)
        else s
    | None => s
    end in
  match inputs with
  | Some inputs => set_process (λ p, foldl (λ p input, writeToPTY input p) p inputs) s
  | None => s
  end.

Definition onLocalResize (s : State) : State := applyMinSize s.

(** The events of a relay that has been started and whose PTY has been
    spawned: [stopRelay] leaves the callbacks registered. *)
Inductive Event :=
  | Data (data : string)
  | Exit (code : Z)
  | FlushTick
  | PollTick
  | PollResponse (resize : option (option Z * option Z)) (inputs : option (list string))
  | PollFailure
  | LocalResize (columns rows_ : option Z)
  | Stop.

Definition step (s : State) (ev : Event) : State :=
  match ev with
  | Data data => on_data data (set_process (emit (StdoutWrite data)) s)
  | Exit code => set_process (set_pty (with_ptyProcess None)) (on_exit code s)
  | FlushTick => if flushTimer (vars s) then flush s else s
  | PollTick => if pollInterval (vars s) then poll s else s
  | PollResponse resize inputs =>
      match polls s with
      | S n => poll_response resize inputs (set_polls n s)
      | O => s
      end
  | PollFailure => set_polls (pred (polls s)) s
  | LocalResize columns rows_ =>
      if truthy_num columns && truthy_num rows_ then
        onLocalResize
          (set_process (set_pty (with_local (default 0 columns) (default 0 rows_))) s)
      else s
  | Stop => stopRelay s
  end.

Definition run (evs : list Event) (s : State) : State := foldl step s evs.

End HttpRelay.


(** * Vocabulary of the properties *)

(** The state a handler ends in, whatever its outcome, is related by [R]
    to the state it started from. *)
Definition preserves (R : relation Relay) {A} (m : M A) : Prop :=
  ∀ st, R st (final (m st)).

(** Handlers that neither throw past their caller nor end the process. *)
Definition total {A} (m : M A) : Prop := ∀ st, returns (m st) = true.

(** A handler that may throw but never ends the process. *)
Definition stays_alive {A} (m : M A) : Prop :=
  ∀ st, match m st with Exited _ _ => False | _ => True end.

(** The trace only grows, and by effects that satisfy [P]. *)
Definition emits (P : Effect → Prop) : relation Relay :=
  λ st st', ∃ l, trace st' = trace st ++ l ∧ Forall P l.

(** A [history] message for socket [ws]. *)
Definition history_to (ws : sock) (e : Effect) : bool :=
  match e with
  | WsSend ws' (history _) => bool_decide (ws' = ws)
  | _ => false
  end.

Definition no_history_to (ws : sock) (e : Effect) : Prop := history_to ws e = false.

(** The effects a run added to the trace it started with. *)
Definition since (st0 st : Relay) : list Effect :=
  drop (length (trace st0)) (trace st).

(** The claim of the replay: among the messages [msgs] a client was sent
    since it connected there is exactly one [history], it carries the
    buffer [buf] of the moment of connection, and it comes before every
    [output]. *)
Definition history_replayed (buf : list string) (msgs : list ServerMsg) : Prop :=
  filter (λ m, is_history m = true) msgs = [history buf] ∧
  ∀ i d, msgs !! i = Some (output d) →
         ∃ j, (j < i)%nat ∧ msgs !! j = Some (history buf).

(** The messages connection [ws] is sent from its connection on. *)
Definition replay_of (st : Relay) (ws : sock) (now : Z) (evs : list Event) :
    list ServerMsg :=
  sent_to ws (since st (final (run (Connection ws now :: evs) st))).

(** A session that has produced two chunks before anybody connects. *)
Definition two_chunks : Relay :=
  final (run [PtyData "a"; PtyData "b"] (startSession None None init)).

(** The buffer after a series of chunks. *)
Definition pushes (buf : list string) (chunks : list string) : list string :=
  foldl (λ buf data, push_output data buf) buf chunks.

(** Only the data callback and [stopWebServer] assign [outputBuffer]. *)
Definition keeps_buffer : relation Relay :=
  λ st st', outputBuffer (web st') = outputBuffer (web st).

(** The bound on the history buffer. *)
Definition buffer_bounded (st : Relay) : Prop :=
  Z.of_nat (length (outputBuffer (web st))) ≤ MAX_BUFFER_SIZE.

(** [m] is the minimum of the list [l]. *)
Definition is_min (m : Z) (l : list Z) : Prop :=
  m ∈ l ∧ ∀ x, x ∈ l → m ≤ x.

(** A client counts when both stored dimensions are positive. *)
Definition reported (ci : ClientInfo) : Prop := 0 < cols ci ∧ 0 < rows ci.

(** The example of the specification: a local terminal of 120x40, client
    A at 80x24 and client B at 100x30 give 80x24. *)
Definition two_clients : Relay :=
  final (run [Connection 0%nat 1; Connection 1%nat 2;
              Message 1%nat (Parsed (resize_msg 100 30))]
             (startSession (Some 120) (Some 40) init)).

(** The session of a client is ready when its gateway socket is open and
    the gateway has confirmed ([asr_connected]). *)
Definition asr_ready_for (ws : sock) (st : Relay) : bool :=
  match asrWs (clientInfo_of ws st) with
  | Some h => is_open (gw_readyState_of h st) && sessionReady (clientInfo_of ws st)
  | None => false
  end.

(** A client whose transcription session is ready, and one whose gateway
    socket is still connecting. *)
Definition ready_session : Relay :=
  final (run [Connection 0%nat 1; Message 0%nat (Parsed (typed_msg "asr_start"));
              GatewayOpen 0%nat;
              GatewayMessage 0%nat (GwParsed (gw_typed "asr_connected"))]
             (startSession None None init)).

Definition connecting_session : Relay :=
  final (run [Connection 0%nat 1; Message 0%nat (Parsed (typed_msg "asr_start"))]
             (startSession None None init)).


(** The discriminants the router tests for. *)
Definition known_types : list string :=
  ["input"; "asr_start"; "asr_audio"; "asr_commit"; "asr_stop";
   "claude_process"; "resize"].

(** The discriminant of the message, if it has one, is none of them. *)
Definition unknown_type (msg : Msg) : Prop :=
  ∀ t, msg_type msg = Some t → t ∉ known_types.

(** The client holds a gateway socket and that socket is open. *)
Definition asr_socket_open (ws : sock) (st : Relay) : bool :=
  match asrWs (clientInfo_of ws st) with
  | Some h => is_open (gw_readyState_of h st)
  | None => false
  end.



(** A client starts transcription, the gateway socket opens, and the
    client starts transcription again. *)
Definition started_twice : Relay :=
  final (run [Connection 0%nat 1;
              Message 0%nat (Parsed (typed_msg "asr_start"));
              GatewayOpen 0%nat;
              Message 0%nat (Parsed (typed_msg "asr_start"));
              GatewayOpen 1%nat]
             (startSession None None init)).

Definition closes_gateway (e : Effect) : bool :=
  match e with GwClose _ _ _ => true | _ => false end.

(** No handler assigns the exit callback. *)
Definition keeps_exitCallback : relation Relay :=
  λ st st', exitCallback (pty st') = exitCallback (pty st).

Definition sends_to_client (e : Effect) : bool :=
  match e with WsSend _ _ => true | _ => false end.

(** No handler assigns the data callback. *)
Definition keeps_dataCallback : relation Relay :=
  λ st st', dataCallback (pty st') = dataCallback (pty st).

(** The events whose handlers reconcile the sizes: the disconnect of a
    client and a [resize] message. *)
Definition may_reconcile (ev : Event) : bool :=
  match ev with
  | Close _ => true
  | Message _ (Parsed msg) => type_is (msg_type msg) "resize"
  | _ => false
  end.

Definition resizes_pty (e : Effect) : bool :=
  match e with PtyResize _ _ => true | _ => false end.

(** What a series of [input] messages writes to a running PTY. *)
Definition input_writes (msgs : list Msg) : list Effect :=
  omap (λ msg, if truthy_str (msg_data msg)
               then Some (PtyWrite (default "" (msg_data msg))) else None) msgs.

(** The router proper: what the [try] block does with a message that
    parsed to an object. *)
Definition dispatch (ws : sock) (msg : Msg) : M unit :=
  let t := msg_type msg in
  when (type_is t "input" && truthy_str (msg_data msg))
       (modify (writeToPTY (default "" (msg_data msg))));;
  when (type_is t "asr_start") (handle_asr_start ws msg);;
  when (type_is t "asr_audio") (handle_asr_audio ws msg);;
  when (type_is t "asr_commit") (mret ());;
  when (type_is t "asr_stop") (handle_asr_stop ws);;
  when (type_is t "claude_process") (handle_claude_process ws msg);;
  when (type_is t "resize" && truthy_num (msg_cols msg) && truthy_num (msg_rows msg))
       (handle_resize ws msg).

(** Both dimensions of the local terminal are positive. *)
Definition local_positive (st : Relay) : Prop :=
  0 < localCols (pty st) ∧ 0 < localRows (pty st).

(** A resize of the PTY asks for positive dimensions. *)
Definition positive_resize (e : Effect) : bool :=
  match e with
  | PtyResize c r => (0 <? c) && (0 <? r)
  | _ => true
  end.

(** A dimension [process.stdout] reports is absent or not negative. *)
Definition nonneg (n : option Z) : bool :=
  match n with
  | Some n => 0 <=? n
  | None => true
  end.

Definition terminal_nonneg (ev : Event) : bool :=
  match ev with
  | StdoutResize columns rows_ => nonneg columns && nonneg rows_
  | _ => true
  end.

(** From a positive local size a handler leaves a positive local size and
    asks the PTY for positive sizes only. *)
Definition safe_resizes : relation Relay :=
  λ st st', local_positive st →
            local_positive st' ∧ emits (λ e, positive_resize e = true) st st'.

(** The size reconciliation asks for, if it asks. *)
Definition requested_size (st : Relay) : option (Z * Z) :=
  if bool_decide (Map_size (web st) = 0%nat) then Some (getLocalSize st)
  else
    let '(c, r) := calculateMinSize st in
    if (0 <? c) && (0 <? r) then Some (c, r) else None.

(** The registered clients are distinct sockets whose ids carry distinct
    counter values, none above [clientIdCounter]. *)
Definition registry_ids_distinct (st : Relay) : Prop :=
  NoDup (connectedClients (web st)) ∧
  (∀ ws, ws ∈ connectedClients (web st) →
         ((id (clientInfo_of ws st)).2 ≤ clientIdCounter (web st))%nat) ∧
  (∀ ws ws', ws ∈ connectedClients (web st) → ws' ∈ connectedClients (web st) →
             (id (clientInfo_of ws st)).2 = (id (clientInfo_of ws' st)).2 → ws = ws').

(** A handler that registers nobody: the ids stay, the registry can only
    lose entries, and the counter changes only when the registry is
    emptied. *)
Definition keeps_ids : relation Relay :=
  λ st st',
    (∀ ws, id (clientInfo_of ws st') = id (clientInfo_of ws st)) ∧
    connectedClients (web st') `sublist_of` connectedClients (web st) ∧
    (connectedClients (web st') = []
     ∨ clientIdCounter (web st') = clientIdCounter (web st)).

(** The client whose connection created a gateway socket. *)
Definition gateway_owner (h : handle) (st : Relay) : option sock :=
  match gateways (env st) !! h with
  | Some g =>
      Some (match gw_kind g with
            | asrGateway ws _ _ | correctionGateway ws _ _ => ws
            end)
  | None => None
  end.

(** The clients an event may lead the relay to write to: the one that
    connects, the owner of the gateway socket that reports, and everybody
    for what the PTY produces. *)
Definition addressed (ev : Event) (st : Relay) (ws : sock) : bool :=
  match ev with
  | Connection ws' _ => bool_decide (ws' = ws)
  | GatewayMessage h _ | GatewayError h _ => bool_decide (gateway_owner h st = Some ws)
  | PtyData _ | PtyExit _ => true
  | _ => false
  end.

Definition not_sent_to (ws : sock) (e : Effect) : bool :=
  match e with
  | WsSend ws' _ => negb (bool_decide (ws' = ws))
  | _ => true
  end.

(** A gateway message that confirms readiness. *)
Definition confirms_ready (ev : Event) : bool :=
  match ev with
  | GatewayMessage _ (GwParsed response) => type_is (resp_type response) "asr_connected"
  | _ => false
  end.

(** A client that is not ready stays so. *)
Definition keeps_unready (ws : sock) : relation Relay :=
  λ st st', sessionReady (clientInfo_of ws st) = false →
            sessionReady (clientInfo_of ws st') = false.


(** The block list, the counts and the pending timers agree: an address
    is blocked exactly when its count stands at the maximum and exactly
    when a timer is pending for it; no count is outside 1..10 and no
    address has two timers. *)
Definition auth_consistent (s : Auth) : Prop :=
  (∀ ip, ip ∈ blockedIPs s ↔ failedAttempts s !! ip = Some MAX_FAILED_ATTEMPTS) ∧
  (∀ ip n, failedAttempts s !! ip = Some n → 1 ≤ n ≤ MAX_FAILED_ATTEMPTS) ∧
  (∀ ip, ip ∈ blockedIPs s ↔ ip ∈ unblockTimers s) ∧
  NoDup (unblockTimers s).

(** The request reaches the comparison [pin === serverPIN]. *)
Definition compared (req : Request) (s : Auth) : bool :=
  negb (isIPBlocked (getClientIP req) s) &&
  match req_body req with
  | Some (JsString pin) => negb (String.eqb pin "") && Nat.eqb (String.length pin) 6
  | _ => false
  end.

(** The number of requests from address [ip], in a series of login
    requests, that reach the comparison. *)
Fixpoint comparisons (ip : string) (reqs : list Request) (s : Auth) : nat :=
  match reqs with
  | [] => 0
  | req :: reqs =>
      ((if compared req s && String.eqb (getClientIP req) ip then 1 else 0)
       + comparisons ip reqs (post_login req s).2)%nat
  end.

(** The request does not carry the PIN of the server. *)
Definition wrong_pin (s : Auth) (req : Request) : Prop :=
  req_body req ≠ Some (JsString (serverPIN s)).

(** A login request and a later request that presents a cookie. *)
Definition login_request (ip pin : string) : Request :=
  {| req_ip := Some ip; req_remoteAddress := None; req_cookies := Some ∅;
     req_path := "/api/login"; req_body := Some (JsString pin) |}.

Definition cookie_request (ip path : string) (auth : option string) : Request :=
  {| req_ip := Some ip; req_remoteAddress := None;
     req_cookies := Some (match auth with
                          | Some c => {[ "auth" := c ]}
                          | None => ∅
                          end);
     req_path := path; req_body := None |}.

(** The [auth] cookie of a request, if it carries one. *)
Definition auth_cookie_of (req : Request) : option string :=
  cookies ← req_cookies req; cookies !! "auth".

(** The paths the middleware lets pass without a cookie. *)
Definition login_path (req : Request) : bool :=
  String.eqb (req_path req) "/login" || String.eqb (req_path req) "/api/login".

(** The output the relay has posted, and the output the PTY has produced. *)
Definition posted_output (posts : list HttpRelay.Post) : list string :=
  omap (λ p, match p with HttpRelay.post_output d => Some d | _ => None end) posts.

Definition produced (evs : list HttpRelay.Event) : list string :=
  omap (λ ev, match ev with HttpRelay.Data d => Some d | _ => None end) evs.

Definition is_stop (ev : HttpRelay.Event) : bool :=
  match ev with HttpRelay.Stop => true | _ => false end.

(** The relay and the web server see the same single client. *)
Definition same_client (ws : sock) (s : HttpRelay.State) : Prop :=
  connectedClients (web (HttpRelay.process s)) = [ws] ∧
  cols (clientInfo_of ws (HttpRelay.process s)) = HttpRelay.webCols (HttpRelay.vars s) ∧
  rows (clientInfo_of ws (HttpRelay.process s)) = HttpRelay.webRows (HttpRelay.vars s).

(** A relay that has polled the size 100x30 of the client of a session
    whose local terminal is 120x40. *)
Definition relay_with_client : HttpRelay.State :=
  HttpRelay.set_vars (HttpRelay.with_webSize 100 30)
    (HttpRelay.startRelay
       (HttpRelay.init
          (final (run [Connection 0%nat 1; Message 0%nat (Parsed (resize_msg 100 30))]
                      (startSession (Some 120) (Some 40) init))))).

(** * Properties *)

(** ** Reasoning about handlers

    For a preorder the combinators of the monad preserve the relation, so
    that a handler is covered by covering its steps. *)

Section Frame.
Context (R : relation Relay) `{!PreOrder R}.

Lemma preserves_ret {A} (a : A) : preserves R (mret a).
Proof. intros st. simpl. reflexivity. Qed.

Lemma preserves_throw {A} (e : Exn) : preserves R (throw (A:=A) e).
Proof. intros st. simpl. reflexivity. Qed.

Lemma preserves_get : preserves R get.
Proof. intros st. simpl. reflexivity. Qed.

Lemma preserves_modify (f : Relay → Relay) :
  (∀ st, R st (f st)) → preserves R (modify f).
Proof. intros Hf st. simpl. apply Hf. Qed.

Lemma preserves_bind {A B} (m : M A) (k : A → M B) :
  preserves R m → (∀ a, preserves R (k a)) → preserves R (m ≫= k).
Proof.
  intros Hm Hk st. unfold mbind, M_bind.
  specialize (Hm st). destruct (m st) as [a st'|e st'|c st']; simpl in *.
  - etrans; [exact Hm | apply Hk].
  - exact Hm.
  - exact Hm.
Qed.

Lemma preserves_when (b : bool) (m : M unit) :
  preserves R m → preserves R (when b m).
Proof. intros Hm. destruct b; simpl; [exact Hm | apply preserves_ret]. Qed.

Lemma preserves_try_catch (body : M unit) (handler : Exn → M unit) :
  preserves R body → (∀ e, preserves R (handler e)) → preserves R (try_catch body handler).
Proof.
  intros Hb Hh st. unfold try_catch.
  specialize (Hb st). destruct (body st) as [a st'|e st'|c st']; simpl in *.
  - exact Hb.
  - etrans; [exact Hb | apply Hh].
  - exact Hb.
Qed.

Lemma preserves_gw_send h m :
  (∀ st, R st (emit (GwSend h m) st)) → preserves R (gw_send h m).
Proof.
  intros Hf st. unfold gw_send.
  destruct (gw_readyState_of h st); simpl; first [reflexivity | apply Hf].
Qed.

Lemma preserves_foldl {X} (f : Relay → X → Relay) (l : list X) :
  (∀ st x, R st (f st x)) → ∀ st, R st (foldl f st l).
Proof.
  intros Hf. induction l as [|x l IH]; intros st; simpl.
  - reflexivity.
  - etrans; [apply Hf | apply IH].
Qed.
End Frame.

Lemma alive_throw {A} e : stays_alive (throw (A:=A) e).
Proof. intros st. exact I. Qed.

Lemma alive_bind {A B} (m : M A) (k : A → M B) :
  stays_alive m → (∀ a, stays_alive (k a)) → stays_alive (m ≫= k).
Proof.
  intros Hm Hk st. unfold mbind, M_bind. specialize (Hm st).
  destruct (m st); simpl in *; try done. apply Hk.
Qed.

Lemma alive_when b (m : M unit) : stays_alive m → stays_alive (when b m).
Proof. intros Hm. destruct b; simpl; [exact Hm | intros st; exact I]. Qed.

Lemma try_catch_total (body : M unit) (handler : Exn → M unit) :
  stays_alive body → (∀ e, total (handler e)) → total (try_catch body handler).
Proof.
  intros Hb Hh st. unfold try_catch. specialize (Hb st).
  destruct (body st); simpl in *; try done. apply Hh.
Qed.

Global Instance emits_preorder P : PreOrder (emits P).
Proof.
  split.
  - intros st. exists []. by rewrite app_nil_r.
  - intros a b c [l1 [H1 F1]] [l2 [H2 F2]]. exists (l1 ++ l2). split.
    + by rewrite H2, H1, <- app_assoc.
    + by apply Forall_app.
Qed.

Lemma emits_emit (P : Effect → Prop) e st : P e → emits P st (emit e st).
Proof. intros He. exists [e]. split; [done | by repeat constructor]. Qed.

Lemma emits_same_trace (P : Effect → Prop) st st' :
  trace st' = trace st → emits P st st'.
Proof. intros H. exists []. split; [by rewrite app_nil_r | constructor]. Qed.

(** What each function of the sources adds to the trace. *)
Section Emits.
Context (P : Effect → Prop).

Lemma emits_set_pty f st : emits P st (set_pty f st).
Proof. by apply emits_same_trace. Qed.

Lemma emits_set_web f st : emits P st (set_web f st).
Proof. by apply emits_same_trace. Qed.

Lemma emits_set_env f st : emits P st (set_env f st).
Proof. by apply emits_same_trace. Qed.

Lemma emits_update_clientInfo ws f st : emits P st (update_clientInfo ws f st).
Proof. by apply emits_same_trace. Qed.

Lemma emits_set_readyState ws rs st : emits P st (set_readyState ws rs st).
Proof. by apply emits_same_trace. Qed.

Lemma emits_set_gw_readyState h rs st : emits P st (set_gw_readyState h rs st).
Proof. by apply emits_same_trace. Qed.

Lemma emits_ws_send ws m st : P (WsSend ws m) → emits P st (ws_send ws m st).
Proof. apply emits_emit. Qed.

Lemma emits_writeToPTY data st : P (PtyWrite data) → emits P st (writeToPTY data st).
Proof.
  intros HP. unfold writeToPTY. destruct (ptyProcess (pty st)).
  - by apply emits_emit.
  - reflexivity.
Qed.

Lemma emits_resizePTY c r st : P (PtyResize c r) → emits P st (resizePTY c r st).
Proof.
  intros HP. unfold resizePTY. destruct (ptyProcess (pty st)).
  - etrans; [apply emits_set_pty | by apply emits_emit].
  - reflexivity.
Qed.

Lemma emits_killPTY st : P PtyKill → emits P st (killPTY st).
Proof.
  intros HP. unfold killPTY. destruct (ptyProcess (pty st)).
  - etrans; [by apply emits_emit | apply emits_set_pty].
  - reflexivity.
Qed.

Lemma emits_applyMinSize st :
  (∀ c r, P (PtyResize c r)) → emits P st (applyMinSize st).
Proof.
  intros HP. unfold applyMinSize. case_bool_decide.
  - destruct (getLocalSize st). by apply emits_resizePTY.
  - destruct (calculateMinSize st) as [c r].
    destruct (_ && _); [by apply emits_resizePTY | reflexivity].
Qed.

Lemma emits_stdout_onResize columns rows_ st :
  (∀ c r, P (PtyResize c r)) → emits P st (stdout_onResize columns rows_ st).
Proof.
  intros HP. unfold stdout_onResize, onLocalResize, relay_applyMinSize.
  destruct (_ && _); [| reflexivity].
  destruct (getLocalSize _). destruct (_ || _).
  - apply emits_set_pty.
  - destruct (_ && _).
    + etrans; [apply emits_set_pty | by apply emits_resizePTY].
    + apply emits_set_pty.
Qed.

Lemma emits_broadcast m st : (∀ ws, P (WsSend ws m)) → emits P st (broadcast m st).
Proof.
  intros HP. unfold broadcast. apply preserves_foldl; [apply _ |].
  intros st' client. destruct (is_open _); [by apply emits_ws_send | reflexivity].
Qed.

Lemma emits_on_data_broadcast data st :
  (∀ ws, P (WsSend ws (output data))) → emits P st (on_data_broadcast data st).
Proof.
  intros HP. unfold on_data_broadcast.
  etrans; [apply emits_set_web | by apply emits_broadcast].
Qed.

Lemma emits_gw_close h code reason st :
  P (GwClose h code reason) → emits P st (gw_close h code reason st).
Proof.
  intros HP. unfold gw_close.
  destruct (gw_readyState_of h _);
    first [ by apply emits_emit
          | etrans; [by apply emits_emit | apply emits_set_gw_readyState] ].
Qed.

Lemma emits_setTimeout t delay st :
  P (SetTimeout delay t) → emits P st (setTimeout t delay st).
Proof.
  intros HP. unfold setTimeout. etrans; [apply emits_set_env | by apply emits_emit].
Qed.

Lemma emits_stopWebServer st : (∀ ws, P (WsClose ws)) → emits P st (stopWebServer st).
Proof.
  intros HP. unfold stopWebServer.
  etrans; [| apply emits_set_web].
  apply preserves_foldl; [apply _ |].
  intros st' kv. etrans; [by apply emits_emit | apply emits_set_env].
Qed.
End Emits.

(** Breaks a handler into its steps, and a step into the functions it
    composes; [leaf] covers one function applied to the state it starts
    from. *)
Ltac frame_with leaf :=
  repeat lazymatch goal with
  | |- PreOrder _ => apply _
  | |- preserves _ (mret _) => apply preserves_ret
  | |- preserves _ (throw _) => apply preserves_throw
  | |- preserves _ get => apply preserves_get
  | |- preserves _ (when _ _) => apply preserves_when; [apply _ |]
  | |- preserves _ (try_catch _ _) => apply preserves_try_catch; [apply _ | | intros ?]
  | |- preserves _ (_ ≫= _) => apply preserves_bind; [apply _ | | intros ?]
  | |- preserves _ (modify _) => apply preserves_modify; intros ?
  | |- preserves _ (gw_send _ _) => apply preserves_gw_send; [apply _ | intros ?]
  | |- preserves _ (gw_new _) => intros ?; simpl
  | |- preserves _ (generateClientId _) => intros ?; simpl
  | |- preserves _ (process_exit _) => intros ?; simpl
  | |- preserves _ (match ?x with _ => _ end) => destruct x
  | |- ?R ?a ?b =>
      lazymatch type of a with
      | Relay =>
          lazymatch b with
          | a => reflexivity
          | ?f a => leaf
          | ?f ?c => transitivity c
          end
      end
  end.

Ltac emits_leaf :=
  first
    [ apply emits_set_pty | apply emits_set_web | apply emits_set_env
    | apply emits_update_clientInfo | apply emits_set_readyState
    | apply emits_set_gw_readyState | apply emits_ws_send
    | apply emits_emit | apply emits_writeToPTY | apply emits_resizePTY
    | apply emits_killPTY | apply emits_applyMinSize; intros ? ?
    | apply emits_stdout_onResize; intros ? ?
    | apply emits_broadcast; intros ?
    | apply emits_on_data_broadcast; intros ?
    | apply emits_gw_close | apply emits_setTimeout
    | apply emits_stopWebServer; intros ? ].

Ltac frame := frame_with emits_leaf.

Lemma preserves_on_message ws ws' raw :
  preserves (emits (no_history_to ws)) (on_message ws' raw).
Proof.
  unfold on_message, on_message_body, JSON_parse, deref, handle_asr_start,
    handle_asr_audio, handle_asr_stop, handle_claude_process, handle_resize.
  frame; done.
Qed.

Lemma preserves_step ws ev :
  (∀ now, ev ≠ Connection ws now) →
  preserves (emits (no_history_to ws)) (step ev).
Proof.
  intros Hev. destruct ev; unfold step;
    try (apply preserves_on_message).
  - assert (ws0 ≠ ws) as Hne by (intros ->; by eapply Hev).
    unfold on_connection. frame; try done.
    unfold no_history_to; simpl. by apply bool_decide_eq_false.
  - unfold on_close. frame; done.
  - frame; done.
  - unfold asr_on_open, correction_on_open. frame; done.
  - unfold asr_on_message, correction_on_message, gateway_parse. frame; done.
  - unfold asr_on_error, correction_on_error. frame; done.
  - unfold asr_on_close. frame; done.
  - unfold run_timer, close_asr_after_stop. frame; done.
  - unfold pty_onData, run_dataCallback. frame; done.
  - unfold pty_onExit, run_exitCallback, cleanup, on_exit_broadcast. frame; done.
  - frame; done.
  - change stdin_onData with writeToPTY. frame; done.
Qed.

Lemma preserves_run ws evs :
  Forall (λ ev, ∀ now, ev ≠ Connection ws now) evs →
  preserves (emits (no_history_to ws)) (run evs).
Proof.
  induction 1 as [|ev evs Hev _ IH].
  - apply (preserves_ret _ ()).
  - change (run (ev :: evs)) with (step ev ≫= λ _, run evs).
    apply preserves_bind; [apply _ | by apply preserves_step | intros _; exact IH].
Qed.

Lemma since_app st0 st l : trace st = trace st0 ++ l → since st0 st = l.
Proof. intros H. unfold since. by rewrite H, drop_app_length. Qed.

Lemma sent_to_app ws l1 l2 : sent_to ws (l1 ++ l2) = sent_to ws l1 ++ sent_to ws l2.
Proof. unfold sent_to. apply omap_app. Qed.

Lemma sent_to_no_history ws l :
  Forall (no_history_to ws) l → Forall (λ m, is_history m = false) (sent_to ws l).
Proof.
  induction 1 as [|e l He _ IH]; simpl; [constructor |].
  destruct e as [| | | |ws' m| | | | | | | | |]; simpl; try exact IH.
  case_bool_decide as Hws; [| exact IH]. subst ws'.
  constructor; [| exact IH].
  destruct m; try reflexivity. unfold no_history_to in He. simpl in He.
  by rewrite bool_decide_eq_true_2 in He.
Qed.

(** What the connection handler does to the state and the trace. *)
Lemma step_connection ws now st :
  ∃ st1, step (Connection ws now) st = Normal () st1 ∧
         outputBuffer (web st1) = outputBuffer (web st) ∧
         trace st1 = trace st ++
           (if bool_decide (outputBuffer (web st) = [])
            then [] else [WsSend ws (history (outputBuffer (web st)))]).
Proof.
  unfold step, on_connection, mbind, M_bind, modify, generateClientId, get. simpl.
  destruct (outputBuffer (web st)) as [|d buf] eqn:Hbuf; simpl.
  - eexists. split; [reflexivity |]. simpl. rewrite Hbuf. split; [done |].
    by rewrite app_nil_r.
  - eexists. split; [reflexivity |]. simpl. by rewrite Hbuf.
Qed.

Lemma history_first_replayed buf rest :
  Forall (λ m, is_history m = false) rest →
  history_replayed buf (history buf :: rest).
Proof.
  intros Hrest. split.
  - rewrite filter_cons_True by done. f_equal.
    induction Hrest as [|m rest Hm _ IH]; [done |].
    rewrite filter_cons_False; [exact IH | by rewrite Hm].
  - intros [|i] d Hi; [discriminate |]. exists 0%nat. split; [lia | done].
Qed.

(** ** History replay on connection *)

Lemma replay_of_spec st ws now evs :
  Forall (λ ev, ∀ now', ev ≠ Connection ws now') evs →
  ∃ rest, Forall (λ m, is_history m = false) rest ∧
    replay_of st ws now evs =
      (if bool_decide (outputBuffer (web st) = [])
       then [] else [history (outputBuffer (web st))]) ++ rest.
Proof.
  intros Hevs. unfold replay_of.
  destruct (step_connection ws now st) as (st1 & Hstep & _ & Htr).
  change (run (Connection ws now :: evs)) with (step (Connection ws now) ≫= λ _, run evs).
  unfold mbind, M_bind. rewrite Hstep.
  destruct (preserves_run ws evs Hevs st1) as (l & Hl & Hno).
  exists (sent_to ws l). split; [by apply sent_to_no_history |].
  erewrite since_app; last by rewrite Hl, Htr, <- app_assoc.
  rewrite sent_to_app. f_equal.
  case_bool_decide; simpl; [done |]. by rewrite bool_decide_eq_true_2.
Qed.

(** C3, as the spec states it, fails: a client that connects while the
    history buffer is empty is sent no [history] message at all, so the
    first [output] it receives has none before it. *)
Lemma history_replay_counterexample :
  ¬ history_replayed (outputBuffer (web (startSession None None init)))
      (replay_of (startSession None None init) 0%nat 0 [PtyData "a"]).
Proof.
  assert (replay_of (startSession None None init) 0%nat 0 [PtyData "a"] = [output "a"])
    as -> by (vm_compute; reflexivity).
  intros [Hone _]. vm_compute in Hone. discriminate.
Qed.

(** C3, amended: a client that connects while the history buffer is not
    empty is sent exactly one [history] message, which carries the whole
    buffer of that moment and comes before every [output] message sent to
    it afterwards, whatever events follow; a client that connects while
    the buffer is empty is sent no [history] message. *)
Theorem history_replayed_when_nonempty st ws now evs :
  Forall (λ ev, ∀ now', ev ≠ Connection ws now') evs →
  (outputBuffer (web st) ≠ [] →
     history_replayed (outputBuffer (web st)) (replay_of st ws now evs) ∧
     head (replay_of st ws now evs) = Some (history (outputBuffer (web st)))) ∧
  (outputBuffer (web st) = [] →
     Forall (λ m, is_history m = false) (replay_of st ws now evs)).
Proof.
  intros Hevs. destruct (replay_of_spec st ws now evs Hevs) as (rest & Hrest & ->).
  split; intros Hbuf.
  - rewrite bool_decide_eq_false_2 by done. simpl. split; [| done].
    by apply history_first_replayed.
  - by rewrite bool_decide_eq_true_2.
Qed.

Lemma history_replayed_when_nonempty_witness :
  Forall (λ ev, ∀ now', ev ≠ Connection 0%nat now') [PtyData "c"; Message 0%nat NotJSON] ∧
  history_replayed ["a"; "b"]
    (replay_of two_chunks 0%nat 7 [PtyData "c"; Message 0%nat NotJSON]).
Proof.
  assert (Forall (λ ev, ∀ now', ev ≠ Connection 0%nat now')
                 [PtyData "c"; Message 0%nat NotJSON]) as Hevs
    by (repeat constructor; intros now'; discriminate).
  split; [exact Hevs |].
  apply (history_replayed_when_nonempty two_chunks 0%nat 7 _ Hevs).
  vm_compute. discriminate.
Defined.

(** ** The history buffer *)

Lemma push_output_below data buf :
  Z.of_nat (length buf) < MAX_BUFFER_SIZE → push_output data buf = buf ++ [data].
Proof.
  intros Hlen. unfold push_output, MAX_BUFFER_SIZE in *.
  rewrite length_app. simpl.
  destruct (Z.ltb_spec 5000 (Z.of_nat (length buf + 1))); [lia | done].
Qed.

Lemma push_output_trim data buf :
  MAX_BUFFER_SIZE ≤ Z.of_nat (length buf) →
  push_output data buf = slice_last 3000 (buf ++ [data]) ∧
  Z.of_nat (length (push_output data buf)) = 3000.
Proof.
  intros Hlen. unfold push_output, MAX_BUFFER_SIZE, slice_last in *.
  rewrite length_app. simpl.
  destruct (Z.ltb_spec 5000 (Z.of_nat (length buf + 1))); [| lia].
  split; [done |]. rewrite length_drop, length_app. simpl. lia.
Qed.

Lemma push_output_last data buf : list.last (push_output data buf) = Some data.
Proof.
  unfold push_output, slice_last.
  destruct (_ <? _) eqn:Hlt; [| apply last_snoc].
  apply Z.ltb_lt in Hlt. unfold MAX_BUFFER_SIZE in Hlt.
  rewrite length_app in *. simpl in *.
  rewrite drop_app_le by lia. apply last_snoc.
Qed.

Lemma push_output_bound data buf :
  Z.of_nat (length buf) ≤ MAX_BUFFER_SIZE →
  Z.of_nat (length (push_output data buf)) ≤ MAX_BUFFER_SIZE.
Proof.
  intros Hlen. destruct (Z.lt_ge_cases (Z.of_nat (length buf)) MAX_BUFFER_SIZE) as [Hlt|Hge].
  - rewrite push_output_below by done. rewrite length_app. simpl. lia.
  - destruct (push_output_trim data buf Hge) as [_ ->]. unfold MAX_BUFFER_SIZE. lia.
Qed.

Lemma pushes_below chunks buf :
  Z.of_nat (length buf + length chunks) ≤ MAX_BUFFER_SIZE →
  pushes buf chunks = buf ++ chunks.
Proof.
  revert buf. induction chunks as [|d chunks IH]; intros buf Hlen; simpl in *.
  - by rewrite app_nil_r.
  - rewrite push_output_below by lia.
    rewrite IH; [by rewrite <- app_assoc | rewrite length_app; simpl; lia].
Qed.

Lemma pushes_snoc buf chunks data :
  pushes buf (chunks ++ [data]) = push_output data (pushes buf chunks).
Proof. unfold pushes. by rewrite foldl_app. Qed.

(** The broadcast leaves the module state of web-server.ts alone. *)
Lemma broadcast_web m st : web (broadcast m st) = web st.
Proof.
  unfold broadcast. generalize (connectedClients (web st)) as l.
  intros l. revert st. induction l as [|c l IH]; intros st; simpl; [done |].
  rewrite IH. by destruct (is_open _).
Qed.

Lemma on_data_broadcast_buffer data st :
  outputBuffer (web (on_data_broadcast data st)) =
  push_output data (outputBuffer (web st)).
Proof. unfold on_data_broadcast. by rewrite broadcast_web. Qed.

Lemma step_PtyData data st :
  dataCallback (pty st) = Some broadcastOutput →
  step (PtyData data) st =
    Normal () (on_data_broadcast data (emit (StdoutWrite data) st)).
Proof.
  intros Hcb. unfold step, pty_onData, mbind, M_bind, modify, get. simpl.
  by rewrite Hcb.
Qed.

Lemma broadcast_pty m st : pty (broadcast m st) = pty st.
Proof.
  unfold broadcast. generalize (connectedClients (web st)) as l.
  intros l. revert st. induction l as [|c l IH]; intros st; simpl; [done |].
  rewrite IH. by destruct (is_open _).
Qed.

Lemma run_PtyData chunks st :
  dataCallback (pty st) = Some broadcastOutput →
  ∃ st', run (map PtyData chunks) st = Normal () st' ∧
         outputBuffer (web st') = pushes (outputBuffer (web st)) chunks ∧
         stdout_of (trace st') = stdout_of (trace st) ++ chunks.
Proof.
  revert st. induction chunks as [|d chunks IH]; intros st Hcb.
  - exists st. split; [done |]. split; [done |]. by rewrite app_nil_r.
  - change (run (map PtyData (d :: chunks)))
      with (step (PtyData d) ≫= λ _, run (map PtyData chunks)).
    unfold mbind, M_bind. rewrite step_PtyData by done.
    set (st1 := on_data_broadcast d (emit (StdoutWrite d) st)).
    destruct (IH st1) as (st' & Hrun & Hbuf & Hout).
    { unfold st1, on_data_broadcast. by rewrite broadcast_pty. }
    exists st'. split; [done |]. split.
    + rewrite Hbuf. unfold st1. by rewrite on_data_broadcast_buffer.
    + rewrite Hout. unfold st1.
      destruct (emits_on_data_broadcast (λ e, ∃ ws m, e = WsSend ws m) d
                  (emit (StdoutWrite d) st)) as (l & -> & Hl); [by eauto |].
      simpl. unfold stdout_of. rewrite !omap_app. simpl.
      rewrite <- !app_assoc. f_equal.
      replace (omap _ l) with (@nil string); [done |].
      clear -Hl. induction Hl as [|e l (ws & m & ->) _ IH]; [done | exact IH].
Qed.

Global Instance keeps_buffer_preorder : PreOrder keeps_buffer.
Proof.
  split.
  - intros st. reflexivity.
  - intros a b c Hab Hbc. unfold keeps_buffer in *. congruence.
Qed.

Ltac buffer_leaf :=
  unfold keeps_buffer, on_exit_broadcast, applyMinSize, stdout_onResize,
    onLocalResize, relay_applyMinSize, gw_close, setTimeout, killPTY,
    resizePTY, writeToPTY, ws_send, set_gw_readyState, set_readyState,
    update_clientInfo, Map_set, Map_delete;
  rewrite ?broadcast_web;
  repeat case_match; simpl; reflexivity.

Lemma step_keeps_buffer ev :
  match ev with PtyData _ | PtyExit _ => False | _ => True end →
  preserves keeps_buffer (step ev).
Proof.
  destruct ev; intros Hev; try (destruct Hev); unfold step.
  - unfold on_connection. frame_with buffer_leaf.
  - unfold on_message, on_message_body, JSON_parse, deref, handle_asr_start,
      handle_asr_audio, handle_asr_stop, handle_claude_process, handle_resize.
    frame_with buffer_leaf.
  - unfold on_close. frame_with buffer_leaf.
  - frame_with buffer_leaf.
  - unfold asr_on_open, correction_on_open. frame_with buffer_leaf.
  - unfold asr_on_message, correction_on_message, gateway_parse.
    frame_with buffer_leaf.
  - unfold asr_on_error, correction_on_error. frame_with buffer_leaf.
  - unfold asr_on_close. frame_with buffer_leaf.
  - unfold run_timer, close_asr_after_stop. frame_with buffer_leaf.
  - frame_with buffer_leaf.
  - change stdin_onData with writeToPTY. frame_with buffer_leaf.
Qed.

Lemma step_buffer_bounded ev st :
  buffer_bounded st → buffer_bounded (final (step ev st)).
Proof.
  intros Hst.
  assert (∀ ev, match ev with PtyData _ | PtyExit _ => False | _ => True end →
                buffer_bounded (final (step ev st))) as Hkeep.
  { intros ev' Hev. pose proof (step_keeps_buffer ev' Hev st) as Hk.
    unfold buffer_bounded, keeps_buffer in *. by rewrite Hk. }
  destruct ev; try (apply Hkeep; exact I); clear Hkeep; unfold buffer_bounded in *.
  - unfold step, pty_onData, mbind, M_bind, modify, get. simpl.
    destruct (dataCallback (pty st)) as [[]|]; simpl; [| exact Hst].
    rewrite on_data_broadcast_buffer. by apply push_output_bound.
  - unfold step, pty_onExit, mbind, M_bind, modify, get. simpl.
    destruct (exitCallback (pty st)) as [[]|]; simpl.
    + unfold on_exit_broadcast. by rewrite broadcast_web.
    + unfold MAX_BUFFER_SIZE. lia.
    + exact Hst.
Qed.

Lemma run_buffer_bounded evs st :
  buffer_bounded st → buffer_bounded (final (run evs st)).
Proof.
  revert st. induction evs as [|ev evs IH]; intros st Hst; [exact Hst |].
  change (run (ev :: evs)) with (step ev ≫= λ _, run evs).
  unfold mbind, M_bind.
  pose proof (step_buffer_bounded ev st Hst) as Hstep.
  destruct (step ev st); simpl in *; [by apply IH | done | done].
Qed.

Lemma startSession_buffer_bounded c r : buffer_bounded (startSession c r init).
Proof. unfold buffer_bounded, MAX_BUFFER_SIZE. simpl. lia. Qed.

(** C4: in every state the session can reach, appending a chunk leaves a
    buffer of at most 5000 entries whose last entry is that chunk; below
    the capacity the chunk is simply appended; a buffer that grows past
    5000 is cut to its most recent 3000 entries; and 5001 chunks pushed
    into the empty buffer leave exactly the last 3000 of them. *)
Theorem history_buffer_trimmed (columns rows_ : option Z) (evs : list Event)
    (data : string) :
  let st := final (run evs (startSession columns rows_ init)) in
  let buf := outputBuffer (web st) in
  let buf' := outputBuffer (web (on_data_broadcast data st)) in
  Z.of_nat (length buf) ≤ 5000 ∧
  Z.of_nat (length buf') ≤ 5000 ∧
  list.last buf' = Some data ∧
  (Z.of_nat (length buf) < 5000 → buf' = buf ++ [data]) ∧
  (Z.of_nat (length buf) = 5000 →
     buf' = drop (Z.to_nat 2001) (buf ++ [data]) ∧ Z.of_nat (length buf') = 3000) ∧
  (∀ chunks, Z.of_nat (length chunks) = 5001 →
     let b := outputBuffer (web (final (run (map PtyData chunks)
                                           (startSession columns rows_ init)))) in
     Z.of_nat (length b) = 3000 ∧
     list.last b = list.last chunks ∧
     b = drop (Z.to_nat 2001) chunks).
Proof.
  intros st buf buf'.
  assert (buffer_bounded st) as Hst
    by apply run_buffer_bounded, startSession_buffer_bounded.
  unfold buf'. rewrite on_data_broadcast_buffer. fold buf.
  unfold buffer_bounded, MAX_BUFFER_SIZE in Hst. fold buf in Hst.
  split; [exact Hst |].
  split; [by apply (push_output_bound data buf) |].
  split; [apply push_output_last |].
  split; [intros Hlt; by apply push_output_below |].
  split.
  - intros Hfull.
    destruct (push_output_trim data buf) as [-> Hlen]; [unfold MAX_BUFFER_SIZE; lia |].
    split; [| fold (push_output data buf); exact Hlen].
    unfold slice_last. rewrite length_app. simpl. f_equal. lia.
  - intros chunks Hlen. cbv zeta.
    destruct (run_PtyData chunks (startSession columns rows_ init) eq_refl)
      as (st' & Hrun & Hbuf & _).
    rewrite Hrun. simpl final. rewrite Hbuf. simpl outputBuffer.
    clear -Hlen. destruct chunks as [|d front _] using rev_ind; [simpl in Hlen; lia |].
    rewrite length_app in Hlen. simpl in Hlen.
    rewrite pushes_snoc, pushes_below by (unfold MAX_BUFFER_SIZE; simpl; lia).
    simpl.
    destruct (push_output_trim d front) as [Heq Hlen']; [unfold MAX_BUFFER_SIZE; lia |].
    split; [exact Hlen' |]. split; [by rewrite push_output_last, last_snoc |].
    rewrite Heq. unfold slice_last. rewrite length_app. simpl. f_equal. lia.
Qed.

(** ** Size reconciliation *)

Global Instance reported_dec ci : Decision (reported ci).
Proof. unfold reported. apply _. Defined.

Lemma is_min_single a : is_min a [a].
Proof.
  split; [by left |].
  intros x Hx. apply elem_of_cons in Hx as [->|Hx]; [lia |].
  by apply elem_of_nil in Hx.
Qed.

Lemma is_min_merge m a x l : is_min m (Z.min a x :: l) → is_min m (a :: x :: l).
Proof.
  intros [Hin Hle]. split.
  - apply elem_of_cons in Hin as [->|Hin].
    + destruct (Z.min_spec a x) as [[_ ->]|[_ ->]]; [by left | right; by left].
    + by do 2 right.
  - intros y Hy. pose proof (Hle (Z.min a x) ltac:(by left)) as Hmin.
    apply elem_of_cons in Hy as [->|Hy]; [lia |].
    apply elem_of_cons in Hy as [->|Hy]; [lia |].
    apply Hle. by right.
Qed.

Lemma min_fold_spec (clients : list ClientInfo) (a b : Z) :
  let cr := foldl (λ '(minCols, minRows) clientInfo,
                     if (0 <? cols clientInfo) && (0 <? rows clientInfo)
                     then (Z.min minCols (cols clientInfo),
                           Z.min minRows (rows clientInfo))
                     else (minCols, minRows))
                  (a, b) clients in
  is_min cr.1 (a :: map cols (filter reported clients)) ∧
  is_min cr.2 (b :: map rows (filter reported clients)).
Proof.
  revert a b. induction clients as [|ci clients IH]; intros a b; simpl.
  - split; apply is_min_single.
  - destruct (Z.ltb_spec 0 (cols ci)) as [Hc|Hc];
      destruct (Z.ltb_spec 0 (rows ci)) as [Hr|Hr]; simpl.
    + rewrite filter_cons_True by done. simpl.
      destruct (IH (Z.min a (cols ci)) (Z.min b (rows ci))) as [H1 H2].
      split; by apply is_min_merge.
    + rewrite filter_cons_False by (unfold reported; lia). apply IH.
    + rewrite filter_cons_False by (unfold reported; lia). apply IH.
    + rewrite filter_cons_False by (unfold reported; lia). apply IH.
Qed.

Lemma calculateMinSize_spec st :
  is_min (calculateMinSize st).1
    (localCols (pty st) :: map cols (filter reported (Map_values (web st)))) ∧
  is_min (calculateMinSize st).2
    (localRows (pty st) :: map rows (filter reported (Map_values (web st)))).
Proof. unfold calculateMinSize, getLocalSize. apply min_fold_spec. Qed.

Lemma is_min_positive m a (l : list ClientInfo) (f : ClientInfo → Z) :
  0 < a → (∀ ci, reported ci → 0 < f ci) →
  is_min m (a :: map f (filter reported l)) → 0 < m.
Proof.
  intros Ha Hf [Hin _]. apply elem_of_cons in Hin as [->|Hin]; [done |].
  apply list_elem_of_fmap in Hin as (ci & -> & Hci).
  apply list_elem_of_filter in Hci as [Hci _]. by apply Hf.
Qed.

(** C1: reconciliation resizes the PTY to the componentwise minimum of
    the local terminal size and the stored sizes of the registered clients
    whose columns and rows are both positive; with no client registered it
    resizes it to the local size. *)
Theorem applyMinSize_effective_size (st : Relay) (p : IPty) :
  ptyProcess (pty st) = Some p →
  (connectedClients (web st) ≠ [] → 0 < localCols (pty st) ∧ 0 < localRows (pty st)) →
  let sizes := filter reported (Map_values (web st)) in
  ∃ c r,
    ptyProcess (pty (applyMinSize st)) = Some {| pty_cols := c; pty_rows := r |} ∧
    trace (applyMinSize st) = trace st ++ [PtyResize c r] ∧
    is_min c (localCols (pty st) :: map cols sizes) ∧
    is_min r (localRows (pty st) :: map rows sizes) ∧
    (connectedClients (web st) = [] →
       c = localCols (pty st) ∧ r = localRows (pty st)).
Proof.
  intros Hpty Hlocal sizes. unfold applyMinSize, Map_size.
  destruct (connectedClients (web st)) as [|ws l] eqn:Hreg; simpl.
  - exists (localCols (pty st)), (localRows (pty st)).
    unfold resizePTY. rewrite Hpty. simpl.
    unfold sizes, Map_values. rewrite Hreg. simpl.
    repeat split; first [done | apply is_min_single].
  - destruct (Hlocal ltac:(done)) as [Hlc Hlr].
    destruct (calculateMinSize_spec st) as [Hc Hr].
    destruct (calculateMinSize st) as [c r]. simpl in Hc, Hr.
    assert (0 < c) as Hcpos
      by (eapply is_min_positive; [exact Hlc | | exact Hc]; by intros ci []).
    assert (0 < r) as Hrpos
      by (eapply is_min_positive; [exact Hlr | | exact Hr]; by intros ci []).
    exists c, r.
    destruct (Z.ltb_spec 0 c); [| lia]. destruct (Z.ltb_spec 0 r); [| lia]. simpl.
    unfold resizePTY. rewrite Hpty. simpl. done.
Qed.

Lemma Map_get_registered ws w :
  ws ∈ connectedClients w → Map_get ws w = Some (clientInfos w ws).
Proof. intros Hin. unfold Map_get. by rewrite bool_decide_eq_true_2. Qed.

(** A [resize] message of a registered client stores the size it reports
    and reconciles. *)
Lemma resize_message_reconciles ws msg c r st :
  ws ∈ connectedClients (web st) →
  msg_type msg = Some "resize" →
  msg_cols msg = Some c → msg_rows msg = Some r → c ≠ 0 → r ≠ 0 →
  step (Message ws (Parsed msg)) st =
    Normal () (applyMinSize (update_clientInfo ws (with_size c r) st)).
Proof.
  intros Hreg Hty Hc Hr Hc0 Hr0.
  unfold step, on_message, try_catch, on_message_body, JSON_parse, deref,
    handle_resize.
  unfold when, mbind, M_bind, mret, M_ret, get, modify. rewrite Hty, Hc, Hr. simpl.
  destruct (Z.eqb_spec c 0) as [|_]; [done |].
  destruct (Z.eqb_spec r 0) as [|_]; [done |]. simpl.
  by rewrite Map_get_registered.
Qed.

Lemma applyMinSize_effective_size_witness :
  ptyProcess (pty two_clients) = Some {| pty_cols := 80; pty_rows := 24 |} ∧
  (connectedClients (web two_clients) ≠ [] →
     0 < localCols (pty two_clients) ∧ 0 < localRows (pty two_clients)) ∧
  ∃ c r,
    ptyProcess (pty (applyMinSize two_clients)) = Some {| pty_cols := c; pty_rows := r |} ∧
    trace (applyMinSize two_clients) = trace two_clients ++ [PtyResize c r] ∧
    is_min c (localCols (pty two_clients)
                :: map cols (filter reported (Map_values (web two_clients)))) ∧
    is_min r (localRows (pty two_clients)
                :: map rows (filter reported (Map_values (web two_clients)))) ∧
    (connectedClients (web two_clients) = [] →
       c = localCols (pty two_clients) ∧ r = localRows (pty two_clients)).
Proof.
  assert (ptyProcess (pty two_clients) = Some {| pty_cols := 80; pty_rows := 24 |})
    as Hpty by (vm_compute; reflexivity).
  assert (connectedClients (web two_clients) ≠ [] →
          0 < localCols (pty two_clients) ∧ 0 < localRows (pty two_clients))
    as Hlocal by (intros _; vm_compute; split; reflexivity).
  split; [exact Hpty |]. split; [exact Hlocal |].
  exact (applyMinSize_effective_size two_clients _ Hpty Hlocal).
Defined.

Example spec_example_sizes :
  calculateMinSize two_clients = (80, 24) ∧
  map (λ ci, (cols ci, rows ci)) (Map_values (web two_clients)) = [(80, 24); (100, 30)] ∧
  getLocalSize two_clients = (120, 40).
Proof. vm_compute. done. Qed.

(** ** The local mirror *)

Lemma no_stdout_in_sends (l : list Effect) :
  Forall (λ e, ∃ ws m, e = WsSend ws m) l → stdout_of l = [].
Proof. induction 1 as [|e l (ws & m & ->) _ IH]; [done | exact IH]. Qed.

Lemma pty_onData_spec data st :
  ∃ st' l,
    pty_onData data st = Normal () st' ∧
    trace st' = trace st ++ StdoutWrite data :: l ∧
    Forall (λ e, ∃ ws m, e = WsSend ws m) l ∧
    dataCallback (pty st') = dataCallback (pty st) ∧
    (connectedClients (web st) = [] → l = []).
Proof.
  unfold pty_onData, mbind, M_bind, modify, get. simpl.
  destruct (dataCallback (pty st)) as [[]|] eqn:Hcb; simpl.
  - destruct (emits_on_data_broadcast (λ e, ∃ ws m, e = WsSend ws m) data
                (emit (StdoutWrite data) st)) as (l & Hl & Hsends); [by eauto |].
    exists (on_data_broadcast data (emit (StdoutWrite data) st)), l.
    split; [done |]. split; [by rewrite Hl; simpl; rewrite <- app_assoc |].
    split; [done |]. split.
    + unfold on_data_broadcast. by rewrite broadcast_pty.
    + intros Hnone. unfold on_data_broadcast, broadcast in Hl. simpl in Hl.
      rewrite Hnone in Hl. simpl in Hl.
      apply (f_equal (drop (length (trace st ++ [StdoutWrite data])))) in Hl.
      rewrite drop_app_length, drop_all in Hl. done.
  - exists (emit (StdoutWrite data) st), []. by repeat split.
Qed.

Lemma run_PtyData_stdout chunks st :
  ∃ st' l, run (map PtyData chunks) st = Normal () st' ∧
           trace st' = trace st ++ l ∧ stdout_of l = chunks.
Proof.
  revert st. induction chunks as [|d chunks IH]; intros st.
  - exists st, []. by rewrite app_nil_r.
  - change (run (map PtyData (d :: chunks)))
      with (pty_onData d ≫= λ _, run (map PtyData chunks)).
    destruct (pty_onData_spec d st) as (st1 & l1 & Hrun1 & Htr1 & Hl1 & _).
    destruct (IH st1) as (st' & l & Hrun & Htr & Hl).
    exists st', (StdoutWrite d :: l1 ++ l).
    unfold mbind, M_bind. rewrite Hrun1. split; [exact Hrun |].
    split.
    + rewrite Htr, Htr1, <- app_assoc. done.
    + unfold stdout_of in *. simpl. rewrite omap_app.
      fold (stdout_of l1). rewrite (no_stdout_in_sends l1 Hl1). simpl. by f_equal.
Qed.

(** C10: every chunk the PTY produces is written to the local terminal
    first, and only then handed to the data callback, whose effects are
    sends to clients; this does not depend on the registry, and with no
    client connected the write is the only effect.  Over any series of
    chunks the local terminal is written exactly that series. *)
Theorem local_mirror_unconditional (st : Relay) (data : string) :
  (∃ st' l,
     step (PtyData data) st = Normal () st' ∧
     trace st' = trace st ++ StdoutWrite data :: l ∧
     Forall (λ e, ∃ ws m, e = WsSend ws m) l ∧
     (connectedClients (web st) = [] → l = [])) ∧
  (∀ chunks, ∃ st' l,
     run (map PtyData chunks) st = Normal () st' ∧
     trace st' = trace st ++ l ∧
     stdout_of l = chunks).
Proof.
  split.
  - destruct (pty_onData_spec data st) as (st' & l & Hrun & Htr & Hl & _ & Hnone).
    exists st', l. done.
  - intros chunks. apply run_PtyData_stdout.
Qed.

Example local_mirror_no_clients :
  trace (final (run (map PtyData ["a"; "b"]) (startSession None None init))) =
  [StdoutWrite "a"; StdoutWrite "b"].
Proof. vm_compute. reflexivity. Qed.

(** ** Audio chunks *)

Lemma on_message_asr_audio ws msg st :
  msg_type msg = Some "asr_audio" →
  on_message ws (Parsed msg) st =
    try_catch (handle_asr_audio ws msg)
      (λ _, modify (emit (ConsoleError "  [WebServer] Invalid message:"))) st.
Proof.
  intros Hty. unfold on_message, try_catch, on_message_body, JSON_parse, deref.
  unfold when, mbind, M_bind, mret, M_ret. rewrite Hty. simpl.
  destruct (handle_asr_audio ws msg st) as [[] st'|e st'|c st']; reflexivity.
Qed.



Example asr_audio_dropped_while_connecting :
  asr_ready_for 0%nat connecting_session = false ∧
  on_message 0%nat (Parsed (audio_msg "AAEC")) connecting_session =
    Normal () connecting_session.
Proof. vm_compute. done. Qed.

Example asr_audio_sent_when_ready :
  asr_ready_for 0%nat ready_session = true ∧
  since ready_session
    (final (on_message 0%nat (Parsed (audio_msg "AAEC")) ready_session)) =
  [GwSend 0%nat (audio_data (Some "AAEC"))].
Proof. vm_compute. done. Qed.

(** ** Disconnect and stop *)

Lemma gw_close_state h code reason st :
  gw_readyState_of h (gw_close h code reason st) ≠ OPEN ∧
  gw_readyState_of h (gw_close h code reason st) ≠ CONNECTING.
Proof.
  unfold gw_close.
  destruct (gw_readyState_of h (emit _ st)) eqn:Hrs;
    try (unfold gw_readyState_of, set_gw_readyState in *; simpl in *;
         rewrite lookup_alter_eq;
         destruct (gateways (env st) !! h); simpl; by split).
  rewrite Hrs. by split.
Qed.

Lemma on_message_asr_stop ws msg st :
  msg_type msg = Some "asr_stop" →
  on_message ws (Parsed msg) st =
    try_catch (handle_asr_stop ws)
      (λ _, modify (emit (ConsoleError "  [WebServer] Invalid message:"))) st.
Proof.
  intros Hty. unfold on_message, try_catch, on_message_body, JSON_parse, deref.
  unfold when, mbind, M_bind, mret, M_ret. rewrite Hty. simpl.
  destruct (handle_asr_stop ws st) as [[] st'|e st'|c st']; reflexivity.
Qed.


Lemma applyMinSize_web_env st :
  web (applyMinSize st) = web st ∧ env (applyMinSize st) = env st.
Proof. unfold applyMinSize, resizePTY. repeat case_match; simpl; done. Qed.




Example disconnect_sets_no_timer :
  since ready_session (final (step (Close 0%nat) ready_session)) =
  [GwClose 0%nat (Some 1001) (Some "Client disconnected"); PtyResize 80 24].
Proof. vm_compute. reflexivity. Qed.

(** ** Malformed and unknown messages *)

Lemma alive_gw_send h m : stays_alive (gw_send h m).
Proof. intros st. unfold gw_send. by destruct (gw_readyState_of h st). Qed.

Ltac alive :=
  repeat lazymatch goal with
  | |- stays_alive (_ ≫= _) => apply alive_bind; [| intros ?]
  | |- stays_alive (when _ _) => apply alive_when
  | |- stays_alive (throw _) => apply alive_throw
  | |- stays_alive (gw_send _ _) => apply alive_gw_send
  | |- stays_alive (match ?x with _ => _ end) => destruct x
  | |- stays_alive _ => intros ?; exact I
  end.

Lemma on_message_body_alive ws raw : stays_alive (on_message_body ws raw).
Proof.
  unfold on_message_body, JSON_parse, deref, handle_asr_start,
    handle_asr_audio, handle_asr_stop, handle_claude_process, handle_resize.
  alive.
Qed.

Lemma on_message_total ws raw : total (on_message ws raw).
Proof.
  apply try_catch_total; [apply on_message_body_alive |].
  intros e st. reflexivity.
Qed.

Lemma unknown_type_is msg k :
  unknown_type msg → k ∈ known_types → type_is (msg_type msg) k = false.
Proof.
  intros Hun Hk. unfold type_is. destruct (msg_type msg) as [t|] eqn:Ht; [| done].
  apply String.eqb_neq. intros ->. by apply (Hun k).
Qed.

(** C8: the message handler always returns: no exception leaves it and
    it never ends the process.  A frame that is not JSON, or that parses
    to a value whose [type] cannot be read, is logged once and changes
    nothing else: the PTY, the registry and the history buffer, and the
    sockets are as before.  A message whose discriminant is none of those
    the router knows, an [input] without data and a [resize] without both
    dimensions change nothing at all. *)
Theorem malformed_message_dropped (ws : sock) (raw : RawMsg) (st : Relay) :
  (∃ st', on_message ws raw st = Normal () st') ∧
  (raw = NotJSON ∨ raw = JSONNull →
     ∃ st', on_message ws raw st = Normal () st' ∧
            trace st' = trace st ++ [ConsoleError "  [WebServer] Invalid message:"] ∧
            pty st' = pty st ∧ web st' = web st ∧ env st' = env st ∧
            readyState ws st' = readyState ws st) ∧
  (∀ msg, raw = Parsed msg →
     unknown_type msg
     ∨ (msg_type msg = Some "input" ∧ truthy_str (msg_data msg) = false)
     ∨ (msg_type msg = Some "resize" ∧
        truthy_num (msg_cols msg) && truthy_num (msg_rows msg) = false) →
     on_message ws raw st = Normal () st).
Proof.
  split; [| split].
  - pose proof (on_message_total ws raw st) as Hret.
    destruct (on_message ws raw st) as [[] st'|e st'|c st']; try discriminate.
    by exists st'.
  - intros [-> | ->]; eexists; (split; [reflexivity |]); by repeat split.
  - intros msg -> Hcase.
    unfold on_message, try_catch, on_message_body, JSON_parse, deref.
    unfold when, mbind, M_bind, mret, M_ret.
    destruct Hcase as [Hun | [[Hty Hdata] | [Hty Hsize]]].
    + rewrite !(unknown_type_is msg) by (done || (unfold known_types; set_solver)).
      reflexivity.
    + rewrite Hty, Hdata. reflexivity.
    + rewrite Hty. simpl. rewrite Hsize. reflexivity.
Qed.

Example not_json_is_logged :
  since ready_session (final (step (Message 0%nat NotJSON) ready_session)) =
  [ConsoleError "  [WebServer] Invalid message:"].
Proof. vm_compute. reflexivity. Qed.

Example unknown_discriminant_is_ignored :
  step (Message 0%nat (Parsed (typed_msg "ping"))) ready_session =
  Normal () ready_session.
Proof. vm_compute. reflexivity. Qed.

(** ** Correction requests *)


Lemma on_message_claude_process ws msg st :
  msg_type msg = Some "claude_process" →
  on_message ws (Parsed msg) st =
    try_catch (handle_claude_process ws msg)
      (λ _, modify (emit (ConsoleError "  [WebServer] Invalid message:"))) st.
Proof.
  intros Hty. unfold on_message, try_catch, on_message_body, JSON_parse, deref.
  unfold when, mbind, M_bind, mret, M_ret. rewrite Hty. simpl.
  destruct (handle_claude_process ws msg st) as [[] st'|e st'|c st']; reflexivity.
Qed.



(** ** A second [asr_start] *)

(** C2 does not hold of the code: the second [asr_start] overwrites
    [clientInfo.asrWs] with a new socket and neither rejects the request
    nor closes the socket it replaces.  Both sockets of the client are
    open, the client has been told nothing, and the first socket stays
    open even when the client disconnects, as nothing refers to it.  The
    listeners of the first socket still write to the client's object:
    when that socket closes, the client loses its reference to the second
    one, which is open. *)
Theorem second_asr_start_leaks_socket :
  gw_kind <$> gateways (env started_twice) !! 0%nat = Some (asrGateway 0%nat None None) ∧
  gw_kind <$> gateways (env started_twice) !! 1%nat = Some (asrGateway 0%nat None None) ∧
  gw_readyState_of 0%nat started_twice = OPEN ∧
  gw_readyState_of 1%nat started_twice = OPEN ∧
  asrWs (clientInfo_of 0%nat started_twice) = Some 1%nat ∧
  sent_to 0%nat (trace started_twice) = [] ∧
  filter (λ e, closes_gateway e = true) (trace started_twice) = [] ∧
  gw_readyState_of 0%nat (final (step (Close 0%nat) started_twice)) = OPEN ∧
  gw_readyState_of 1%nat (final (step (Close 0%nat) started_twice)) = CLOSING ∧
  asrWs (clientInfo_of 0%nat (final (step (GatewayClose 0%nat) started_twice))) = None ∧
  gw_readyState_of 1%nat (final (step (GatewayClose 0%nat) started_twice)) = OPEN.
Proof. vm_compute. done. Qed.

(** ** Exit of the child process *)

Global Instance keeps_exitCallback_preorder : PreOrder keeps_exitCallback.
Proof.
  split.
  - intros st. reflexivity.
  - intros a b c Hab Hbc. unfold keeps_exitCallback in *. congruence.
Qed.

Lemma stopWebServer_pty st : pty (stopWebServer st) = pty st.
Proof.
  unfold stopWebServer. simpl.
  generalize (filter (λ kv, kv.2 ≠ CLOSED) (map_to_list (clientSockets (env st)))).
  intros l. revert st. induction l as [|kv l IH]; intros st; simpl; [done |].
  by rewrite IH.
Qed.

Ltac callback_leaf :=
  unfold keeps_exitCallback, on_exit_broadcast, on_data_broadcast, applyMinSize,
    stdout_onResize, onLocalResize, relay_applyMinSize, gw_close, setTimeout,
    killPTY, resizePTY, writeToPTY, ws_send, set_gw_readyState, set_readyState,
    update_clientInfo;
  rewrite ?broadcast_pty, ?stopWebServer_pty;
  repeat case_match; simpl; reflexivity.

Lemma step_keeps_exitCallback ev : preserves keeps_exitCallback (step ev).
Proof.
  destruct ev; unfold step.
  - unfold on_connection. frame_with callback_leaf.
  - unfold on_message, on_message_body, JSON_parse, deref, handle_asr_start,
      handle_asr_audio, handle_asr_stop, handle_claude_process, handle_resize.
    frame_with callback_leaf.
  - unfold on_close. frame_with callback_leaf.
  - frame_with callback_leaf.
  - unfold asr_on_open, correction_on_open. frame_with callback_leaf.
  - unfold asr_on_message, correction_on_message, gateway_parse.
    frame_with callback_leaf.
  - unfold asr_on_error, correction_on_error. frame_with callback_leaf.
  - unfold asr_on_close. frame_with callback_leaf.
  - unfold run_timer, close_asr_after_stop. frame_with callback_leaf.
  - unfold pty_onData, run_dataCallback. frame_with callback_leaf.
  - unfold pty_onExit, run_exitCallback, cleanup. frame_with callback_leaf.
  - frame_with callback_leaf.
  - change stdin_onData with writeToPTY. frame_with callback_leaf.
Qed.

Lemma run_keeps_exitCallback evs : preserves keeps_exitCallback (run evs).
Proof.
  induction evs as [|ev evs IH].
  - apply (preserves_ret _ ()).
  - change (run (ev :: evs)) with (step ev ≫= λ _, run evs).
    apply preserves_bind; [apply _ | apply step_keeps_exitCallback | intros _; exact IH].
Qed.

Lemma sent_to_nothing ws l :
  Forall (λ e, sends_to_client e = false) l → sent_to ws l = [].
Proof.
  induction 1 as [|e l He _ IH]; [done |].
  destruct e; try discriminate; exact IH.
Qed.

(** C7 does not hold of the code as [startSession] wires it: pty.ts keeps
    one exit callback, and [startSession] replaces the broadcaster that
    [startWebServer] registered by its own.  In every state the session
    reaches, the exit of the child process sends no message to any client
    (so no [exit] message); it stops the PTY and the server and ends the
    process. *)
Theorem session_exit_sends_no_exit_message (columns rows_ : option Z)
    (evs : list Event) (exitCode : Z) (ws : sock) :
  let st := final (run evs (startSession columns rows_ init)) in
  exitCallback (pty st) = Some sessionEnded ∧
  sent_to ws (since st (final (step (PtyExit exitCode) st))) = [] ∧
  ∃ st', step (PtyExit exitCode) st = Exited 0 st'.
Proof.
  intros st.
  assert (exitCallback (pty st) = Some sessionEnded) as Hcb.
  { unfold st. by rewrite (run_keeps_exitCallback evs (startSession columns rows_ init)). }
  split; [exact Hcb |]. split.
  - assert (preserves (emits (λ e, sends_to_client e = false))
              (run_exitCallback sessionEnded exitCode)) as Hquiet.
    { unfold run_exitCallback, cleanup. frame; done. }
    destruct (Hquiet st) as (l & Hl & Hno).
    unfold step, pty_onExit, mbind, M_bind, get. rewrite Hcb. simpl.
    simpl in Hl. erewrite since_app by exact Hl.
    by apply sent_to_nothing.
  - unfold step, pty_onExit, mbind, M_bind, get. rewrite Hcb. simpl. eauto.
Qed.

Example client_sees_no_exit_message :
  trace (final (run [Connection 0%nat 1; PtyData "$ "; PtyExit 3]
                    (startSession None None init))) =
  [StdoutWrite "$ "; WsSend 0%nat (output "$ "); ConsoleLog "Session ended.";
   PtyKill; WsClose 0%nat; StopTunnel; ProcessExit 0].
Proof. vm_compute. reflexivity. Qed.

(** What the broadcaster of web-server.ts does when it is the callback:
    every registered client whose socket is open is sent the exit code
    once, and pty.ts forgets the process, after which writes and resizes do
    nothing. *)
Lemma broadcast_trace m st :
  trace (broadcast m st) =
  trace st ++ map (λ ws, WsSend ws m)
                  (filter (λ ws, readyState ws st = OPEN) (connectedClients (web st))).
Proof.
  unfold broadcast. generalize (connectedClients (web st)) as l.
  intros l. revert st. induction l as [|c l IH] using rev_ind; intros st.
  - simpl. by rewrite app_nil_r.
  - rewrite foldl_app, list.filter_app, map_app, app_assoc, <- IH. simpl.
    assert (readyState c (foldl
              (λ st0 client, if is_open (readyState client st0)
                             then ws_send client m st0 else st0) st l)
            = readyState c st) as ->.
    { unfold readyState. f_equal. f_equal.
      clear IH. revert st. induction l as [|c' l IH]; intros st; simpl; [done |].
      rewrite IH. by destruct (is_open _). }
    unfold is_open. case_bool_decide as Hopen.
    + rewrite filter_cons_True by done. reflexivity.
    + rewrite filter_cons_False by done. simpl. by rewrite app_nil_r.
Qed.

Lemma broadcaster_exit (exitCode : Z) (st : Relay) :
  exitCallback (pty st) = Some broadcastExit →
  ∃ st', step (PtyExit exitCode) st = Normal () st' ∧
         trace st' = trace st ++
           map (λ ws, WsSend ws (exit exitCode))
               (filter (λ ws, readyState ws st = OPEN) (connectedClients (web st))) ∧
         ptyProcess (pty st') = None ∧
         (∀ data, writeToPTY data st' = st') ∧
         (∀ c r, resizePTY c r st' = st').
Proof.
  intros Hcb. unfold step, pty_onExit, mbind, M_bind, get, modify. rewrite Hcb. simpl.
  eexists. split; [reflexivity |]. simpl.
  split; [apply broadcast_trace |]. split; [done |].
  split; intros; reflexivity.
Qed.

Lemma no_process_no_effect (st : Relay) :
  ptyProcess (pty st) = None →
  (∀ data, writeToPTY data st = st) ∧ (∀ c r, resizePTY c r st = st).
Proof. intros Hnone. unfold writeToPTY, resizePTY. by rewrite Hnone. Qed.

(** * Further properties of the relay *)

(** ** Fan-out of the output *)

Global Instance keeps_dataCallback_preorder : PreOrder keeps_dataCallback.
Proof.
  split.
  - intros st. reflexivity.
  - intros a b c Hab Hbc. unfold keeps_dataCallback in *. congruence.
Qed.

Ltac data_callback_leaf :=
  unfold keeps_dataCallback, on_exit_broadcast, on_data_broadcast, applyMinSize,
    stdout_onResize, onLocalResize, relay_applyMinSize, gw_close, setTimeout,
    killPTY, resizePTY, writeToPTY, ws_send, set_gw_readyState, set_readyState,
    update_clientInfo;
  rewrite ?broadcast_pty, ?stopWebServer_pty;
  repeat case_match; simpl; reflexivity.

Lemma step_keeps_dataCallback ev : preserves keeps_dataCallback (step ev).
Proof.
  destruct ev; unfold step.
  - unfold on_connection. frame_with data_callback_leaf.
  - unfold on_message, on_message_body, JSON_parse, deref, handle_asr_start,
      handle_asr_audio, handle_asr_stop, handle_claude_process, handle_resize.
    frame_with data_callback_leaf.
  - unfold on_close. frame_with data_callback_leaf.
  - frame_with data_callback_leaf.
  - unfold asr_on_open, correction_on_open. frame_with data_callback_leaf.
  - unfold asr_on_message, correction_on_message, gateway_parse.
    frame_with data_callback_leaf.
  - unfold asr_on_error, correction_on_error. frame_with data_callback_leaf.
  - unfold asr_on_close. frame_with data_callback_leaf.
  - unfold run_timer, close_asr_after_stop. frame_with data_callback_leaf.
  - unfold pty_onData, run_dataCallback. frame_with data_callback_leaf.
  - unfold pty_onExit, run_exitCallback, cleanup. frame_with data_callback_leaf.
  - frame_with data_callback_leaf.
  - change stdin_onData with writeToPTY. frame_with data_callback_leaf.
Qed.

Lemma run_keeps_dataCallback evs : preserves keeps_dataCallback (run evs).
Proof.
  induction evs as [|ev evs IH].
  - apply (preserves_ret _ ()).
  - change (run (ev :: evs)) with (step ev ≫= λ _, run evs).
    apply preserves_bind; [apply _ | apply step_keeps_dataCallback | intros _; exact IH].
Qed.

(** X1: in every state the session reaches, a chunk of output is written
    to the local terminal and then sent, as one [output] message each, to
    the registered clients whose socket is open, in the order in which they
    registered; a client whose socket is not open is passed over, and the
    others are served all the same. *)
Theorem output_fanout_in_registration_order (columns rows_ : option Z)
    (evs : list Event) (data : string) :
  let st := final (run evs (startSession columns rows_ init)) in
  ∃ st', step (PtyData data) st = Normal () st' ∧
         trace st' = trace st ++ StdoutWrite data ::
           map (λ ws, WsSend ws (output data))
               (filter (λ ws, readyState ws st = OPEN) (connectedClients (web st))).
Proof.
  intros st.
  assert (dataCallback (pty st) = Some broadcastOutput) as Hcb.
  { unfold st. by rewrite (run_keeps_dataCallback evs (startSession columns rows_ init)). }
  rewrite (step_PtyData data st Hcb). eexists. split; [reflexivity |].
  unfold on_data_broadcast. rewrite broadcast_trace. simpl.
  by rewrite <- app_assoc.
Qed.

Example fanout_skips_closing_socket :
  since (final (run [Connection 0%nat 1; Connection 1%nat 2; Connection 2%nat 3;
                     SocketState 1%nat CLOSING] (startSession None None init)))
        (final (run [Connection 0%nat 1; Connection 1%nat 2; Connection 2%nat 3;
                     SocketState 1%nat CLOSING; PtyData "x"]
                    (startSession None None init))) =
  [StdoutWrite "x"; WsSend 0%nat (output "x"); WsSend 2%nat (output "x")].
Proof. vm_compute. reflexivity. Qed.

(** ** Keyboard input *)

Lemma step_input ws msg st :
  msg_type msg = Some "input" →
  step (Message ws (Parsed msg)) st =
    Normal () (if truthy_str (msg_data msg)
               then writeToPTY (default "" (msg_data msg)) st else st).
Proof.
  intros Hty. unfold step, on_message, try_catch, on_message_body, JSON_parse, deref.
  unfold when, mbind, M_bind, mret, M_ret, modify. rewrite Hty. simpl.
  by destruct (truthy_str (msg_data msg)).
Qed.

(** X2: [input] messages are written to the PTY verbatim and in the order
    of their arrival, whichever clients they come from; a message whose
    data is absent or empty writes nothing; and when no process is running
    all of them are dropped without any effect. *)
Theorem input_written_in_arrival_order (inputs : list (sock * Msg)) (st : Relay) :
  Forall (λ i, msg_type i.2 = Some "input") inputs →
  ∃ st', run (map (λ i, Message i.1 (Parsed i.2)) inputs) st = Normal () st' ∧
         pty st' = pty st ∧ web st' = web st ∧ env st' = env st ∧
         trace st' = trace st ++
           match ptyProcess (pty st) with
           | Some _ => input_writes (map snd inputs)
           | None => []
           end.
Proof.
  intros Hinputs. revert st.
  induction Hinputs as [|[ws msg] inputs Hty _ IH]; intros st.
  - exists st. repeat split; try done. simpl. destruct (ptyProcess _); by rewrite app_nil_r.
  - change (run (map (λ i, Message i.1 (Parsed i.2)) ((ws, msg) :: inputs)))
      with (step (Message ws (Parsed msg))
              ≫= λ _, run (map (λ i, Message i.1 (Parsed i.2)) inputs)).
    unfold mbind, M_bind. simpl in Hty. rewrite (step_input ws msg st Hty).
    set (st1 := if truthy_str (msg_data msg)
                then writeToPTY (default "" (msg_data msg)) st else st).
    destruct (IH st1) as (st' & Hrun & Hpty & Hweb & Henv & Htr).
    assert (pty st1 = pty st ∧ web st1 = web st ∧ env st1 = env st ∧
            trace st1 = trace st ++
              match ptyProcess (pty st) with
              | Some _ => input_writes [msg]
              | None => []
              end) as (Hpty1 & Hweb1 & Henv1 & Htr1).
    { unfold st1, writeToPTY, input_writes. simpl.
      destruct (truthy_str (msg_data msg)); destruct (ptyProcess (pty st));
        simpl; by rewrite ?app_nil_r. }
    exists st'. split; [exact Hrun |].
    split; [congruence |]. split; [congruence |]. split; [congruence |].
    rewrite Htr, Htr1, Hpty1, <- app_assoc. f_equal.
    unfold input_writes. simpl.
    destruct (ptyProcess (pty st)); [| done].
    by destruct (truthy_str (msg_data msg)).
Qed.

Lemma input_written_in_arrival_order_witness :
  Forall (λ i, msg_type i.2 = Some "input")
         [(0%nat, {| msg_type := Some "input"; msg_data := Some "l"; msg_cols := None;
                     msg_rows := None; msg_language := None; msg_model := None;
                     msg_context := None; msg_audio := None; msg_transcript := None |});
          (1%nat, {| msg_type := Some "input"; msg_data := Some ""; msg_cols := None;
                     msg_rows := None; msg_language := None; msg_model := None;
                     msg_context := None; msg_audio := None; msg_transcript := None |});
          (1%nat, {| msg_type := Some "input"; msg_data := Some "s"; msg_cols := None;
                     msg_rows := None; msg_language := None; msg_model := None;
                     msg_context := None; msg_audio := None; msg_transcript := None |})] ∧
  ∃ st', trace st' = trace two_clients ++ [PtyWrite "l"; PtyWrite "s"].
Proof.
  assert (Forall (λ i : sock * Msg, msg_type i.2 = Some "input")
    [(0%nat, {| msg_type := Some "input"; msg_data := Some "l"; msg_cols := None;
                msg_rows := None; msg_language := None; msg_model := None;
                msg_context := None; msg_audio := None; msg_transcript := None |});
     (1%nat, {| msg_type := Some "input"; msg_data := Some ""; msg_cols := None;
                msg_rows := None; msg_language := None; msg_model := None;
                msg_context := None; msg_audio := None; msg_transcript := None |});
     (1%nat, {| msg_type := Some "input"; msg_data := Some "s"; msg_cols := None;
                msg_rows := None; msg_language := None; msg_model := None;
                msg_context := None; msg_audio := None; msg_transcript := None |})])
    as Hin by (repeat constructor).
  split; [exact Hin |].
  destruct (input_written_in_arrival_order _ two_clients Hin)
    as (st' & _ & _ & _ & _ & Htr).
  exists st'. exact Htr.
Defined.

(** ** When the PTY is resized *)

Lemma on_message_body_parsed ws msg :
  on_message_body ws (Parsed msg) = dispatch ws msg.
Proof. reflexivity. Qed.

Lemma stdout_onResize_trace columns rows_ st :
  trace (stdout_onResize columns rows_ st) = trace st ∧
  ptyProcess (pty (stdout_onResize columns rows_ st)) = ptyProcess (pty st).
Proof.
  unfold stdout_onResize, onLocalResize, relay_applyMinSize. simpl.
  by destruct (truthy_num columns && truthy_num rows_).
Qed.

Lemma step_without_resize ev :
  may_reconcile ev = false →
  preserves (emits (λ e, resizes_pty e = false)) (step ev).
Proof.
  intros Hev. destruct ev as [| ws raw | | | | | | | | | | |]; try discriminate; unfold step.
  - unfold on_connection. frame; done.
  - unfold on_message. destruct raw as [| | msg].
    + intros st. simpl. by apply emits_emit.
    + intros st. simpl. by apply emits_emit.
    + rewrite on_message_body_parsed. simpl in Hev.
      unfold dispatch. cbv zeta. rewrite Hev. cbn [andb when].
      unfold handle_asr_start, handle_asr_audio, handle_asr_stop,
        handle_claude_process.
      frame; done.
  - frame; done.
  - unfold asr_on_open, correction_on_open. frame; done.
  - unfold asr_on_message, correction_on_message, gateway_parse. frame; done.
  - unfold asr_on_error, correction_on_error. frame; done.
  - unfold asr_on_close. frame; done.
  - unfold run_timer, close_asr_after_stop. frame; done.
  - unfold pty_onData, run_dataCallback. frame; done.
  - unfold pty_onExit, run_exitCallback, cleanup, on_exit_broadcast. frame; done.
  - apply preserves_modify. intros st. apply emits_same_trace.
    apply stdout_onResize_trace.
  - change stdin_onData with writeToPTY. frame; done.
Qed.

(** X3: the PTY is resized only when a client disconnects or sends a
    [resize] message.  No other event resizes it: not a new connection,
    although the 80x24 it registers may be smaller than the current size,
    and not a resize of the local terminal, which only records the new
    local size. *)
Theorem resized_only_on_resize_or_disconnect (ev : Event) (st : Relay) :
  may_reconcile ev = false →
  Forall (λ e, resizes_pty e = false) (since st (final (step ev st))).
Proof.
  intros Hev. destruct (step_without_resize ev Hev st) as (l & Hl & Hno).
  by erewrite since_app.
Qed.

Lemma resized_only_on_resize_or_disconnect_witness :
  may_reconcile (Connection 2%nat 3) = false ∧
  Forall (λ e, resizes_pty e = false)
         (since two_clients (final (step (Connection 2%nat 3) two_clients))).
Proof.
  split; [reflexivity |].
  by apply resized_only_on_resize_or_disconnect.
Defined.

Example local_resize_does_not_reconcile :
  let st := final (step (StdoutResize (Some 40) (Some 10)) two_clients) in
  getLocalSize st = (40, 10) ∧
  ptyProcess (pty st) = Some {| pty_cols := 80; pty_rows := 24 |} ∧
  trace st = trace two_clients.
Proof. vm_compute. done. Qed.

(** ** The sizes asked of the PTY *)

Global Instance safe_resizes_preorder : PreOrder safe_resizes.
Proof.
  split.
  - intros st Hst. split; [exact Hst | reflexivity].
  - intros a b c Hab Hbc Ha. destruct (Hab Ha) as [Hb Eab].
    destruct (Hbc Hb) as [Hc Ebc]. split; [exact Hc | by etrans].
Qed.

Lemma safe_lift st st' :
  localCols (pty st') = localCols (pty st) →
  localRows (pty st') = localRows (pty st) →
  emits (λ e, positive_resize e = true) st st' →
  safe_resizes st st'.
Proof.
  intros Hc Hr He [H1 H2]. split; [| exact He].
  unfold local_positive. by rewrite Hc, Hr.
Qed.

Lemma resizePTY_local c r st :
  localCols (pty (resizePTY c r st)) = localCols (pty st) ∧
  localRows (pty (resizePTY c r st)) = localRows (pty st).
Proof. unfold resizePTY. by destruct (ptyProcess (pty st)). Qed.

Lemma safe_applyMinSize st : safe_resizes st (applyMinSize st).
Proof.
  intros [Hc Hr]. unfold applyMinSize. case_bool_decide.
  - simpl. split.
    + unfold local_positive.
      by destruct (resizePTY_local (localCols (pty st)) (localRows (pty st)) st)
        as [-> ->].
    + apply emits_resizePTY. simpl. apply andb_true_iff. split; by apply Z.ltb_lt.
  - destruct (calculateMinSize st) as [c r].
    destruct ((0 <? c) && (0 <? r)) eqn:Hpos; [| split; [done | reflexivity]].
    split.
    + unfold local_positive. by destruct (resizePTY_local c r st) as [-> ->].
    + by apply emits_resizePTY.
Qed.

Ltac safe_leaf :=
  first
    [ apply safe_applyMinSize
    | apply safe_lift;
      [ unfold on_exit_broadcast, on_data_broadcast, gw_close, setTimeout, killPTY,
          writeToPTY, ws_send, set_gw_readyState, set_readyState, update_clientInfo;
        rewrite ?broadcast_pty, ?stopWebServer_pty; repeat case_match; reflexivity
      | unfold on_exit_broadcast, on_data_broadcast, gw_close, setTimeout, killPTY,
          writeToPTY, ws_send, set_gw_readyState, set_readyState, update_clientInfo;
        rewrite ?broadcast_pty, ?stopWebServer_pty; repeat case_match; reflexivity
      | emits_leaf; done ] ].

Lemma step_safe_resizes ev :
  terminal_nonneg ev = true → preserves safe_resizes (step ev).
Proof.
  intros Hev. destruct ev; unfold step.
  - unfold on_connection. frame_with safe_leaf.
  - unfold on_message, on_message_body, JSON_parse, deref, handle_asr_start,
      handle_asr_audio, handle_asr_stop, handle_claude_process, handle_resize.
    frame_with safe_leaf.
  - unfold on_close. frame_with safe_leaf.
  - frame_with safe_leaf.
  - unfold asr_on_open, correction_on_open. frame_with safe_leaf.
  - unfold asr_on_message, correction_on_message, gateway_parse.
    frame_with safe_leaf.
  - unfold asr_on_error, correction_on_error. frame_with safe_leaf.
  - unfold asr_on_close. frame_with safe_leaf.
  - unfold run_timer, close_asr_after_stop. frame_with safe_leaf.
  - unfold pty_onData, run_dataCallback. frame_with safe_leaf.
  - unfold pty_onExit, run_exitCallback, cleanup. frame_with safe_leaf.
  - apply preserves_modify. intros st [Hc Hr].
    split; [| apply emits_same_trace, stdout_onResize_trace].
    unfold stdout_onResize, onLocalResize, relay_applyMinSize, local_positive. simpl.
    simpl in Hev. apply andb_true_iff in Hev as [Hcn Hrn].
    destruct columns as [c|], rows_ as [r|]; simpl;
      rewrite ?andb_false_r; try done.
    destruct (Z.eqb_spec c 0), (Z.eqb_spec r 0); simpl; try done.
    simpl in Hcn, Hrn. apply Z.leb_le in Hcn, Hrn. lia.
  - change stdin_onData with writeToPTY. frame_with safe_leaf.
Qed.

Lemma run_safe_resizes evs :
  Forall (λ ev, terminal_nonneg ev = true) evs → preserves safe_resizes (run evs).
Proof.
  induction 1 as [|ev evs Hev _ IH].
  - apply (preserves_ret _ ()).
  - change (run (ev :: evs)) with (step ev ≫= λ _, run evs).
    apply preserves_bind; [apply _ | by apply step_safe_resizes | intros _; exact IH].
Qed.

Lemma or_num_positive (n : option Z) (d : Z) :
  nonneg n = true → 0 < d → 0 < or_num n d.
Proof.
  intros Hn Hd. destruct n as [n|]; simpl in *; [| done].
  destruct (Z.eqb_spec n 0); [done |]. apply Z.leb_le in Hn. lia.
Qed.

(** X4: as long as the local terminal reports no negative dimension, the
    relay never asks the PTY for a size with a column or row count that is
    zero or negative, whatever sizes the clients report and whatever else
    happens. *)
Theorem pty_resized_to_positive_sizes_only (columns rows_ : option Z)
    (evs : list Event) :
  nonneg columns = true → nonneg rows_ = true →
  Forall (λ ev, terminal_nonneg ev = true) evs →
  Forall (λ e, positive_resize e = true)
         (trace (final (run evs (startSession columns rows_ init)))) ∧
  local_positive (final (run evs (startSession columns rows_ init))).
Proof.
  intros Hc Hr Hevs.
  assert (local_positive (startSession columns rows_ init)) as Hstart.
  { split; simpl; by repeat apply or_num_positive. }
  destruct (run_safe_resizes evs Hevs (startSession columns rows_ init) Hstart)
    as [Hpos (l & Hl & Hall)].
  split; [| exact Hpos]. rewrite Hl. simpl. exact Hall.
Qed.

Lemma pty_resized_to_positive_sizes_only_witness :
  nonneg (Some 120) = true ∧ nonneg None = true ∧
  Forall (λ ev, terminal_nonneg ev = true)
         [Connection 0%nat 1; Message 0%nat (Parsed (resize_msg (-5) 0));
          Message 0%nat (Parsed (resize_msg (-5) 7)); StdoutResize (Some 0) (Some 3);
          Close 0%nat] ∧
  Forall (λ e, positive_resize e = true)
         (trace (final (run [Connection 0%nat 1;
                             Message 0%nat (Parsed (resize_msg (-5) 0));
                             Message 0%nat (Parsed (resize_msg (-5) 7));
                             StdoutResize (Some 0) (Some 3); Close 0%nat]
                            (startSession (Some 120) None init)))).
Proof.
  assert (Forall (λ ev, terminal_nonneg ev = true)
            [Connection 0%nat 1; Message 0%nat (Parsed (resize_msg (-5) 0));
             Message 0%nat (Parsed (resize_msg (-5) 7)); StdoutResize (Some 0) (Some 3);
             Close 0%nat]) as Hevs by (repeat constructor).
  split; [reflexivity |]. split; [reflexivity |]. split; [exact Hevs |].
  exact (proj1 (pty_resized_to_positive_sizes_only (Some 120) None _ eq_refl eq_refl Hevs)).
Defined.

Example negative_report_is_stored_and_ignored :
  let st := final (run [Connection 0%nat 1; Connection 1%nat 2;
                        Message 0%nat (Parsed (resize_msg (-5) 7));
                        Message 1%nat (Parsed (resize_msg 100 30))]
                       (startSession (Some 120) (Some 40) init)) in
  (cols (clientInfo_of 0%nat st), rows (clientInfo_of 0%nat st)) = (-5, 7) ∧
  ptyProcess (pty st) = Some {| pty_cols := 100; pty_rows := 30 |}.
Proof. vm_compute. done. Qed.

(** ** Reconciling twice *)

Lemma applyMinSize_requested st :
  applyMinSize st =
    match requested_size st with
    | Some (c, r) => resizePTY c r st
    | None => st
    end.
Proof.
  unfold applyMinSize, requested_size. case_bool_decide.
  - by destruct (getLocalSize st).
  - destruct (calculateMinSize st) as [c r]. by destruct ((0 <? c) && (0 <? r)).
Qed.

Lemma requested_size_resizePTY c r st :
  requested_size (resizePTY c r st) = requested_size st.
Proof.
  unfold requested_size, calculateMinSize, getLocalSize, resizePTY.
  by destruct (ptyProcess (pty st)).
Qed.

(** X5: reconciliation is not deduplicated, and harmless when repeated: a
    second reconciliation in the same state asks the PTY for the same
    size again and leaves it, the registry and the sockets as the first
    one left them. *)
Theorem applyMinSize_twice (st : Relay) :
  pty (applyMinSize (applyMinSize st)) = pty (applyMinSize st) ∧
  web (applyMinSize (applyMinSize st)) = web st ∧
  env (applyMinSize (applyMinSize st)) = env st ∧
  trace (applyMinSize (applyMinSize st)) =
    trace st ++ since st (applyMinSize st) ++ since st (applyMinSize st).
Proof.
  rewrite (applyMinSize_requested (applyMinSize st)).
  rewrite (applyMinSize_requested st).
  destruct (requested_size st) as [[c r]|] eqn:Hreq.
  - rewrite requested_size_resizePTY, Hreq.
    unfold since, resizePTY.
    destruct (ptyProcess (pty st)) eqn:Hp; simpl; rewrite ?Hp; simpl.
    + rewrite drop_app_length. by rewrite <- app_assoc.
    + rewrite drop_all. by rewrite app_nil_r.
  - rewrite Hreq. unfold since. rewrite drop_all. by rewrite app_nil_r.
Qed.

Example redundant_resize_is_repeated :
  since two_clients
    (final (run [Message 1%nat (Parsed (resize_msg 100 30));
                 Message 1%nat (Parsed (resize_msg 100 30))] two_clients)) =
  [PtyResize 80 24; PtyResize 80 24].
Proof. vm_compute. reflexivity. Qed.

(** ** The ids of the clients *)

Global Instance keeps_ids_preorder : PreOrder keeps_ids.
Proof.
  split.
  - intros st. split; [done |]. split; [done | by right].
  - intros a b c (Hid1 & Hsub1 & Hcnt1) (Hid2 & Hsub2 & Hcnt2).
    split; [intros ws; by rewrite Hid2, Hid1 |].
    split; [by etrans |].
    destruct Hcnt2 as [Hnil|Hcnt2]; [by left |].
    destruct Hcnt1 as [Hnil|Hcnt1]; [| right; congruence].
    left. rewrite Hnil in Hsub2. by apply sublist_nil_r in Hsub2.
Qed.

Lemma keeps_ids_same_web st st' : web st' = web st → keeps_ids st st'.
Proof.
  intros Hweb. unfold keeps_ids, clientInfo_of. rewrite Hweb.
  split; [done |]. split; [done | by right].
Qed.

Lemma keeps_ids_update ws f st :
  (∀ ci, id (f ci) = id ci) → keeps_ids st (update_clientInfo ws f st).
Proof.
  intros Hf. unfold keeps_ids, clientInfo_of, update_clientInfo. simpl.
  split; [| split; [done | by right]].
  intros ws'. destruct (decide (ws = ws')) as [->|Hne].
  - by rewrite fn_lookup_insert.
  - by rewrite fn_lookup_insert_ne.
Qed.

Lemma stopWebServer_clientInfos st :
  clientInfos (web (stopWebServer st)) = clientInfos (web st) ∧
  connectedClients (web (stopWebServer st)) = [].
Proof.
  unfold stopWebServer. simpl. split; [| done].
  generalize (filter (λ kv, kv.2 ≠ CLOSED) (map_to_list (clientSockets (env st)))).
  intros l. revert st. induction l as [|kv l IH]; intros st; simpl; [done |].
  by rewrite IH.
Qed.

Ltac ids_leaf :=
  first
    [ apply keeps_ids_update; intros []; reflexivity
    | apply keeps_ids_same_web;
      unfold on_exit_broadcast, on_data_broadcast, gw_close, setTimeout, killPTY,
        writeToPTY, ws_send, set_gw_readyState, set_readyState, stdout_onResize,
        onLocalResize, relay_applyMinSize, resizePTY;
      rewrite ?(proj1 (applyMinSize_web_env _)), ?broadcast_web;
      repeat case_match; reflexivity
    | lazymatch goal with
      | |- keeps_ids ?st (stopWebServer ?st) =>
          destruct (stopWebServer_clientInfos st) as [Hci Hnil];
          unfold keeps_ids, clientInfo_of; rewrite Hci, Hnil;
          split; [done |]; split; [apply sublist_nil_l | by left]
      | |- keeps_ids ?st (set_web (Map_delete ?ws) ?st) =>
          unfold keeps_ids, clientInfo_of; simpl;
          split; [done |]; split; [apply sublist_filter; apply _ | by right]
      | |- keeps_ids ?st (on_data_broadcast ?d ?st) =>
          unfold keeps_ids, clientInfo_of, on_data_broadcast;
          rewrite broadcast_web; simpl;
          split; [done |]; split; [done | by right]
      end ].

Lemma step_keeps_ids ev :
  match ev with Connection _ _ => False | _ => True end →
  preserves keeps_ids (step ev).
Proof.
  destruct ev; intros Hev; try (destruct Hev); unfold step.
  - unfold on_message, on_message_body, JSON_parse, deref, handle_asr_start,
      handle_asr_audio, handle_asr_stop, handle_claude_process, handle_resize.
    frame_with ids_leaf.
  - unfold on_close. frame_with ids_leaf.
  - frame_with ids_leaf.
  - unfold asr_on_open, correction_on_open. frame_with ids_leaf.
  - unfold asr_on_message, correction_on_message, gateway_parse.
    frame_with ids_leaf.
  - unfold asr_on_error, correction_on_error. frame_with ids_leaf.
  - unfold asr_on_close. frame_with ids_leaf.
  - unfold run_timer, close_asr_after_stop. frame_with ids_leaf.
  - unfold pty_onData, run_dataCallback. frame_with ids_leaf.
  - unfold pty_onExit, run_exitCallback, cleanup. frame_with ids_leaf.
  - frame_with ids_leaf.
  - change stdin_onData with writeToPTY. frame_with ids_leaf.
Qed.

Lemma keeps_ids_distinct st st' :
  keeps_ids st st' → registry_ids_distinct st → registry_ids_distinct st'.
Proof.
  intros (Hid & Hsub & Hcnt) (Hnd & Hle & Hinj).
  split; [by eapply sublist_NoDup |]. split.
  - intros ws Hws. rewrite Hid.
    destruct Hcnt as [Hnil | ->]; [rewrite Hnil in Hws; by apply elem_of_nil in Hws |].
    apply Hle. by eapply elem_of_sublist.
  - intros ws ws' Hws Hws'. rewrite !Hid.
    apply Hinj; by eapply elem_of_sublist.
Qed.

Lemma connection_ids_distinct ws now st :
  registry_ids_distinct st →
  registry_ids_distinct (final (step (Connection ws now) st)) ∧
  id (clientInfo_of ws (final (step (Connection ws now) st))) =
    (now, S (clientIdCounter (web st))) ∧
  ws ∈ connectedClients (web (final (step (Connection ws now) st))).
Proof.
  intros (Hnd & Hle & Hinj).
  assert (∃ st', step (Connection ws now) st = Normal () st' ∧
            connectedClients (web st') =
              (if bool_decide (ws ∈ connectedClients (web st))
               then connectedClients (web st) else connectedClients (web st) ++ [ws]) ∧
            clientIdCounter (web st') = S (clientIdCounter (web st)) ∧
            id (clientInfo_of ws st') = (now, S (clientIdCounter (web st))) ∧
            (∀ ws', ws' ≠ ws → clientInfo_of ws' st' = clientInfo_of ws' st))
    as (st' & -> & Hreg & Hcnt & Hnew & Hold).
  { unfold step, on_connection, mbind, M_bind, modify, generateClientId, get, when.
    simpl. case_bool_decide; simpl.
    - eexists. split; [reflexivity |]. unfold clientInfo_of. simpl.
      rewrite fn_lookup_insert. repeat split; try done.
      intros ws' Hne. by rewrite fn_lookup_insert_ne.
    - eexists. split; [reflexivity |]. unfold clientInfo_of. simpl.
      rewrite fn_lookup_insert. repeat split; try done.
      intros ws' Hne. by rewrite fn_lookup_insert_ne. }
  simpl.
  assert (∀ ws', ws' ∈ connectedClients (web st') →
                 ws' = ws ∨ (ws' ≠ ws ∧ ws' ∈ connectedClients (web st))) as Hmem.
  { intros ws' Hin. destruct (decide (ws' = ws)) as [|Hne]; [by left | right].
    split; [done |]. rewrite Hreg in Hin. case_bool_decide; [done |].
    apply elem_of_app in Hin as [Hin|Hin]; [done |].
    apply list_elem_of_singleton in Hin. done. }
  split; [| split; [exact Hnew |]].
  - split; [| split].
    + rewrite Hreg. case_bool_decide as Hin; [done |].
      apply list.NoDup_app. split; [done |]. split; [| apply NoDup_singleton].
      intros x Hx Hx'. apply list_elem_of_singleton in Hx'. by subst.
    + intros ws' Hin. rewrite Hcnt.
      destruct (Hmem ws' Hin) as [-> | [Hne Hin']].
      * by rewrite Hnew.
      * rewrite (Hold ws' Hne). specialize (Hle ws' Hin'). lia.
    + intros a b Ha Hb Heq.
      destruct (Hmem a Ha) as [-> | [Hna Ha']];
        destruct (Hmem b Hb) as [-> | [Hnb Hb']]; try done.
      * rewrite Hnew, (Hold b Hnb) in Heq. simpl in Heq.
        specialize (Hle b Hb'). lia.
      * rewrite Hnew, (Hold a Hna) in Heq. simpl in Heq.
        specialize (Hle a Ha'). lia.
      * rewrite (Hold a Hna), (Hold b Hnb) in Heq. by apply Hinj.
  - rewrite Hreg. case_bool_decide; [done |].
    apply elem_of_app. right. by apply list_elem_of_singleton.
Qed.

Lemma run_ids_distinct evs st :
  registry_ids_distinct st → registry_ids_distinct (final (run evs st)).
Proof.
  revert st. induction evs as [|ev evs IH]; intros st Hst; [exact Hst |].
  change (run (ev :: evs)) with (step ev ≫= λ _, run evs).
  unfold mbind, M_bind.
  assert (registry_ids_distinct (final (step ev st))) as Hstep.
  { destruct ev;
      try (eapply keeps_ids_distinct; [by apply step_keeps_ids | exact Hst]).
    by apply connection_ids_distinct. }
  destruct (step ev st); simpl in *; [by apply IH | done | done].
Qed.

(** X6: the clients in the registry are always distinct sockets with
    pairwise distinct ids: every connection draws a fresh value of the
    counter, and nothing but the connection handler writes an id. *)
Theorem client_ids_unique (columns rows_ : option Z) (evs : list Event) :
  let st := final (run evs (startSession columns rows_ init)) in
  NoDup (connectedClients (web st)) ∧
  ∀ ws ws', ws ∈ connectedClients (web st) → ws' ∈ connectedClients (web st) →
            id (clientInfo_of ws st) = id (clientInfo_of ws' st) → ws = ws'.
Proof.
  intros st.
  assert (registry_ids_distinct st) as (Hnd & _ & Hinj).
  { apply run_ids_distinct. split; [constructor |].
    split; intros ws; [| intros ws']; intros Hws; by apply elem_of_nil in Hws. }
  split; [exact Hnd |].
  intros ws ws' Hws Hws' Heq. apply Hinj; [done | done | by rewrite Heq].
Qed.

Example ids_of_two_clients :
  map (λ ws, id (clientInfo_of ws two_clients)) (connectedClients (web two_clients)) =
  [(1, 1%nat); (2, 2%nat)].
Proof. vm_compute. reflexivity. Qed.

(** ** Whom an event reaches *)

Lemma bind_ret {A B} (a : A) (k : A → M B) : (mret a ≫= k) = k a.
Proof. reflexivity. Qed.

Lemma sent_to_none ws l :
  Forall (λ e, not_sent_to ws e = true) l → sent_to ws l = [].
Proof.
  induction 1 as [|e l He _ IH]; [done |].
  destruct e; simpl in *; try exact IH.
  case_bool_decide; [discriminate | exact IH].
Qed.

Lemma not_sent_to_other ws ws' m : ws' ≠ ws → not_sent_to ws (WsSend ws' m) = true.
Proof. intros Hne. simpl. by rewrite bool_decide_eq_false_2. Qed.

Lemma on_message_reaches_nobody ws ws' raw :
  preserves (emits (λ e, not_sent_to ws e = true)) (on_message ws' raw).
Proof.
  unfold on_message, on_message_body, JSON_parse, deref, handle_asr_start,
    handle_asr_audio, handle_asr_stop, handle_claude_process, handle_resize.
  frame; done.
Qed.

Lemma step_reaches_addressed_only ev st ws :
  addressed ev st ws = false →
  emits (λ e, not_sent_to ws e = true) st (final (step ev st)).
Proof.
  intros Hev.
  assert (∀ m : M unit, preserves (emits (λ e, not_sent_to ws e = true)) m →
                        emits (λ e, not_sent_to ws e = true) st (final (m st)))
    as Happ by (intros m Hm; apply Hm).
  destruct ev; simpl in Hev; try discriminate; unfold step.
  - apply bool_decide_eq_false in Hev.
    apply Happ. unfold on_connection. frame; try done. by apply not_sent_to_other.
  - apply on_message_reaches_nobody.
  - apply Happ. unfold on_close. frame; done.
  - apply Happ. frame; done.
  - apply Happ. unfold asr_on_open, correction_on_open. frame; done.
  - apply bool_decide_eq_false in Hev. unfold gateway_owner in Hev.
    unfold mbind at 1, M_bind, get.
    destruct (gateways (env st) !! h) as [g|]; [| reflexivity].
    destruct (gw_kind g) as [ws' l m | ws' t c].
    + assert (ws' ≠ ws) as Hne by congruence.
      apply Happ. unfold asr_on_message, gateway_parse.
      frame; try done; by apply not_sent_to_other.
    + assert (ws' ≠ ws) as Hne by congruence.
      apply Happ. unfold correction_on_message, gateway_parse.
      frame; try done; by apply not_sent_to_other.
  - apply bool_decide_eq_false in Hev. unfold gateway_owner in Hev.
    unfold mbind at 1, M_bind, get.
    destruct (gateways (env st) !! h) as [g|]; [| reflexivity].
    destruct (gw_kind g) as [ws' l m | ws' t c].
    + assert (ws' ≠ ws) as Hne by congruence.
      apply Happ. unfold asr_on_error. frame; try done; by apply not_sent_to_other.
    + assert (ws' ≠ ws) as Hne by congruence.
      apply Happ. unfold correction_on_error.
      frame; try done; by apply not_sent_to_other.
  - apply Happ. unfold asr_on_close. frame; done.
  - apply Happ. unfold run_timer, close_asr_after_stop. frame; done.
  - apply Happ. frame; done.
  - apply Happ. change stdin_onData with writeToPTY. frame; done.
Qed.

(** X7: what happens on one client's behalf is never written to another
    client.  A client is sent something only when it connects, when a
    gateway socket that its own connection created delivers a message or
    an error, or when the PTY produces output or exits; the messages of
    the other clients, their disconnects, the timers and the gateway
    sockets of the others never write to it. *)
Theorem clients_are_isolated (ev : Event) (st : Relay) (ws : sock) :
  addressed ev st ws = false →
  sent_to ws (since st (final (step ev st))) = [].
Proof.
  intros Hev. destruct (step_reaches_addressed_only ev st ws Hev) as (l & Hl & Hno).
  erewrite since_app by exact Hl. by apply sent_to_none.
Qed.

Lemma clients_are_isolated_witness :
  addressed (GatewayMessage 0%nat (GwParsed (gw_typed "partial_result")))
            (final (step (Connection 1%nat 9) ready_session)) 1%nat = false ∧
  sent_to 1%nat
    (since (final (step (Connection 1%nat 9) ready_session))
       (final (step (GatewayMessage 0%nat (GwParsed (gw_typed "partial_result")))
                    (final (step (Connection 1%nat 9) ready_session))))) = [].
Proof.
  assert (addressed (GatewayMessage 0%nat (GwParsed (gw_typed "partial_result")))
            (final (step (Connection 1%nat 9) ready_session)) 1%nat = false) as Hev
    by (vm_compute; reflexivity).
  split; [exact Hev |]. by apply clients_are_isolated.
Defined.

(** ** Readiness of a transcription session *)

Global Instance keeps_unready_preorder ws : PreOrder (keeps_unready ws).
Proof.
  split.
  - intros st H. exact H.
  - intros a b c Hab Hbc H. by apply Hbc, Hab.
Qed.

Lemma keeps_unready_same_infos ws st st' :
  clientInfos (web st') = clientInfos (web st) → keeps_unready ws st st'.
Proof. intros Heq. unfold keeps_unready, clientInfo_of. by rewrite Heq. Qed.

Lemma keeps_unready_update ws ws' f st :
  (∀ ci, sessionReady ci = false → sessionReady (f ci) = false) →
  keeps_unready ws st (update_clientInfo ws' f st).
Proof.
  intros Hf. unfold keeps_unready, clientInfo_of, update_clientInfo. simpl.
  destruct (decide (ws' = ws)) as [->|Hne].
  - rewrite fn_lookup_insert. apply Hf.
  - by rewrite fn_lookup_insert_ne.
Qed.

Ltac unready_leaf :=
  first
    [ apply keeps_unready_update; intros []; simpl; done
    | lazymatch goal with
      | |- keeps_unready ?ws ?st (set_web (Map_set ?ws' ?info) ?st) =>
          unfold keeps_unready, clientInfo_of; simpl;
          destruct (decide (ws' = ws)) as [->|?];
          [by rewrite fn_lookup_insert | by rewrite fn_lookup_insert_ne]
      | |- keeps_unready ?ws ?st (stopWebServer ?st) =>
          apply keeps_unready_same_infos, stopWebServer_clientInfos
      end
    | apply keeps_unready_same_infos;
      unfold on_exit_broadcast, on_data_broadcast, gw_close, setTimeout, killPTY,
        writeToPTY, ws_send, set_gw_readyState, set_readyState, stdout_onResize,
        onLocalResize, relay_applyMinSize, resizePTY, Map_delete;
      rewrite ?(proj1 (applyMinSize_web_env _)), ?broadcast_web;
      repeat case_match; reflexivity ].

Lemma step_keeps_unready ws ev :
  confirms_ready ev = false → preserves (keeps_unready ws) (step ev).
Proof.
  intros Hev. destruct ev; unfold step.
  - unfold on_connection. frame_with unready_leaf.
  - unfold on_message, on_message_body, JSON_parse, deref, handle_asr_start,
      handle_asr_audio, handle_asr_stop, handle_claude_process, handle_resize.
    frame_with unready_leaf.
  - unfold on_close. frame_with unready_leaf.
  - frame_with unready_leaf.
  - unfold asr_on_open, correction_on_open. frame_with unready_leaf.
  - apply preserves_bind;
      [typeclasses eauto | apply preserves_get; typeclasses eauto | intros st0].
    destruct (gateways (env st0) !! h) as [g|]; [| frame_with unready_leaf].
    destruct (gw_kind g) as [ws' l m | ws' t c].
    + destruct raw as [| | response].
      * intros st Hst. exact Hst.
      * intros st Hst. exact Hst.
      * simpl in Hev. unfold asr_on_message, gateway_parse.
        rewrite bind_ret. cbv zeta. rewrite Hev.
        destruct (type_is (resp_type response) "connected"); frame_with unready_leaf.
    + unfold correction_on_message, gateway_parse. frame_with unready_leaf.
  - unfold asr_on_error, correction_on_error. frame_with unready_leaf.
  - unfold asr_on_close. frame_with unready_leaf.
  - unfold run_timer, close_asr_after_stop. frame_with unready_leaf.
  - unfold pty_onData, run_dataCallback. frame_with unready_leaf.
  - unfold pty_onExit, run_exitCallback, cleanup. frame_with unready_leaf.
  - frame_with unready_leaf.
  - change stdin_onData with writeToPTY. frame_with unready_leaf.
Qed.

Lemma run_keeps_unready ws evs :
  Forall (λ ev, confirms_ready ev = false) evs →
  preserves (keeps_unready ws) (run evs).
Proof.
  induction 1 as [|ev evs Hev _ IH].
  - apply (preserves_ret _ ()).
  - change (run (ev :: evs)) with (step ev ≫= λ _, run evs).
    apply preserves_bind; [apply _ | by apply step_keeps_unready | intros _; exact IH].
Qed.

Lemma on_message_asr_start ws msg st :
  msg_type msg = Some "asr_start" →
  on_message ws (Parsed msg) st =
    Normal () (update_clientInfo ws
                 (λ ci, with_terminalContext (or_str (msg_context msg) "")
                          (with_audioChunkCount 0
                             (with_sessionReady false
                                (with_asrWs (Some (nextGateway (env st))) ci))))
                 (emit (GwNew (nextGateway (env st)))
                    (set_env (λ e, with_nextGateway (S (nextGateway (env st)))
                       (with_gateways
                          (<[nextGateway (env st) :=
                               {| gw_kind := asrGateway ws (msg_language msg)
                                                        (msg_model msg);
                                  gw_readyState := CONNECTING |}]> (gateways e)) e))
                       st))).
Proof.
  intros Hty. unfold on_message, try_catch, on_message_body, JSON_parse, deref.
  unfold when, mbind, M_bind, mret, M_ret. rewrite Hty. reflexivity.
Qed.

Lemma asr_audio_unready ws msg st :
  msg_type msg = Some "asr_audio" →
  sessionReady (clientInfo_of ws st) = false →
  on_message ws (Parsed msg) st = Normal () st.
Proof.
  intros Hty Hnot. rewrite (on_message_asr_audio ws msg st Hty).
  unfold try_catch, handle_asr_audio, mbind, M_bind, get.
  destruct (asrWs (clientInfo_of ws st)); [| reflexivity].
  by rewrite Hnot, andb_false_r.
Qed.

(** X8: from an [asr_start] on, the audio chunks of a client are dropped
    for as long as no gateway message [asr_connected] has arrived,
    whatever else happens in between: audio never reaches the gateway ahead
    of the confirmation, not even once the gateway socket is open. *)
Theorem audio_dropped_until_confirmed (ws : sock) (start audio : Msg)
    (evs : list Event) (st : Relay) :
  msg_type start = Some "asr_start" →
  msg_type audio = Some "asr_audio" →
  Forall (λ ev, confirms_ready ev = false) evs →
  let st1 := final (run (Message ws (Parsed start) :: evs) st) in
  sessionReady (clientInfo_of ws st1) = false ∧
  step (Message ws (Parsed audio)) st1 = Normal () st1.
Proof.
  intros Hstart Haudio Hevs st1.
  assert (sessionReady (clientInfo_of ws st1) = false) as Hnot.
  { unfold st1.
    change (run (Message ws (Parsed start) :: evs))
      with (step (Message ws (Parsed start)) ≫= λ _, run evs).
    unfold mbind, M_bind, step. rewrite (on_message_asr_start ws start st Hstart).
    apply (run_keeps_unready ws evs Hevs).
    unfold clientInfo_of, update_clientInfo. simpl. by rewrite fn_lookup_insert. }
  split; [exact Hnot |]. by apply asr_audio_unready.
Qed.

Lemma audio_dropped_until_confirmed_witness :
  msg_type (typed_msg "asr_start") = Some "asr_start" ∧
  msg_type (audio_msg "AAEC") = Some "asr_audio" ∧
  Forall (λ ev, confirms_ready ev = false)
         [GatewayOpen 0%nat; GatewayMessage 0%nat (GwParsed (gw_typed "connected"));
          Message 0%nat (Parsed (audio_msg "AAAA"))] ∧
  step (Message 0%nat (Parsed (audio_msg "AAEC")))
       (final (run (Message 0%nat (Parsed (typed_msg "asr_start"))
                      :: [GatewayOpen 0%nat;
                          GatewayMessage 0%nat (GwParsed (gw_typed "connected"));
                          Message 0%nat (Parsed (audio_msg "AAAA"))])
                   (final (step (Connection 0%nat 1) (startSession None None init)))))
  = Normal ()
      (final (run (Message 0%nat (Parsed (typed_msg "asr_start"))
                      :: [GatewayOpen 0%nat;
                          GatewayMessage 0%nat (GwParsed (gw_typed "connected"));
                          Message 0%nat (Parsed (audio_msg "AAAA"))])
                   (final (step (Connection 0%nat 1) (startSession None None init))))).
Proof.
  assert (Forall (λ ev, confirms_ready ev = false)
            [GatewayOpen 0%nat; GatewayMessage 0%nat (GwParsed (gw_typed "connected"));
             Message 0%nat (Parsed (audio_msg "AAAA"))]) as Hevs
    by (repeat constructor).
  split; [reflexivity |]. split; [reflexivity |]. split; [exact Hevs |].
  exact (proj2 (audio_dropped_until_confirmed 0%nat (typed_msg "asr_start")
                  (audio_msg "AAEC") _ _ eq_refl eq_refl Hevs)).
Defined.

(** ** The life of a gateway socket *)

Lemma gw_readyState_lookup h g st :
  gateways (env st) !! h = Some g → gw_readyState_of h st = gw_readyState g.
Proof. intros Hg. unfold gw_readyState_of. by rewrite Hg. Qed.

(** X9: an [asr_stop] that arrives while the gateway socket is still
    connecting forgets the socket without closing it: nothing is sent, no
    timer is set.  When the socket then opens, its [open] listener reads
    the forgotten reference and throws a [TypeError] outside any [try];
    no [start_asr] goes out and the socket stays open. *)
Theorem stop_before_open_breaks_open_listener (ws : sock) (h : handle)
    (stop : Msg) (language model : option string) (st : Relay) :
  msg_type stop = Some "asr_stop" →
  asrWs (clientInfo_of ws st) = Some h →
  gateways (env st) !! h =
    Some {| gw_kind := asrGateway ws language model; gw_readyState := CONNECTING |} →
  ∃ st1 st2,
    step (Message ws (Parsed stop)) st = Normal () st1 ∧
    trace st1 = trace st ∧ env st1 = env st ∧
    asrWs (clientInfo_of ws st1) = None ∧
    step (GatewayOpen h) st1 = Thrown TypeError st2 ∧
    trace st2 = trace st ∧
    gw_readyState_of h st2 = OPEN.
Proof.
  intros Hty Hasr Hgw.
  pose proof (gw_readyState_lookup _ _ _ Hgw) as Hrs. simpl in Hrs.
  eexists _, _. split.
  { unfold step. rewrite (on_message_asr_stop ws stop st Hty).
    unfold try_catch, handle_asr_stop, mbind, M_bind, get.
    rewrite Hasr, Hrs. reflexivity. }
  split; [reflexivity |]. split; [reflexivity |].
  split.
  { unfold clientInfo_of, update_clientInfo. simpl. by rewrite fn_lookup_insert. }
  split.
  { unfold step, mbind, M_bind, get, modify. simpl. rewrite Hgw. simpl.
    unfold asr_on_open, mbind, M_bind, get, clientInfo_of. simpl.
    rewrite fn_lookup_insert. reflexivity. }
  split; [reflexivity |].
  unfold gw_readyState_of, set_gw_readyState. simpl.
  by rewrite lookup_alter_eq, Hgw.
Qed.

Lemma stop_before_open_breaks_open_listener_witness :
  msg_type (typed_msg "asr_stop") = Some "asr_stop" ∧
  asrWs (clientInfo_of 0%nat connecting_session) = Some 0%nat ∧
  ∃ st1 st2,
    step (Message 0%nat (Parsed (typed_msg "asr_stop"))) connecting_session
      = Normal () st1 ∧
    trace st1 = trace connecting_session ∧ env st1 = env connecting_session ∧
    asrWs (clientInfo_of 0%nat st1) = None ∧
    step (GatewayOpen 0%nat) st1 = Thrown TypeError st2 ∧
    trace st2 = trace connecting_session ∧
    gw_readyState_of 0%nat st2 = OPEN.
Proof.
  split; [reflexivity |]. split; [reflexivity |].
  apply (stop_before_open_breaks_open_listener 0%nat 0%nat (typed_msg "asr_stop")
           None None connecting_session); reflexivity.
Defined.

(** The same stop once the socket is open is served. *)
Example stop_after_open_is_served :
  sent_to 0%nat (trace (final (step (Message 0%nat (Parsed (typed_msg "asr_stop")))
                                    ready_session))) = [asr_response asr_ready] ∧
  timers (env (final (step (Message 0%nat (Parsed (typed_msg "asr_stop")))
                           ready_session))) = [closeAsrAfterStop 0%nat].
Proof. split; vm_compute; reflexivity. Qed.

(** X10: the callback of the grace timer closes whatever socket the client
    holds when it fires.  If the client starts a new transcription before
    the timer of its [asr_stop] fires, the timer closes the new socket,
    with the code and reason of a normal stop, and forgets it; the socket
    that was asked to stop is left open, with no reference to it. *)
Theorem restart_within_grace_closes_new_socket (ws : sock) (h : handle)
    (stop start : Msg) (st : Relay) :
  msg_type stop = Some "asr_stop" →
  msg_type start = Some "asr_start" →
  asrWs (clientInfo_of ws st) = Some h →
  gw_readyState_of h st = OPEN →
  gateways (env st) !! nextGateway (env st) = None →
  ∃ st',
    run [Message ws (Parsed stop); Message ws (Parsed start);
         TimerFires (length (timers (env st)))] st = Normal () st' ∧
    since st st' =
      [GwSend h stop_asr; SetTimeout 1000 (closeAsrAfterStop ws);
       GwNew (nextGateway (env st));
       GwClose (nextGateway (env st)) (Some 1000) (Some "Recording stopped normally")] ∧
    asrWs (clientInfo_of ws st') = None ∧
    gw_readyState_of h st' = OPEN ∧
    gw_readyState_of (nextGateway (env st)) st' = CLOSING.
Proof.
  intros Hstop Hstart Hasr Hopen Hfresh.
  assert (h ≠ nextGateway (env st)) as Hne.
  { intros ->. unfold gw_readyState_of in Hopen. by rewrite Hfresh in Hopen. }
  set (st1 := setTimeout (closeAsrAfterStop ws) 1000 (emit (GwSend h stop_asr) st)).
  assert (step (Message ws (Parsed stop)) st = Normal () st1) as H1.
  { unfold step. rewrite (on_message_asr_stop ws stop st Hstop).
    unfold try_catch, handle_asr_stop, mbind, M_bind, get, gw_send.
    rewrite Hasr, Hopen. simpl. rewrite Hopen. reflexivity. }
  pose proof (on_message_asr_start ws start st1 Hstart) as H2.
  change (on_message ws (Parsed start) st1) with (step (Message ws (Parsed start)) st1) in H2.
  change (nextGateway (env st1)) with (nextGateway (env st)) in H2.
  match type of H2 with _ = Normal () ?s => set (st2 := s) in * end.
  assert (timers (env st2) !! length (timers (env st)) = Some (closeAsrAfterStop ws)) as Ht.
  { simpl. by rewrite list_lookup_middle. }
  assert (asrWs (clientInfo_of ws st2) = Some (nextGateway (env st))) as Hasr2.
  { unfold clientInfo_of. simpl. by rewrite fn_lookup_insert. }
  eexists. split.
  { cbv [run]. unfold mbind at 1, M_bind at 1. rewrite H1.
    unfold mbind at 1, M_bind at 1. rewrite H2.
    unfold mbind at 1, M_bind at 1.
    unfold step, mbind, M_bind, get, modify. rewrite Ht.
    unfold run_timer, close_asr_after_stop, mbind, M_bind, get, modify.
    change (asrWs (clientInfo_of ws ?s)) with (asrWs (clientInfo_of ws st2)).
    rewrite Hasr2. reflexivity. }
  split.
  { apply since_app. unfold gw_close. simpl.
    repeat case_match; simpl; rewrite <- ?app_assoc; reflexivity. }
  split.
  { unfold clientInfo_of, update_clientInfo. simpl. by rewrite fn_lookup_insert. }
  split.
  { unfold gw_close, gw_readyState_of, set_gw_readyState. simpl.
    rewrite lookup_insert_eq. simpl.
    rewrite lookup_alter_ne, lookup_insert_ne by done.
    exact Hopen. }
  unfold gw_close, gw_readyState_of, set_gw_readyState. simpl.
  rewrite lookup_insert_eq. simpl.
  by rewrite lookup_alter_eq, lookup_insert_eq.
Qed.

Lemma restart_within_grace_closes_new_socket_witness :
  msg_type (typed_msg "asr_stop") = Some "asr_stop" ∧
  msg_type (typed_msg "asr_start") = Some "asr_start" ∧
  asrWs (clientInfo_of 0%nat ready_session) = Some 0%nat ∧
  gw_readyState_of 0%nat ready_session = OPEN ∧
  gateways (env ready_session) !! nextGateway (env ready_session) = None ∧
  ∃ st',
    run [Message 0%nat (Parsed (typed_msg "asr_stop"));
         Message 0%nat (Parsed (typed_msg "asr_start"));
         TimerFires (length (timers (env ready_session)))] ready_session
      = Normal () st' ∧
    since ready_session st' =
      [GwSend 0%nat stop_asr; SetTimeout 1000 (closeAsrAfterStop 0%nat);
       GwNew (nextGateway (env ready_session));
       GwClose (nextGateway (env ready_session)) (Some 1000)
               (Some "Recording stopped normally")] ∧
    asrWs (clientInfo_of 0%nat st') = None ∧
    gw_readyState_of 0%nat st' = OPEN ∧
    gw_readyState_of (nextGateway (env ready_session)) st' = CLOSING.
Proof.
  split; [reflexivity |]. split; [reflexivity |]. split; [reflexivity |].
  split; [reflexivity |]. split; [reflexivity |].
  apply (restart_within_grace_closes_new_socket 0%nat 0%nat (typed_msg "asr_stop")
           (typed_msg "asr_start") ready_session); reflexivity.
Defined.

Lemma close_without_socket ws st :
  asrWs (clientInfo_of ws st) = None →
  Forall (λ e, closes_gateway e = false) (since st (final (step (Close ws) st))).
Proof.
  intros Hnone. unfold step, on_close, mbind, M_bind, modify, get.
  change (web (set_readyState ws CLOSED st)) with (web st).
  unfold Map_get. case_bool_decide.
  - change (clientInfos (web st) ws) with (clientInfo_of ws st).
    rewrite Hnone. cbv [mret M_ret].
    match goal with |- context [applyMinSize ?s] => set (st2 := s) end.
    assert (trace st2 = trace st) as Htr by reflexivity.
    unfold since. rewrite <- Htr.
    unfold applyMinSize, resizePTY.
    repeat case_match; simpl; rewrite ?drop_app_length, ?drop_all;
      repeat constructor.
  - simpl. unfold since. rewrite drop_all. constructor.
Qed.

(** X11: the [close] listener of a gateway socket clears the reference the
    client holds, whichever socket that reference names.  When a socket of
    an earlier transcription closes after the client has started a new
    one, the new socket is forgotten although it is untouched: the
    client's audio is dropped, and its disconnect closes no gateway
    socket. *)
Theorem stale_close_detaches_new_socket (ws : sock) (h h' : handle)
    (g : Gateway) (language model : option string) (audio : Msg) (st : Relay) :
  gateways (env st) !! h = Some g →
  gw_kind g = asrGateway ws language model →
  asrWs (clientInfo_of ws st) = Some h' →
  h' ≠ h →
  msg_type audio = Some "asr_audio" →
  ∃ st1,
    step (GatewayClose h) st = Normal () st1 ∧
    trace st1 = trace st ∧
    asrWs (clientInfo_of ws st1) = None ∧
    gw_readyState_of h' st1 = gw_readyState_of h' st ∧
    step (Message ws (Parsed audio)) st1 = Normal () st1 ∧
    Forall (λ e, closes_gateway e = false) (since st1 (final (step (Close ws) st1))).
Proof.
  intros Hg Hkind Hasr Hne Haudio.
  eexists. split.
  { unfold step, mbind, M_bind, get, modify. rewrite Hg, Hkind. reflexivity. }
  split; [reflexivity |].
  assert (∀ s, asrWs (clientInfo_of ws
            (update_clientInfo ws (λ ci, with_sessionReady false (with_asrWs None ci)) s))
          = None) as Hnone.
  { intros s. unfold clientInfo_of, update_clientInfo. simpl.
    by rewrite fn_lookup_insert. }
  split; [apply Hnone |].
  split.
  { unfold gw_readyState_of, set_gw_readyState. simpl.
    by rewrite lookup_alter_ne. }
  split.
  { unfold step. rewrite (on_message_asr_audio ws audio _ Haudio).
    unfold try_catch, handle_asr_audio, mbind, M_bind, get.
    by rewrite Hnone. }
  apply close_without_socket, Hnone.
Qed.

Lemma stale_close_detaches_new_socket_witness :
  gateways (env started_twice) !! 0%nat =
    Some {| gw_kind := asrGateway 0%nat None None; gw_readyState := OPEN |} ∧
  asrWs (clientInfo_of 0%nat started_twice) = Some 1%nat ∧
  ∃ st1,
    step (GatewayClose 0%nat) started_twice = Normal () st1 ∧
    trace st1 = trace started_twice ∧
    asrWs (clientInfo_of 0%nat st1) = None ∧
    gw_readyState_of 1%nat st1 = gw_readyState_of 1%nat started_twice ∧
    step (Message 0%nat (Parsed (audio_msg "AAEC"))) st1 = Normal () st1 ∧
    Forall (λ e, closes_gateway e = false)
           (since st1 (final (step (Close 0%nat) st1))).
Proof.
  split; [reflexivity |]. split; [reflexivity |].
  apply (stale_close_detaches_new_socket 0%nat 0%nat 1%nat
           {| gw_kind := asrGateway 0%nat None None; gw_readyState := OPEN |}
           None None (audio_msg "AAEC") started_twice); done.
Defined.

(** X12: the [open] listener of a gateway socket sends on whatever socket
    the client holds when it runs.  If the client sends a second
    [asr_start] before the socket of the first has opened, the listener of
    the first socket sends its [start_asr] on the second socket, which is
    still connecting: the call throws outside any [try], and nothing has
    been sent on either socket. *)
Theorem second_start_before_open_breaks_first_listener (ws : sock)
    (start1 start2 : Msg) (st : Relay) :
  msg_type start1 = Some "asr_start" →
  msg_type start2 = Some "asr_start" →
  ∃ st',
    run [Message ws (Parsed start1); Message ws (Parsed start2);
         GatewayOpen (nextGateway (env st))] st = Thrown NotOpenError st' ∧
    since st st' = [GwNew (nextGateway (env st)); GwNew (S (nextGateway (env st)))] ∧
    gw_readyState_of (nextGateway (env st)) st' = OPEN ∧
    gw_readyState_of (S (nextGateway (env st))) st' = CONNECTING ∧
    asrWs (clientInfo_of ws st') = Some (S (nextGateway (env st))).
Proof.
  intros Hstart1 Hstart2.
  pose proof (on_message_asr_start ws start1 st Hstart1) as H1.
  change (on_message ws (Parsed start1) st) with (step (Message ws (Parsed start1)) st) in H1.
  match type of H1 with _ = Normal () ?s => set (st1 := s) in * end.
  pose proof (on_message_asr_start ws start2 st1 Hstart2) as H2.
  change (on_message ws (Parsed start2) st1)
    with (step (Message ws (Parsed start2)) st1) in H2.
  change (nextGateway (env st1)) with (S (nextGateway (env st))) in H2.
  match type of H2 with _ = Normal () ?s => set (st2 := s) in * end.
  set (h := nextGateway (env st)) in *.
  assert (h ≠ S h) as Hne by lia.
  assert (gateways (env st2) !! h =
          Some {| gw_kind := asrGateway ws (msg_language start1) (msg_model start1);
                  gw_readyState := CONNECTING |}) as Hg.
  { simpl. rewrite lookup_insert_ne by done. by rewrite lookup_insert_eq. }
  assert (asrWs (clientInfo_of ws (set_gw_readyState h OPEN st2)) = Some (S h)) as Hasr.
  { unfold clientInfo_of. simpl. by rewrite fn_lookup_insert. }
  assert (gw_readyState_of (S h) (set_gw_readyState h OPEN st2) = CONNECTING) as Hrs.
  { unfold gw_readyState_of, set_gw_readyState. simpl.
    rewrite lookup_alter_ne by done. by rewrite lookup_insert_eq. }
  eexists. split.
  { cbv [run]. unfold mbind at 1, M_bind at 1. rewrite H1.
    unfold mbind at 1, M_bind at 1. rewrite H2.
    unfold mbind at 1, M_bind at 1.
    unfold step, mbind, M_bind, get, modify. rewrite Hg.
    cbv beta iota delta [gw_kind].
    unfold asr_on_open, mbind, M_bind, get. rewrite Hasr.
    unfold gw_send. rewrite Hrs. reflexivity. }
  split; [apply since_app; simpl; rewrite <- app_assoc; reflexivity |].
  split.
  { unfold gw_readyState_of, set_gw_readyState. simpl.
    rewrite lookup_alter_eq, lookup_insert_ne by done.
    by rewrite lookup_insert_eq. }
  split; [exact Hrs | exact Hasr].
Qed.

Lemma second_start_before_open_breaks_first_listener_witness :
  msg_type (typed_msg "asr_start") = Some "asr_start" ∧
  ∃ st',
    run [Message 0%nat (Parsed (typed_msg "asr_start"));
         Message 0%nat (Parsed (typed_msg "asr_start"));
         GatewayOpen (nextGateway (env two_clients))] two_clients
      = Thrown NotOpenError st' ∧
    since two_clients st' =
      [GwNew (nextGateway (env two_clients)); GwNew (S (nextGateway (env two_clients)))] ∧
    gw_readyState_of (nextGateway (env two_clients)) st' = OPEN ∧
    gw_readyState_of (S (nextGateway (env two_clients))) st' = CONNECTING ∧
    asrWs (clientInfo_of 0%nat st') = Some (S (nextGateway (env two_clients))).
Proof.
  split; [reflexivity |].
  apply (second_start_before_open_breaks_first_listener 0%nat (typed_msg "asr_start")
           (typed_msg "asr_start") two_clients); reflexivity.
Defined.

(** ** The socket of a correction request *)

Lemma claude_process_new_socket ws msg st :
  msg_type msg = Some "claude_process" →
  asr_socket_open ws st = false →
  step (Message ws (Parsed msg)) st =
    Normal () (final (gw_new (correctionGateway ws (msg_transcript msg) (msg_context msg)) st)).
Proof.
  intros Hty Hclosed. unfold step.
  rewrite (on_message_claude_process ws msg st Hty).
  unfold try_catch, handle_claude_process, mbind, M_bind, get.
  unfold asr_socket_open in Hclosed.
  destruct (asrWs (clientInfo_of ws st)) as [h|]; [rewrite Hclosed |]; reflexivity.
Qed.

(** X13: a correction request of a client without an open ASR socket makes
    one round trip on a socket of its own.  The request goes out when that
    socket opens, with the context of the message as it is (the terminal
    context of the client is not substituted); a [correction_result]
    sends the client one [claude_response] with the corrected text and
    [done] set, and closes the socket; a message of any other type is
    ignored, and the socket stays open. *)
Theorem correction_round_trip (ws : sock) (msg : Msg)
    (response : GatewayResponse) (st : Relay) :
  msg_type msg = Some "claude_process" →
  asr_socket_open ws st = false →
  let h := nextGateway (env st) in
  let request :=
    [GwNew h; GwSend h (correct_text (msg_transcript msg) (msg_context msg))] in
  ∃ st',
    run [Message ws (Parsed msg); GatewayOpen h; GatewayMessage h (GwParsed response)] st
      = Normal () st' ∧
    web st' = web st ∧
    if type_is (resp_type response) "correction_result" then
      since st st' =
        request ++ [WsSend ws (claude_response (resp_corrected response) (Some true)
                                               None None);
                    GwClose h None None] ∧
      gw_readyState_of h st' = CLOSING
    else
      since st st' = request ∧ gw_readyState_of h st' = OPEN.
Proof.
  intros Hty Hclosed h request.
  pose proof (claude_process_new_socket ws msg st Hty Hclosed) as H1.
  match type of H1 with _ = Normal () ?s => set (st1 := s) in * end.
  assert (gateways (env st1) !! h =
          Some {| gw_kind := correctionGateway ws (msg_transcript msg) (msg_context msg);
                  gw_readyState := CONNECTING |}) as Hg1.
  { simpl. by rewrite lookup_insert_eq. }
  set (st2 := emit (GwSend h (correct_text (msg_transcript msg) (msg_context msg)))
                (set_gw_readyState h OPEN st1)).
  assert (gw_readyState_of h (set_gw_readyState h OPEN st1) = OPEN) as Hopen.
  { unfold gw_readyState_of, set_gw_readyState. simpl.
    by rewrite lookup_alter_eq, lookup_insert_eq. }
  assert (step (GatewayOpen h) st1 = Normal () st2) as H2.
  { unfold step, mbind, M_bind, get, modify. rewrite Hg1. unfold correction_on_open, gw_send.
    cbv beta iota delta [gw_kind]. rewrite Hopen. reflexivity. }
  assert (gateways (env st2) !! h =
          Some {| gw_kind := correctionGateway ws (msg_transcript msg) (msg_context msg);
                  gw_readyState := OPEN |}) as Hg2.
  { simpl. by rewrite lookup_alter_eq, lookup_insert_eq. }
  assert (gw_readyState_of h st2 = OPEN) as Hopen2 by exact Hopen.
  destruct (type_is (resp_type response) "correction_result") eqn:Hres.
  - eexists. split.
    { cbv [run]. unfold mbind at 1, M_bind at 1. rewrite H1.
      unfold mbind at 1, M_bind at 1. rewrite H2.
      unfold mbind at 1, M_bind at 1.
      unfold step, mbind, M_bind, get, modify. rewrite Hg2.
      unfold correction_on_message, gateway_parse, mbind, M_bind, mret, M_ret.
      cbv beta iota delta [gw_kind]. rewrite Hres. reflexivity. }
    split.
    { unfold gw_close. repeat case_match; reflexivity. }
    split.
    { apply since_app. unfold gw_close.
      repeat case_match; simpl; rewrite <- ?app_assoc; reflexivity. }
    pose proof (gw_close_state h None None (ws_send ws
      (claude_response (resp_corrected response) (Some true) None None) st2)) as [Hno Hnc].
    unfold gw_close in *.
    change (gw_readyState_of h (emit ?e (ws_send ?w ?m st2)))
      with (gw_readyState_of h st2) in *.
    rewrite Hopen2 in *.
    unfold gw_readyState_of, set_gw_readyState. simpl.
    by rewrite !lookup_alter_eq, lookup_insert_eq.
  - exists st2. split.
    { cbv [run]. unfold mbind at 1, M_bind at 1. rewrite H1.
      unfold mbind at 1, M_bind at 1. rewrite H2.
      unfold mbind at 1, M_bind at 1.
      unfold step, mbind, M_bind, get, modify. rewrite Hg2.
      unfold correction_on_message, gateway_parse, mbind, M_bind, mret, M_ret.
      cbv beta iota delta [gw_kind]. rewrite Hres. reflexivity. }
    split; [reflexivity |].
    split; [| exact Hopen2].
    apply since_app. simpl. rewrite <- app_assoc. reflexivity.
Qed.

Lemma correction_round_trip_witness :
  msg_type (claude_msg "fix teh bug") = Some "claude_process" ∧
  asr_socket_open 0%nat connecting_session = false ∧
  ∃ st',
    run [Message 0%nat (Parsed (claude_msg "fix teh bug")); GatewayOpen 1%nat;
         GatewayMessage 1%nat
           (GwParsed {| resp_type := Some "correction_result"; resp_text := None;
                        resp_original := None; resp_corrected := Some "fix the bug";
                        resp_message := None |})] connecting_session
      = Normal () st' ∧
    sent_to 0%nat (since connecting_session st') =
      [claude_response (Some "fix the bug") (Some true) None None].
Proof.
  split; [reflexivity |]. split; [reflexivity |].
  destruct (correction_round_trip 0%nat (claude_msg "fix teh bug")
              {| resp_type := Some "correction_result"; resp_text := None;
                 resp_original := None; resp_corrected := Some "fix the bug";
                 resp_message := None |} connecting_session)
    as (st' & Hrun & _ & Hsince & _); [reflexivity | reflexivity |].
  exists st'. split; [exact Hrun |]. rewrite Hsince. reflexivity.
Defined.

(** * PIN authentication *)

Lemma auth_start_consistent pin : auth_consistent (startWebServer_auth pin auth_init).
Proof.
  unfold auth_consistent. simpl. split_and!.
  - intros ip. rewrite lookup_empty. split; [| done]. by intros ?%elem_of_empty.
  - intros ip n. by rewrite lookup_empty.
  - intros ip. split; [by intros ?%elem_of_empty | by intros ?%elem_of_nil].
  - constructor.
Qed.

Lemma count_below_maximum s ip :
  auth_consistent s → ip ∉ blockedIPs s →
  0 ≤ default 0 (failedAttempts s !! ip) < MAX_FAILED_ATTEMPTS.
Proof.
  intros (Hb & Hr & _ & _) Hblk. unfold MAX_FAILED_ATTEMPTS in *.
  destruct (failedAttempts s !! ip) as [n|] eqn:Hn; simpl; [| lia].
  pose proof (Hr _ _ Hn). assert (n ≠ 10) by (intros ->; by apply Hblk, Hb). lia.
Qed.

Lemma post_login_consistent req s :
  auth_consistent s → auth_consistent (post_login req s).2.
Proof.
  intros Hs. pose proof Hs as (Hb & Hr & Ht & Hnd). unfold post_login.
  destruct (req_body req) as [pin|]; [| done].
  unfold auth_consistent.
  cbv zeta. set (ip := getClientIP req).
  unfold isIPBlocked. case_bool_decide as Hblk; [done |].
  destruct pin as [|p|]; try done.
  destruct (String.eqb p "" || negb (Nat.eqb (String.length p) 6)); [done |].
  destruct (String.eqb p (serverPIN s)).
  - simpl. split_and!; [| | exact Ht | exact Hnd].
    + intros ip'. rewrite Hb. destruct (decide (ip = ip')) as [<-|Hne].
      * rewrite lookup_delete_eq. split; [| done]. intros Hten.
        exfalso. by apply Hblk, Hb.
      * by rewrite lookup_delete_ne.
    + intros ip' n. destruct (decide (ip = ip')) as [<-|Hne].
      * by rewrite lookup_delete_eq.
      * rewrite lookup_delete_ne by done. apply Hr.
  - pose proof (count_below_maximum s ip Hs Hblk) as Hcount.
    set (attempts := default 0 (failedAttempts s !! ip) + 1) in *.
    unfold MAX_FAILED_ATTEMPTS in *.
    destruct (10 <=? attempts) eqn:Hmax; simpl.
    + apply Z.leb_le in Hmax. assert (attempts = 10) as Hten by lia.
      split_and!.
      * intros ip'. rewrite elem_of_union, elem_of_singleton, Hb.
        destruct (decide (ip = ip')) as [<-|Hne].
        -- rewrite lookup_insert_eq, Hten. split; [done | by left].
        -- rewrite lookup_insert_ne by done. intuition congruence.
      * intros ip' n. destruct (decide (ip = ip')) as [<-|Hne].
        -- rewrite lookup_insert_eq. intros [= <-]. lia.
        -- rewrite lookup_insert_ne by done. apply Hr.
      * intros ip'. rewrite elem_of_union, elem_of_singleton, elem_of_app,
          list_elem_of_singleton, Ht. tauto.
      * apply list.NoDup_app. split; [exact Hnd |]. split; [| apply NoDup_singleton].
        intros x Hx ->%list_elem_of_singleton. by apply Hblk, Ht.
    + apply Z.leb_gt in Hmax. split_and!; [| | exact Ht | exact Hnd].
      * intros ip'. rewrite Hb. destruct (decide (ip = ip')) as [<-|Hne].
        -- rewrite lookup_insert_eq. split; [| intros [= ?]; lia].
           intros Hten. exfalso. by apply Hblk, Hb.
        -- by rewrite lookup_insert_ne.
      * intros ip' n. destruct (decide (ip = ip')) as [<-|Hne].
        -- rewrite lookup_insert_eq. intros [= <-]. lia.
        -- rewrite lookup_insert_ne by done. apply Hr.
Qed.

Lemma unblock_fires s i ip :
  auth_consistent s → unblockTimers s !! i = Some ip →
  auth_consistent (auth_step s (UnblockFires i)) ∧
  (ip ∉ blockedIPs (auth_step s (UnblockFires i))) ∧
  failedAttempts (auth_step s (UnblockFires i)) !! ip = None.
Proof.
  intros (Hb & Hr & Ht & Hnd) Hi. unfold auth_step. rewrite Hi.
  unfold unblock, auth_consistent. simpl.
  apply list_elem_of_split_length in Hi as (l1 & l2 & Hl & ->).
  rewrite Hl in *. rewrite delete_middle.
  apply list.NoDup_app in Hnd as (Hnd1 & Hnd12 & [Hnd2 Hnd3]%list.NoDup_cons).
  assert (ip ∉ l1 ++ l2) as Hfresh.
  { rewrite elem_of_app. intros [H1|H2]; [| done].
    apply (Hnd12 _ H1). apply elem_of_cons. by left. }
  split; [| split].
  - split_and!.
    + intros ip'. rewrite elem_of_difference, elem_of_singleton, Hb.
      destruct (decide (ip = ip')) as [<-|Hne].
      * rewrite lookup_delete_eq. intuition congruence.
      * rewrite lookup_delete_ne by done. intuition congruence.
    + intros ip' n. destruct (decide (ip = ip')) as [<-|Hne].
      * by rewrite lookup_delete_eq.
      * rewrite lookup_delete_ne by done. apply Hr.
    + intros ip'. rewrite elem_of_difference, elem_of_singleton, Ht.
      rewrite !elem_of_app, elem_of_cons.
      split; [intuition congruence |]. intros Hin. split; [tauto |].
      intros ->. by apply Hfresh, elem_of_app.
    + apply list.NoDup_app. split; [exact Hnd1 |]. split; [| exact Hnd3].
      intros x Hx Hx2. apply (Hnd12 _ Hx). apply elem_of_cons. by right.
  - rewrite elem_of_difference, elem_of_singleton. by intros [_ Hne].
  - apply lookup_delete_eq.
Qed.

Lemma auth_step_consistent s ev : auth_consistent s → auth_consistent (auth_step s ev).
Proof.
  intros Hs. destruct ev as [req | i].
  - by apply post_login_consistent.
  - destruct (unblockTimers s !! i) as [ip|] eqn:Hi.
    + by apply (unblock_fires s i ip).
    + unfold auth_step. by rewrite Hi.
Qed.

Lemma auth_run_consistent evs s : auth_consistent s → auth_consistent (auth_run evs s).
Proof.
  revert s. induction evs as [|ev evs IH]; intros s Hs; [done |].
  apply IH. by apply auth_step_consistent.
Qed.

(** X14: once the server runs, an address is blocked exactly when its
    count of failed attempts stands at ten, and exactly when one timer is
    pending that will unblock it; no count exceeds ten.  So every block
    ends: the firing of that timer takes the address off the list and
    resets its count. *)
Theorem blocked_iff_ten_failures_and_timer (pin : option string)
    (evs : list AuthEvent) :
  let s := auth_run evs (startWebServer_auth pin auth_init) in
  auth_consistent s ∧
  ∀ ip, ip ∈ blockedIPs s →
        ∃ i, unblockTimers s !! i = Some ip ∧
             (ip ∉ blockedIPs (auth_step s (UnblockFires i))) ∧
             failedAttempts (auth_step s (UnblockFires i)) !! ip = None.
Proof.
  intros s.
  assert (auth_consistent s) as Hs
    by apply auth_run_consistent, auth_start_consistent.
  split; [exact Hs |]. intros ip Hblk.
  pose proof Hs as (_ & _ & Ht & _).
  apply Ht in Hblk. apply list_elem_of_lookup_1 in Hblk as [i Hi].
  exists i. split; [exact Hi |]. by apply (unblock_fires s i ip).
Qed.

Example ten_wrong_pins_block :
  let s := auth_run (replicate 10 (Login (login_request "10.0.0.7" "000000")))
                    (startWebServer_auth (Some "123456") auth_init) in
  isIPBlocked "10.0.0.7" s = true ∧
  (post_login (login_request "10.0.0.7" "123456") s).1 = Json 429 error_blocked None ∧
  (post_login (login_request "10.0.0.8" "123456") s).1 = Json 200 success (Some "123456").
Proof. vm_compute. done. Qed.

Lemma post_login_serverPIN req s : serverPIN (post_login req s).2 = serverPIN s.
Proof. unfold post_login. repeat case_match; reflexivity. Qed.

Lemma auth_step_serverPIN s ev : serverPIN (auth_step s ev) = serverPIN s.
Proof.
  destruct ev as [req | i]; simpl; [apply post_login_serverPIN |].
  by destruct (unblockTimers s !! i).
Qed.

Lemma auth_run_serverPIN evs s : serverPIN (auth_run evs s) = serverPIN s.
Proof.
  revert s. induction evs as [|ev evs IH]; intros s; [done |].
  change (auth_run (ev :: evs) s) with (auth_run evs (auth_step s ev)).
  by rewrite IH, auth_step_serverPIN.
Qed.

(** A login request moves the count of an address by one exactly when it
    comes from that address and reaches the comparison with a wrong PIN. *)
Lemma post_login_count req s ip :
  auth_consistent s →
  (getClientIP req = ip → wrong_pin s req) →
  default 0 (failedAttempts (post_login req s).2 !! ip) =
  default 0 (failedAttempts s !! ip) +
  (if compared req s && String.eqb (getClientIP req) ip then 1 else 0).
Proof.
  intros Hs Hwrong. unfold post_login, compared.
  destruct (req_body req) as [pin|] eqn:Hbody; [| rewrite andb_false_r; simpl; lia].
  cbv zeta. unfold isIPBlocked.
  case_bool_decide as Hblk; [simpl; lia |].
  destruct pin as [|p|]; try (simpl; lia).
  destruct (String.eqb p "") eqn:Hempty; [simpl; lia |].
  destruct (Nat.eqb (String.length p) 6) eqn:Hlen; [| simpl; lia].
  simpl negb. cbv iota. simpl orb. cbv iota.
  destruct (String.eqb (getClientIP req) ip) eqn:Hip.
  - apply String.eqb_eq in Hip. specialize (Hwrong Hip).
    destruct (String.eqb p (serverPIN s)) eqn:Hpin.
    { apply String.eqb_eq in Hpin. subst p. by destruct Hwrong. }
    rewrite Hip. unfold MAX_FAILED_ATTEMPTS.
    destruct (10 <=? _); simpl; by rewrite lookup_insert_eq.
  - apply String.eqb_neq in Hip.
    destruct (String.eqb p (serverPIN s)).
    { simpl. rewrite lookup_delete_ne by done. lia. }
    unfold MAX_FAILED_ATTEMPTS.
    destruct (10 <=? _); simpl; rewrite lookup_insert_ne by done; lia.
Qed.

Lemma comparisons_bound ip reqs s :
  auth_consistent s →
  Forall (λ req, getClientIP req = ip → wrong_pin s req) reqs →
  Z.of_nat (comparisons ip reqs s)
    ≤ MAX_FAILED_ATTEMPTS - default 0 (failedAttempts s !! ip).
Proof.
  intros Hs Hreqs. revert s Hs Hreqs.
  induction reqs as [|req reqs IH]; intros s Hs Hreqs.
  - simpl. pose proof Hs as (_ & Hr & _ & _).
    destruct (failedAttempts s !! ip) as [n|] eqn:Hn; simpl.
    + pose proof (Hr _ _ Hn). lia.
    + unfold MAX_FAILED_ATTEMPTS. lia.
  - inversion Hreqs as [|? ? Hreq Hrest]; subst. clear Hreqs. rename Hrest into Hreqs.
    pose proof (post_login_count req s ip Hs Hreq) as Hcount.
    specialize (IH (post_login req s).2 (post_login_consistent req s Hs)).
    simpl comparisons. rewrite Nat2Z.inj_add.
    assert (Forall (λ req0, getClientIP req0 = ip → wrong_pin (post_login req s).2 req0)
                   reqs) as Hreqs'.
    { eapply Forall_impl; [| exact Hreqs]. intros r Hr.
      unfold wrong_pin in *. by rewrite post_login_serverPIN. }
    specialize (IH Hreqs').
    destruct (compared req s && String.eqb (getClientIP req) ip); simpl in *; lia.
Qed.

(** X15: while no unblock timer fires, at most ten PINs of one address
    are compared with the PIN of the server, however many requests the
    address sends, as long as it does not send the right one: every
    further request is refused before the comparison. *)
Theorem wrong_guesses_bounded (pin : option string) (evs : list AuthEvent)
    (ip : string) (reqs : list Request) :
  let s := auth_run evs (startWebServer_auth pin auth_init) in
  Forall (λ req, getClientIP req = ip → wrong_pin s req) reqs →
  (comparisons ip reqs s ≤ 10)%nat.
Proof.
  intros s Hreqs.
  assert (auth_consistent s) as Hs
    by apply auth_run_consistent, auth_start_consistent.
  pose proof (comparisons_bound ip reqs s Hs Hreqs) as Hbound.
  pose proof Hs as (_ & Hr & _ & _). unfold MAX_FAILED_ATTEMPTS in *.
  destruct (failedAttempts s !! ip) as [n|] eqn:Hn; simpl in Hbound.
  - pose proof (Hr _ _ Hn). lia.
  - lia.
Qed.

Lemma wrong_guesses_bounded_witness :
  Forall (λ req, getClientIP req = "10.0.0.7" →
                 wrong_pin (auth_run [] (startWebServer_auth (Some "123456") auth_init)) req)
         (replicate 25 (login_request "10.0.0.7" "000000")) ∧
  (comparisons "10.0.0.7" (replicate 25 (login_request "10.0.0.7" "000000"))
               (auth_run [] (startWebServer_auth (Some "123456") auth_init)) ≤ 10)%nat.
Proof.
  assert (Forall (λ req, getClientIP req = "10.0.0.7" →
                 wrong_pin (auth_run [] (startWebServer_auth (Some "123456") auth_init)) req)
         (replicate 25 (login_request "10.0.0.7" "000000"))) as Hwrong.
  { apply Forall_replicate. intros _. unfold wrong_pin. simpl. discriminate. }
  split; [exact Hwrong |].
  exact (wrong_guesses_bounded (Some "123456") [] "10.0.0.7" _ Hwrong).
Defined.

(** The bound is reached. *)
Example ten_guesses_are_compared :
  comparisons "10.0.0.7" (replicate 25 (login_request "10.0.0.7" "000000"))
              (startWebServer_auth (Some "123456") auth_init) = 10%nat.
Proof. vm_compute. reflexivity. Qed.

Lemma validatePIN_length pin : validatePIN pin = true → String.length pin = 6%nat.
Proof. unfold validatePIN. intros [Hlen _]%andb_true_iff. by apply Nat.eqb_eq. Qed.

Lemma session_pin_valid userPin pin :
  session_pin userPin = Some pin → pin ≠ "" → validatePIN pin = true.
Proof.
  unfold session_pin. intros Hpin Hne.
  destruct (truthy_str userPin); [| by inversion Hpin].
  destruct (validatePIN (default "" userPin)) eqn:Hvalid; [| done].
  subst userPin. exact Hvalid.
Qed.

Lemma isAuthenticated_cookie req s :
  isAuthenticated req s = bool_decide (auth_cookie_of req = Some (serverPIN s)).
Proof.
  unfold isAuthenticated, auth_cookie_of.
  destruct (req_cookies req) as [cookies|]; reflexivity.
Qed.

(** X16: a PIN that [startSession] accepts opens the server it starts.
    In every state the server reaches, a login with that PIN from an
    address that is not blocked is answered with 200 and a cookie whose
    value is the PIN itself, and the count of the address is reset.  From
    then on, whatever logins and timers follow, a request for a route
    behind the middleware is let through exactly when its address is not
    blocked and it presents that cookie: nothing but the PIN is checked,
    and a blocked address is refused even with the cookie. *)
Theorem accepted_pin_opens_the_server (userPin : option string) (pin : string)
    (evs : list AuthEvent) (req : Request) :
  session_pin userPin = Some pin → pin ≠ "" →
  req_body req = Some (JsString pin) →
  let s := auth_run evs (startWebServer_auth (Some pin) auth_init) in
  isIPBlocked (getClientIP req) s = false →
  post_login req s =
    (Json 200 success (Some pin),
     with_failedAttempts (delete (getClientIP req) (failedAttempts s)) s) ∧
  ∀ (evs' : list AuthEvent) (req' : Request),
    let s' := auth_run evs' (post_login req s).2 in
    login_path req' = false →
    (guard req' s' = Next ↔
     isIPBlocked (getClientIP req') s' = false ∧ auth_cookie_of req' = Some pin).
Proof.
  intros Hsession Hne Hbody s Hfree.
  pose proof (validatePIN_length pin (session_pin_valid _ _ Hsession Hne)) as Hlen.
  assert (String.eqb pin "" = false) as Hnonempty by by apply String.eqb_neq.
  assert (serverPIN s = pin) as Hpin.
  { unfold s. rewrite auth_run_serverPIN. simpl. by rewrite Hnonempty. }
  split.
  - unfold post_login. rewrite Hbody. cbv zeta. rewrite Hfree, Hnonempty, Hlen, Hpin.
    simpl. by rewrite String.eqb_refl.
  - intros evs' req' s' Hpath.
    assert (serverPIN s' = pin) as Hpin'.
    { unfold s'. by rewrite auth_run_serverPIN, post_login_serverPIN. }
    unfold guard, requireAuth. rewrite Hpin', Hnonempty. cbv zeta.
    fold (login_path req'). rewrite Hpath, isAuthenticated_cookie, Hpin'.
    destruct (isIPBlocked (getClientIP req') s').
    + split; [done | by intros [? _]].
    + case_bool_decide as Hcookie.
      * split; [done | done].
      * split; [done | by intros [_ ?]].
Qed.

Lemma accepted_pin_opens_the_server_witness :
  session_pin (Some "123456") = Some "123456" ∧
  (post_login (login_request "10.0.0.7" "123456")
              (auth_run [Login (login_request "10.0.0.7" "654321")]
                        (startWebServer_auth (Some "123456") auth_init))).1
    = Json 200 success (Some "123456") ∧
  guard (cookie_request "10.0.0.7" "/api/terminal-context" (Some "123456"))
        (auth_run [] (post_login (login_request "10.0.0.7" "123456")
           (auth_run [Login (login_request "10.0.0.7" "654321")]
                     (startWebServer_auth (Some "123456") auth_init))).2) = Next.
Proof.
  destruct (accepted_pin_opens_the_server (Some "123456") "123456"
              [Login (login_request "10.0.0.7" "654321")]
              (login_request "10.0.0.7" "123456"))
    as [Hlogin Hguard]; [reflexivity | done | reflexivity | reflexivity |].
  split; [reflexivity |]. split; [by rewrite Hlogin |].
  apply (Hguard [] (cookie_request "10.0.0.7" "/api/terminal-context" (Some "123456")));
    [reflexivity |].
  split; reflexivity.
Defined.

(** Without a PIN nothing is guarded, and a PIN that is not six digits is
    refused before the server starts. *)
Example no_pin_no_guard :
  session_pin None = Some "" ∧ session_pin (Some "12345a") = None ∧
  guard (cookie_request "10.0.0.7" "/api/terminal-context" None)
        (startWebServer_auth (session_pin None) auth_init) = Next ∧
  guard (cookie_request "10.0.0.7" "/api/terminal-context" None)
        (startWebServer_auth (Some "123456") auth_init) = RedirectTo "/login".
Proof. vm_compute. done. Qed.

(** * The HTTP relay *)

Lemma append_cons a s t :
  String.append (String a s) t = String a (String.append s t).
Proof. reflexivity. Qed.

Lemma append_nil_r s : String.append s "" = s.
Proof. induction s as [|a s IH]; [done |]. by rewrite append_cons, IH. Qed.

Lemma append_assoc s t u :
  String.append (String.append s t) u = String.append s (String.append t u).
Proof. induction s as [|a s IH]; [done |]. by rewrite !append_cons, IH. Qed.

Lemma join_cons x l :
  String.concat "" (x :: l) = String.append x (String.concat "" l).
Proof. destruct l as [|y l]; [by rewrite append_nil_r | reflexivity]. Qed.

Lemma join_app l1 l2 :
  String.concat "" (l1 ++ l2) =
  String.append (String.concat "" l1) (String.concat "" l2).
Proof.
  induction l1 as [|x l1 IH]; [done |].
  change ((x :: l1) ++ l2) with (x :: (l1 ++ l2)).
  by rewrite !join_cons, IH, append_assoc.
Qed.

(** What has been posted and what is still buffered, in one string. *)
Lemma relay_step_conserves ev s :
  is_stop ev = false →
  String.append (String.concat "" (posted_output (HttpRelay.posts (HttpRelay.step s ev))))
                (String.concat "" (HttpRelay.outputBuffer (HttpRelay.vars (HttpRelay.step s ev))))
  = String.append
      (String.append (String.concat "" (posted_output (HttpRelay.posts s)))
                     (String.concat "" (HttpRelay.outputBuffer (HttpRelay.vars s))))
      (String.concat "" (produced [ev])).
Proof.
  intros Hstop. destruct ev; try discriminate; simpl.
  - by rewrite join_app, append_assoc.
  - unfold posted_output. rewrite omap_app. simpl. by rewrite app_nil_r, append_nil_r.
  - rewrite append_nil_r. destruct (HttpRelay.flushTimer _); [| done].
    unfold HttpRelay.flush. case_bool_decide as Hempty; [done |]. simpl.
    unfold posted_output. rewrite omap_app. simpl.
    by rewrite join_app, append_nil_r.
  - rewrite append_nil_r. destruct (HttpRelay.pollInterval _); [| done].
    unfold HttpRelay.poll. by destruct (HttpRelay.isRunning _).
  - rewrite append_nil_r. destruct (HttpRelay.polls s) as [|n]; [done |].
    unfold HttpRelay.poll_response, HttpRelay.applyMinSize.
    repeat case_match; reflexivity.
  - by rewrite append_nil_r.
  - rewrite append_nil_r. unfold HttpRelay.onLocalResize, HttpRelay.applyMinSize.
    repeat case_match; reflexivity.
Qed.

Lemma relay_run_conserves evs s :
  Forall (λ ev, is_stop ev = false) evs →
  String.append
    (String.concat "" (posted_output (HttpRelay.posts (HttpRelay.run evs s))))
    (String.concat "" (HttpRelay.outputBuffer (HttpRelay.vars (HttpRelay.run evs s))))
  = String.append
      (String.append (String.concat "" (posted_output (HttpRelay.posts s)))
                     (String.concat "" (HttpRelay.outputBuffer (HttpRelay.vars s))))
      (String.concat "" (produced evs)).
Proof.
  intros Hevs. revert s. induction Hevs as [|ev evs Hev _ IH]; intros s.
  - simpl. by rewrite append_nil_r.
  - change (HttpRelay.run (ev :: evs) s) with (HttpRelay.run evs (HttpRelay.step s ev)).
    rewrite IH, (relay_step_conserves ev s Hev).
    assert (produced (ev :: evs) = produced [ev] ++ produced evs) as ->
      by apply (omap_app _ [ev] evs).
    by rewrite join_app, !append_assoc.
Qed.

(** X17: batching neither loses, nor repeats, nor reorders output.  As
    long as the relay is not stopped, the bodies it has posted, one after
    the other, followed by what is still in its buffer, are the output
    the PTY has produced, whatever the flush timer, the polling loop, the
    resizes and the exit of the child do in between. *)
Theorem relay_output_conserved (evs : list HttpRelay.Event) (p : Relay) :
  Forall (λ ev, is_stop ev = false) evs →
  let s := HttpRelay.run evs (HttpRelay.startRelay (HttpRelay.init p)) in
  String.append (String.concat "" (posted_output (HttpRelay.posts s)))
                (String.concat "" (HttpRelay.outputBuffer (HttpRelay.vars s)))
  = String.concat "" (produced evs).
Proof.
  intros Hevs s. unfold s. by rewrite relay_run_conserves.
Qed.

Lemma relay_output_conserved_witness :
  Forall (λ ev, is_stop ev = false)
         [HttpRelay.Data "a"; HttpRelay.Data "b"; HttpRelay.FlushTick;
          HttpRelay.Data "c"; HttpRelay.Exit 0; HttpRelay.FlushTick;
          HttpRelay.FlushTick; HttpRelay.Data "d"] ∧
  HttpRelay.posts
    (HttpRelay.run [HttpRelay.Data "a"; HttpRelay.Data "b"; HttpRelay.FlushTick;
                    HttpRelay.Data "c"; HttpRelay.Exit 0; HttpRelay.FlushTick;
                    HttpRelay.FlushTick; HttpRelay.Data "d"]
                   (HttpRelay.startRelay (HttpRelay.init init)))
    = [HttpRelay.post_output "ab"; HttpRelay.post_exit 0; HttpRelay.post_output "c"] ∧
  String.append
    (String.concat "" (posted_output (HttpRelay.posts
      (HttpRelay.run [HttpRelay.Data "a"; HttpRelay.Data "b"; HttpRelay.FlushTick;
                      HttpRelay.Data "c"; HttpRelay.Exit 0; HttpRelay.FlushTick;
                      HttpRelay.FlushTick; HttpRelay.Data "d"]
                     (HttpRelay.startRelay (HttpRelay.init init))))))
    (String.concat "" (HttpRelay.outputBuffer (HttpRelay.vars
      (HttpRelay.run [HttpRelay.Data "a"; HttpRelay.Data "b"; HttpRelay.FlushTick;
                      HttpRelay.Data "c"; HttpRelay.Exit 0; HttpRelay.FlushTick;
                      HttpRelay.FlushTick; HttpRelay.Data "d"]
                     (HttpRelay.startRelay (HttpRelay.init init))))))
  = "abcd".
Proof.
  assert (Forall (λ ev, is_stop ev = false)
         [HttpRelay.Data "a"; HttpRelay.Data "b"; HttpRelay.FlushTick;
          HttpRelay.Data "c"; HttpRelay.Exit 0; HttpRelay.FlushTick;
          HttpRelay.FlushTick; HttpRelay.Data "d"]) as Hevs
    by (repeat constructor).
  split; [exact Hevs |]. split; [reflexivity |].
  exact (relay_output_conserved _ init Hevs).
Defined.

(** Stopping discards what is buffered. *)
Example relay_stop_discards_pending_output :
  let s := HttpRelay.run [HttpRelay.Data "a"; HttpRelay.Stop; HttpRelay.FlushTick]
                         (HttpRelay.startRelay (HttpRelay.init init)) in
  HttpRelay.posts s = [] ∧ HttpRelay.outputBuffer (HttpRelay.vars s) = [].
Proof. vm_compute. done. Qed.

(** X18: the size policy of the HTTP relay and the reconciler of the web
    server agree on a client that reports positive dimensions: with the
    same single client and the same local terminal, both leave the process
    in the same state and ask the PTY for the same size or both for none. *)
Theorem relay_policy_agrees_with_server (ws : sock) (s : HttpRelay.State) :
  same_client ws s →
  0 < HttpRelay.webCols (HttpRelay.vars s) →
  0 < HttpRelay.webRows (HttpRelay.vars s) →
  HttpRelay.process (HttpRelay.applyMinSize s) = applyMinSize (HttpRelay.process s).
Proof.
  intros (Hreg & Hc & Hr) Hcols Hrows.
  unfold HttpRelay.applyMinSize, applyMinSize, calculateMinSize, Map_size, Map_values.
  rewrite Hreg. simpl. unfold clientInfo_of in Hc, Hr. rewrite Hc, Hr.
  destruct (Z.eqb_spec (HttpRelay.webCols (HttpRelay.vars s)) 0) as [H0|_]; [lia |].
  destruct (Z.eqb_spec (HttpRelay.webRows (HttpRelay.vars s)) 0) as [H0|_]; [lia |].
  destruct (Z.ltb_spec 0 (HttpRelay.webCols (HttpRelay.vars s))) as [_|?]; [| lia].
  destruct (Z.ltb_spec 0 (HttpRelay.webRows (HttpRelay.vars s))) as [_|?]; [| lia].
  simpl. by destruct (_ && _).
Qed.

Lemma relay_policy_agrees_with_server_witness :
  same_client 0%nat relay_with_client ∧
  HttpRelay.process (HttpRelay.applyMinSize relay_with_client)
    = applyMinSize (HttpRelay.process relay_with_client) ∧
  ptyProcess (pty (HttpRelay.process (HttpRelay.applyMinSize relay_with_client)))
    = Some {| pty_cols := 100; pty_rows := 30 |}.
Proof.
  assert (same_client 0%nat relay_with_client) as Hsame by (repeat split).
  split; [exact Hsame |]. split; [| reflexivity].
  apply (relay_policy_agrees_with_server 0%nat relay_with_client Hsame); reflexivity.
Defined.

(** They part on other reports: the relay waits, the web server resizes to
    the local size. *)
Example relay_waits_where_server_resizes :
  let s := HttpRelay.set_vars (HttpRelay.with_webSize (-5) 30)
             (HttpRelay.startRelay (HttpRelay.init
                (final (run [Connection 0%nat 1;
                             Message 0%nat (Parsed (resize_msg (-5) 30))]
                            (startSession (Some 120) (Some 40) init))))) in
  since (HttpRelay.process s) (HttpRelay.process (HttpRelay.applyMinSize s)) = [] ∧
  since (HttpRelay.process s) (applyMinSize (HttpRelay.process s)) = [PtyResize 120 40].
Proof. vm_compute. done. Qed.
